(** * MemoryPoolIPCHybrid: the hybrid cross-process buffer pool of Cthulhu

    A shallow embedding of [Cthulhu/src/MemoryPoolIPCHybrid.cpp].  The shared
    segment and the pool object of one attached process are records; every
    member function is a pure function that takes the state and returns the
    result together with the new state; [requestSHM], whose allocation the
    segment manager may refuse, has besides a version that returns an
    [Outcome].  Answers of the operating system and
    of the graphics utility (a handle duplication, a Vulkan allocation, the
    liveness of a process) are arguments of the function that asks for them. *)

From Stdlib Require Import ZArith Lia SpecFloat.
From stdpp Require Import gmap strings list fin_maps.

Local Open Scope Z_scope.

(** ** Machine arithmetic *)

Module Size.

(** [size_t] and [uint64_t] are 64 bits wide; arithmetic wraps. *)
Definition modulus : Z := 2 ^ 64.
Definition wrap (z : Z) : Z := z mod modulus.
Definition add (a b : Z) : Z := wrap (a + b).
Definition sub (a b : Z) : Z := wrap (a - b).

End Size.

Module Double.

(** IEEE 754 binary64, as specified by the standard library's [SpecFloat]
    (round to nearest, ties to even). *)
Definition prec : Z := 53.
Definition emax : Z := 1024.

(** The implicit conversion of a [size_t] to [double]. *)
Definition of_size_t (z : Z) : spec_float := binary_normalize prec emax z 0 false.
Definition mul : spec_float → spec_float → spec_float := SFmul prec emax.
Definition ltb : spec_float → spec_float → bool := SFltb.

End Double.

(** ** Addresses

    A raw address is null, lies in the mapping of the shared segment (where it
    is determined by the offset handle), lies in the heap of the local
    fallback pool, or lies in a CPU mapping of GPU memory. *)

Inductive ptr : Type :=
  | nullptr
  | shm_addr (off : Z)
  | heap_addr (blk : Z)
  | map_addr (handle : Z).

#[global] Instance ptr_eq_dec : EqDecision ptr.
Proof. solve_decision. Defined.

Definition ptr_code (p : ptr) : option (Z + (Z + Z)) :=
  match p with
  | nullptr => None
  | shm_addr o => Some (inl o)
  | heap_addr b => Some (inr (inl b))
  | map_addr h => Some (inr (inr h))
  end.

Definition ptr_decode (c : option (Z + (Z + Z))) : ptr :=
  match c with
  | None => nullptr
  | Some (inl o) => shm_addr o
  | Some (inr (inl b)) => heap_addr b
  | Some (inr (inr h)) => map_addr h
  end.

#[global] Instance ptr_countable : Countable ptr.
Proof. apply (inj_countable' ptr_code ptr_decode). now intros []. Defined.

(** [shm_->get_address_from_handle] and [shm_->get_handle_from_address]. *)
Definition get_address_from_handle (off : Z) : ptr := shm_addr off.
Definition get_handle_from_address (p : ptr) : Z :=
  match p with shm_addr o => o | _ => 0 end.

(** ** Local buffers *)

(** The deleter a [CpuBuffer] carries. *)
Inductive Deleter : Type :=
  | no_deleter          (* the empty buffer *)
  | del_destroyLocal    (* [this->destroyLocal(ptr)] *)
  | del_localPool       (* owned by the local fallback pool *)
  | del_unmap.          (* a CPU view of GPU memory, unmapped on drop *)

Record CpuBuffer : Type := mkCpuBuffer { cb_ptr : ptr; cb_del : Deleter }.

#[global] Instance Deleter_eq_dec : EqDecision Deleter.
Proof. solve_decision. Defined.

#[global] Instance CpuBuffer_eq_dec : EqDecision CpuBuffer.
Proof. solve_decision. Defined.

Definition CpuBuffer_empty : CpuBuffer := mkCpuBuffer nullptr no_deleter.

(** [!buf] *)
Definition cb_is_null (b : CpuBuffer) : bool :=
  match cb_ptr b with nullptr => true | _ => false end.

Record GpuBufferData : Type :=
  mkGpuBufferData { handle : Z; size : Z; memoryTypeIndex : Z }.

(** [std::pair<GpuBufferData, uint64_t>]: the descriptor and its origin PID. *)
Record GpuBufferDataWithPID : Type :=
  mkGpuBufferDataWithPID { first : GpuBufferData; second : Z }.

Inductive GpuDeleter : Type :=
  | gpu_no_deleter
  | gpu_destroyLocal          (* [this->destroyLocal(handlePtr)] *)
  | gpu_destroyLocal_delete.  (* [this->destroyLocal(ptr); delete ptr] *)

(** A [GpuBuffer]: the descriptor it points to (absent for the empty buffer),
    its deleter and the CPU view. *)
Record GpuBuffer : Type :=
  mkGpuBuffer { gb_data : option GpuBufferData; gb_del : GpuDeleter; gb_view : CpuBuffer }.

Definition GpuBuffer_empty : GpuBuffer := mkGpuBuffer None gpu_no_deleter CpuBuffer_empty.

(** ** The shared segment *)

Inductive PoolId : Type := CpuPool | GpuPool | GpuDeviceLocalPool.

#[global] Instance PoolId_eq_dec : EqDecision PoolId.
Proof. solve_decision. Defined.

(** The control block of a [boost::interprocess::shared_ptr]: the use count
    and the deleter, here [ReclaimerIPC(pool, offset_ptr)]. *)
Record ControlBlock : Type :=
  mkControlBlock { use_count : nat; rc_pool : PoolId; rc_offset : Z }.

(** A [SharedPtrIPC] / [SharedPtrGPUIPC] value: empty, or the offset of the
    pointee together with the offset of the control block. *)
Inductive SharedPtr : Type :=
  | sp_null
  | sp_ref (px : Z) (pn : Z).

#[global] Instance SharedPtr_eq_dec : EqDecision SharedPtr.
Proof. solve_decision. Defined.

(** [buffer.get().get()] on a CPU wrapper. *)
Definition sp_get (b : SharedPtr) : ptr :=
  match b with sp_null => nullptr | sp_ref o _ => get_address_from_handle o end.

(** [static_cast<bool>(wrapper)] *)
Definition sp_bool (b : SharedPtr) : bool :=
  match b with sp_null => false | sp_ref _ _ => true end.

Record MemoryPoolIPC : Type := mkMemoryPoolIPC {
  buffers : gmap Z (list Z);   (* size -> free-list of offset handles *)
  sizes : gmap Z Z;            (* offset handle -> size *)
  allocated : Z
}.

Record Process : Type := mkProcess { proc_pid : Z }.

Record AuditorIPC : Type := mkAuditorIPC { processes : list Process; invalid : bool }.

(** The managed segment.  A named object that was never constructed is
    represented by its default-constructed value, so that
    [find_or_construct] is the identity.  The segment manager hands out fresh
    offsets from [shm_next].  How much room it has left is not part of the
    record: it is an answer of the segment manager, given to the function
    that asks ([construct_bytes], [requestSHM_outcome]); the other
    functions are modelled in the runs in which it serves what they ask. *)
Record ManagedSHM : Type := mkManagedSHM {
  shm_pool : MemoryPoolIPC;                (* "MemoryPool" *)
  shm_poolGPU : MemoryPoolIPC;             (* "MemoryPoolGPU" *)
  shm_poolGPUDeviceLocal : MemoryPoolIPC;  (* "MemoryPoolGPUDeviceLocal" *)
  shm_auditor : AuditorIPC;                (* "Auditor" *)
  shm_next : Z;
  shm_bytes : gmap Z Z;                    (* live [uint8_t[n]] blocks: offset -> n *)
  shm_gpu : gmap Z GpuBufferDataWithPID;   (* live GPU descriptors *)
  shm_ctl : gmap Z ControlBlock            (* live control blocks *)
}.

Definition MemoryPoolIPC_new : MemoryPoolIPC := mkMemoryPoolIPC ∅ ∅ 0.

Definition ManagedSHM_new : ManagedSHM :=
  mkManagedSHM MemoryPoolIPC_new MemoryPoolIPC_new MemoryPoolIPC_new
    (mkAuditorIPC [] false) 1 ∅ ∅ ∅.

Definition get_pool (k : PoolId) (s : ManagedSHM) : MemoryPoolIPC :=
  match k with
  | CpuPool => shm_pool s
  | GpuPool => shm_poolGPU s
  | GpuDeviceLocalPool => shm_poolGPUDeviceLocal s
  end.

Definition set_pool (k : PoolId) (p : MemoryPoolIPC) (s : ManagedSHM) : ManagedSHM :=
  match k with
  | CpuPool =>
      mkManagedSHM p (shm_poolGPU s) (shm_poolGPUDeviceLocal s) (shm_auditor s)
        (shm_next s) (shm_bytes s) (shm_gpu s) (shm_ctl s)
  | GpuPool =>
      mkManagedSHM (shm_pool s) p (shm_poolGPUDeviceLocal s) (shm_auditor s)
        (shm_next s) (shm_bytes s) (shm_gpu s) (shm_ctl s)
  | GpuDeviceLocalPool =>
      mkManagedSHM (shm_pool s) (shm_poolGPU s) p (shm_auditor s)
        (shm_next s) (shm_bytes s) (shm_gpu s) (shm_ctl s)
  end.

Definition set_auditor (a : AuditorIPC) (s : ManagedSHM) : ManagedSHM :=
  mkManagedSHM (shm_pool s) (shm_poolGPU s) (shm_poolGPUDeviceLocal s) a
    (shm_next s) (shm_bytes s) (shm_gpu s) (shm_ctl s).

Definition set_next (n : Z) (s : ManagedSHM) : ManagedSHM :=
  mkManagedSHM (shm_pool s) (shm_poolGPU s) (shm_poolGPUDeviceLocal s) (shm_auditor s)
    n (shm_bytes s) (shm_gpu s) (shm_ctl s).

Definition set_bytes (b : gmap Z Z) (s : ManagedSHM) : ManagedSHM :=
  mkManagedSHM (shm_pool s) (shm_poolGPU s) (shm_poolGPUDeviceLocal s) (shm_auditor s)
    (shm_next s) b (shm_gpu s) (shm_ctl s).

Definition set_gpu (g : gmap Z GpuBufferDataWithPID) (s : ManagedSHM) : ManagedSHM :=
  mkManagedSHM (shm_pool s) (shm_poolGPU s) (shm_poolGPUDeviceLocal s) (shm_auditor s)
    (shm_next s) (shm_bytes s) g (shm_ctl s).

Definition set_ctl (c : gmap Z ControlBlock) (s : ManagedSHM) : ManagedSHM :=
  mkManagedSHM (shm_pool s) (shm_poolGPU s) (shm_poolGPUDeviceLocal s) (shm_auditor s)
    (shm_next s) (shm_bytes s) (shm_gpu s) c.

Definition set_buffers (b : gmap Z (list Z)) (p : MemoryPoolIPC) : MemoryPoolIPC :=
  mkMemoryPoolIPC b (sizes p) (allocated p).

(** The block of [n] bytes the segment manager places when it serves a
    request: it lies at the next free offset. *)
Definition place_bytes (n : Z) (s : ManagedSHM) : Z * ManagedSHM :=
  let off := shm_next s in
  (off, set_bytes (<[off := n]> (shm_bytes s)) (set_next (off + 1) s)).

(** [shm_->construct<uint8_t>(anonymous_instance)[n]()].  [room] is the size
    of the largest block the segment manager can serve at this moment: a
    request within it is served, a larger one throws
    [boost::interprocess::bad_alloc], here [None]. *)
Definition construct_bytes (room : Z) (n : Z) (s : ManagedSHM) : option (Z * ManagedSHM) :=
  if n <=? room then Some (place_bytes n s) else None.

(** [shm_->construct<GpuBufferDataWithPID>(anonymous_instance)()] followed by
    the assignments to its fields. *)
Definition construct_gpu (d : GpuBufferDataWithPID) (s : ManagedSHM) : Z * ManagedSHM :=
  let off := shm_next s in
  (off, set_gpu (<[off := d]> (shm_gpu s)) (set_next (off + 1) s)).

(** Reading the descriptor at an offset; an offset at which no descriptor is
    alive reads as the zero descriptor. *)
Definition deref_gpu (s : ManagedSHM) (off : Z) : GpuBufferDataWithPID :=
  default (mkGpuBufferDataWithPID (mkGpuBufferData 0 0 0) 0) (shm_gpu s !! off).

(** [shm_->destroy_ptr] on a byte block or a descriptor. *)
Definition destroy_ptr (off : Z) (s : ManagedSHM) : ManagedSHM :=
  set_gpu (delete off (shm_gpu s)) (set_bytes (delete off (shm_bytes s)) s).

(** ** Cross-process reference counts *)

(** Modelled from the spec: [ReclaimerIPC::operator()], the deleter of the
    shared wrappers, which is declared in the header [MemoryPoolIPCHybrid.h]
    and is not among the sources.  On the last drop it pushes the offset back
    into [buffers[n]] of its pool; it never decrements [allocated] and never
    frees segment memory.  The source constructs it from the pool and the
    offset alone ([ReclaimerIPC(pool_, offset_ptr)]), so the size [n] is the
    one the registry [sizes] records for the offset; with no record the pool
    is left as it is. *)
Definition ReclaimerIPC (k : PoolId) (offset_ptr : Z) (s : ManagedSHM) : ManagedSHM :=
  let pool := get_pool k s in
  match sizes pool !! offset_ptr with
  | Some n =>
      let ptrlist := default [] (buffers pool !! n) in
      set_pool k (set_buffers (<[n := ptrlist ++ [offset_ptr]]> (buffers pool)) pool) s
  | None => s
  end.

(** Construction of a shared pointer from a raw pointer and a deleter: a new
    control block with use count one. *)
Definition sp_construct (k : PoolId) (offset_ptr : Z) (s : ManagedSHM) : SharedPtr * ManagedSHM :=
  let c := shm_next s in
  (sp_ref offset_ptr c,
   set_ctl (<[c := mkControlBlock 1 k offset_ptr]> (shm_ctl s)) (set_next (c + 1) s)).

(** Copy construction: one more owner. *)
Definition sp_copy (b : SharedPtr) (s : ManagedSHM) : ManagedSHM :=
  match b with
  | sp_null => s
  | sp_ref _ c =>
      match shm_ctl s !! c with
      | Some cb =>
          set_ctl (<[c := mkControlBlock (S (use_count cb)) (rc_pool cb) (rc_offset cb)]>
                     (shm_ctl s)) s
      | None => s
      end
  end.

(** Destruction: one owner less; the last owner runs the deleter and frees
    the control block. *)
Definition sp_release (b : SharedPtr) (s : ManagedSHM) : ManagedSHM :=
  match b with
  | sp_null => s
  | sp_ref _ c =>
      match shm_ctl s !! c with
      | Some cb =>
          match use_count cb with
          | S (S n) =>
              set_ctl (<[c := mkControlBlock (S n) (rc_pool cb) (rc_offset cb)]> (shm_ctl s)) s
          | _ => ReclaimerIPC (rc_pool cb) (rc_offset cb) (set_ctl (delete c (shm_ctl s)) s)
          end
      | None => s
      end
  end.

(** The use count a wrapper observes ([0] for the empty wrapper). *)
Definition sp_use_count (b : SharedPtr) (s : ManagedSHM) : nat :=
  match b with
  | sp_null => 0%nat
  | sp_ref _ c => from_option use_count 0%nat (shm_ctl s !! c)
  end.

(** ** The pool object of one process *)

(** The graphics utility: whether Vulkan is active, and the handles released
    through [free] so far. *)
Record VulkanUtil : Type := mkVulkanUtil { vk_active : bool; vk_freed : list Z }.

(** [vulkanUtil_->map(handle, n, memoryTypeIndex)] *)
Definition vk_map (h n memType : Z) : CpuBuffer := mkCpuBuffer (map_addr h) del_unmap.

(** [vulkanUtil_->free(handle)] *)
Definition vk_free (h : Z) (v : VulkanUtil) : VulkanUtil :=
  mkVulkanUtil (vk_active v) (vk_freed v ++ [h]).

Record MemoryPoolIPCHybrid : Type := mkMemoryPoolIPCHybrid {
  shmSize_ : Z;
  shmGPUSize_ : Z;
  memoryPool_ : Z;                        (* local fallback pool: next heap block *)
  ptrs_ : gmap ptr SharedPtr;
  handlesGPU_ : gmap Z SharedPtr;
  gpuMappedBuffers_ : gmap Z CpuBuffer;
  gpuHandleProcMap_ : gmap Z Z;
  activatedStreams_ : gmap string bool;
  vulkanUtil_ : VulkanUtil;
  force_clean_ : bool;
  stopSignal_ : bool;
  auditorThread_ : bool;                  (* the liveness thread is running *)
  ourPid : Z                              (* [getpid()] in the owning process *)
}.

Definition set_memoryPool (x : Z) (t : MemoryPoolIPCHybrid) : MemoryPoolIPCHybrid :=
  mkMemoryPoolIPCHybrid (shmSize_ t) (shmGPUSize_ t) x (ptrs_ t) (handlesGPU_ t)
    (gpuMappedBuffers_ t) (gpuHandleProcMap_ t) (activatedStreams_ t) (vulkanUtil_ t)
    (force_clean_ t) (stopSignal_ t) (auditorThread_ t) (ourPid t).

Definition set_ptrs (x : gmap ptr SharedPtr) (t : MemoryPoolIPCHybrid) : MemoryPoolIPCHybrid :=
  mkMemoryPoolIPCHybrid (shmSize_ t) (shmGPUSize_ t) (memoryPool_ t) x (handlesGPU_ t)
    (gpuMappedBuffers_ t) (gpuHandleProcMap_ t) (activatedStreams_ t) (vulkanUtil_ t)
    (force_clean_ t) (stopSignal_ t) (auditorThread_ t) (ourPid t).

Definition set_handlesGPU (x : gmap Z SharedPtr) (t : MemoryPoolIPCHybrid) : MemoryPoolIPCHybrid :=
  mkMemoryPoolIPCHybrid (shmSize_ t) (shmGPUSize_ t) (memoryPool_ t) (ptrs_ t) x
    (gpuMappedBuffers_ t) (gpuHandleProcMap_ t) (activatedStreams_ t) (vulkanUtil_ t)
    (force_clean_ t) (stopSignal_ t) (auditorThread_ t) (ourPid t).

Definition set_gpuMappedBuffers (x : gmap Z CpuBuffer) (t : MemoryPoolIPCHybrid) : MemoryPoolIPCHybrid :=
  mkMemoryPoolIPCHybrid (shmSize_ t) (shmGPUSize_ t) (memoryPool_ t) (ptrs_ t) (handlesGPU_ t)
    x (gpuHandleProcMap_ t) (activatedStreams_ t) (vulkanUtil_ t)
    (force_clean_ t) (stopSignal_ t) (auditorThread_ t) (ourPid t).

Definition set_gpuHandleProcMap (x : gmap Z Z) (t : MemoryPoolIPCHybrid) : MemoryPoolIPCHybrid :=
  mkMemoryPoolIPCHybrid (shmSize_ t) (shmGPUSize_ t) (memoryPool_ t) (ptrs_ t) (handlesGPU_ t)
    (gpuMappedBuffers_ t) x (activatedStreams_ t) (vulkanUtil_ t)
    (force_clean_ t) (stopSignal_ t) (auditorThread_ t) (ourPid t).

Definition set_activatedStreams (x : gmap string bool) (t : MemoryPoolIPCHybrid) : MemoryPoolIPCHybrid :=
  mkMemoryPoolIPCHybrid (shmSize_ t) (shmGPUSize_ t) (memoryPool_ t) (ptrs_ t) (handlesGPU_ t)
    (gpuMappedBuffers_ t) (gpuHandleProcMap_ t) x (vulkanUtil_ t)
    (force_clean_ t) (stopSignal_ t) (auditorThread_ t) (ourPid t).

Definition set_vulkanUtil (x : VulkanUtil) (t : MemoryPoolIPCHybrid) : MemoryPoolIPCHybrid :=
  mkMemoryPoolIPCHybrid (shmSize_ t) (shmGPUSize_ t) (memoryPool_ t) (ptrs_ t) (handlesGPU_ t)
    (gpuMappedBuffers_ t) (gpuHandleProcMap_ t) (activatedStreams_ t) x
    (force_clean_ t) (stopSignal_ t) (auditorThread_ t) (ourPid t).

Definition set_thread (stop running : bool) (t : MemoryPoolIPCHybrid) : MemoryPoolIPCHybrid :=
  mkMemoryPoolIPCHybrid (shmSize_ t) (shmGPUSize_ t) (memoryPool_ t) (ptrs_ t) (handlesGPU_ t)
    (gpuMappedBuffers_ t) (gpuHandleProcMap_ t) (activatedStreams_ t) (vulkanUtil_ t)
    (force_clean_ t) stop running (ourPid t).

(** The object together with the segment its [shm_] points to. *)
Record State : Type := mkState { shm_ : ManagedSHM; this : MemoryPoolIPCHybrid }.

(** How a call ends: it returns a result, or an exception leaves it.  Either
    way the state is the one the call leaves behind. *)
Inductive Outcome (A : Type) : Type :=
  | Returns (a : A) (st : State)
  | Throws (st : State).

Arguments Returns {A} a st.
Arguments Throws {A} st.

(** The result of a call that returned. *)
Definition returned {A : Type} (o : Outcome A) : option A :=
  match o with
  | Returns a _ => Some a
  | Throws _ => None
  end.

Definition state_after {A : Type} (o : Outcome A) : State :=
  match o with
  | Returns _ st => st
  | Throws st => st
  end.

Definition on_shm (f : ManagedSHM → ManagedSHM) (st : State) : State :=
  mkState (f (shm_ st)) (this st).

Definition on_this (f : MemoryPoolIPCHybrid → MemoryPoolIPCHybrid) (st : State) : State :=
  mkState (shm_ st) (f (this st)).

(** ** Auditing *)

Definition isValid (st : State) : bool := negb (invalid (shm_auditor (shm_ st))).

(** Modelled from the spec: [Process::isAlive], declared in a header that is
    not among the sources; it reports whether the owning PID still exists,
    here the answer [alive] of the operating system. *)
Definition isAlive (alive : Z → bool) (p : Process) : bool := alive (proc_pid p).

(** Modelled from the spec: [Process::isSelf], declared in a header that is
    not among the sources; it compares the stored PID to the current PID. *)
Definition isSelf (pid : Z) (p : Process) : bool := bool_decide (proc_pid p = pid).

Fixpoint processesAlive_loop (alive : Z → bool) (l : list Process) : bool :=
  match l with
  | [] => true
  | p :: l' => if negb (isAlive alive p) then false else processesAlive_loop alive l'
  end.

Definition processesAlive (alive : Z → bool) (st : State) : bool :=
  processesAlive_loop alive (processes (shm_auditor (shm_ st))).

Definition audit (alive : Z → bool) (st : State) : bool :=
  isValid st && processesAlive alive st.

Definition invalidate (st : State) : State :=
  on_shm (λ s, set_auditor (mkAuditorIPC (processes (shm_auditor s)) true) s) st.

(** The constructor.  [pid] is the PID of the constructing process, which the
    [Process] record of [emplace_back()] stores, and [vkActive] what its
    graphics utility reports; [force_clean_] is off until a test turns it
    on.  Of the liveness thread only the fact that it was started is kept:
    when its audit fails, its body hands the segment to [Framework::nuke],
    which is defined outside this file, before it calls [invalidate], so
    what an iteration leaves behind is not determined by the code at hand. *)
Definition MemoryPoolIPCHybrid_ctor (alive : Z → bool) (pid : Z) (vkActive : bool)
    (shm : ManagedSHM) (shmSize shmGPUSize : Z) (enableAuditor : bool) : State :=
  let st := mkState shm
    (mkMemoryPoolIPCHybrid shmSize shmGPUSize 0 ∅ ∅ ∅ ∅ ∅ (mkVulkanUtil vkActive [])
       false false false pid) in
  if audit alive st then
    let st1 := on_shm (λ s, set_auditor
      (mkAuditorIPC (processes (shm_auditor s) ++ [mkProcess pid]) (invalid (shm_auditor s))) s) st in
    if enableAuditor then on_this (set_thread false true) st1 else st1
  else invalidate st.

(** [MemoryPoolIPCHybrid::nuke(shm)]: the four named objects are destroyed,
    so that the next [find_or_construct] finds them as new; the anonymous
    objects of the segment are not touched.  The result is always [true]. *)
Definition nuke (shm : ManagedSHM) : bool * ManagedSHM :=
  let shm := set_pool CpuPool MemoryPoolIPC_new shm in
  let shm := set_pool GpuPool MemoryPoolIPC_new shm in
  let shm := set_pool GpuDeviceLocalPool MemoryPoolIPC_new shm in
  let shm := set_auditor (mkAuditorIPC [] false) shm in
  (true, shm).

(** ** The CPU pool *)

(** [m.emplace(k, v)]: inserts only where the key is absent. *)
Definition emplace `{Countable K} {V : Type} (k : K) (v : V) (m : gmap K V) : gmap K V :=
  match m !! k with
  | None => <[k := v]> m
  | Some _ => m
  end.

(** Modelled from the spec: [MemoryPool::request] of the local fallback pool
    ([MemoryPoolLocalImpl.h], not among the sources), a malloc wrapper: it
    returns a buffer in the local heap. *)
Definition memoryPool_request (nrBytes : Z) (st : State) : CpuBuffer * State :=
  let blk := memoryPool_ (this st) in
  (mkCpuBuffer (heap_addr blk) del_localPool, on_this (set_memoryPool (blk + 1)) st).

Section CpuPool.

(** The compile-time fraction of the segment that buffers may use; its
    definition is in the header [MemoryPoolIPCHybrid.h], which is not among
    the sources, so it is a parameter here (a [double] constant). *)
Variable MAX_SHM_USAGE_FRAC : spec_float.

(** [pool_->allocated + nrBytes < shmSize_ * MAX_SHM_USAGE_FRAC]: the sum is
    computed in [size_t], both sides are then compared as [double]. *)
Definition shm_budget_ok (allocated_ nrBytes shmSize : Z) : bool :=
  Double.ltb (Double.of_size_t (Size.add allocated_ nrBytes))
             (Double.mul (Double.of_size_t shmSize) MAX_SHM_USAGE_FRAC).

(** The tail of [requestSHM]: wrap the block in a shared pointer, record it
    in [ptrs_], release the construction-site wrapper, return the local
    handle. *)
Definition requestSHM_share (offset_ptr : Z) (p : ptr) (st : State) : CpuBuffer * State :=
  let '(buffer, s) := sp_construct CpuPool offset_ptr (shm_ st) in
  let '(ptrs, s) :=
    match ptrs_ (this st) !! p with
    | None => (<[p := buffer]> (ptrs_ (this st)), sp_copy buffer s)
    | Some _ => (ptrs_ (this st), s)
    end in
  let s := sp_release buffer s in
  (mkCpuBuffer p del_destroyLocal, mkState s (set_ptrs ptrs (this st))).

(** [requestSHM] in the runs in which the segment manager serves what the
    function asks of it (the byte block of line 322, the wrapper of line
    333), so that the call returns.  [requestSHM_outcome] below is the
    function with the runs that end in [bad_alloc]. *)
Definition requestSHM (nrBytes : Z) (st : State) : CpuBuffer * State :=
  (* Check to see if we already have a buffer of this size *)
  let pool := shm_pool (shm_ st) in
  let ptrlist := default [] (buffers pool !! nrBytes) in
  let '(offset_ptr, p, ptrlist) :=
    match last ptrlist with
    | Some back => (back, get_address_from_handle back, removelast ptrlist)
    | None => (0, nullptr, ptrlist)
    end in
  let st := on_shm (set_pool CpuPool (set_buffers (<[nrBytes := ptrlist]> (buffers pool)) pool)) st in
  (* Make a new buffer if needed *)
  match p with
  | nullptr =>
      let pool := shm_pool (shm_ st) in
      if shm_budget_ok (allocated pool) nrBytes (shmSize_ (this st)) then
        let '(offset_ptr, s) := place_bytes nrBytes (shm_ st) in
        let pool := mkMemoryPoolIPC (buffers pool) (emplace offset_ptr nrBytes (sizes pool))
                      (Size.add (allocated pool) nrBytes) in
        requestSHM_share offset_ptr (get_address_from_handle offset_ptr)
          (mkState (set_pool CpuPool pool s) (this st))
      else (CpuBuffer_empty, st)
  | _ => requestSHM_share offset_ptr p st
  end.

(** The tail of [requestSHM] with its exception: [wrapper] is the answer of
    the segment manager to the request for the memory of the [SharedPtrIPC]
    object ([shm_->construct<SharedPtrIPC>], line 333).  When it is not
    served the call throws before the wrapper exists and before [ptrs_] is
    touched. *)
Definition requestSHM_share_outcome (wrapper : bool) (offset_ptr : Z) (p : ptr) (st : State)
    : Outcome CpuBuffer :=
  if wrapper then
    let '(b, st) := requestSHM_share offset_ptr p st in Returns b st
  else Throws st.

(** [requestSHM] with the exceptions of the segment manager: [room] is its
    answer to the request for the byte block (line 322, asked only on a
    free-list miss within the budget), [wrapper] its answer to the request
    for the wrapper (line 333).  Nothing in [requestSHM] catches the
    exception: the scoped locks are released and what was done before the
    throw stays done.  What the shared containers and the shared pointer
    allocate inside their own code is taken to be served. *)
Definition requestSHM_outcome (room : Z) (wrapper : bool) (nrBytes : Z) (st : State)
    : Outcome CpuBuffer :=
  (* Check to see if we already have a buffer of this size *)
  let pool := shm_pool (shm_ st) in
  let ptrlist := default [] (buffers pool !! nrBytes) in
  let '(offset_ptr, p, ptrlist) :=
    match last ptrlist with
    | Some back => (back, get_address_from_handle back, removelast ptrlist)
    | None => (0, nullptr, ptrlist)
    end in
  let st := on_shm (set_pool CpuPool (set_buffers (<[nrBytes := ptrlist]> (buffers pool)) pool)) st in
  (* Make a new buffer if needed *)
  match p with
  | nullptr =>
      let pool := shm_pool (shm_ st) in
      if shm_budget_ok (allocated pool) nrBytes (shmSize_ (this st)) then
        match construct_bytes room nrBytes (shm_ st) with
        | Some (offset_ptr, s) =>
            let pool := mkMemoryPoolIPC (buffers pool) (emplace offset_ptr nrBytes (sizes pool))
                          (Size.add (allocated pool) nrBytes) in
            requestSHM_share_outcome wrapper offset_ptr (get_address_from_handle offset_ptr)
              (mkState (set_pool CpuPool pool s) (this st))
        | None => Throws st
        end
      else Returns CpuBuffer_empty st
  | _ => requestSHM_share_outcome wrapper offset_ptr p st
  end.

(** [destroyLocal(uint8_t* ptr)]: [ptrs_.erase(ptr)] destroys the wrapper
    stored there. *)
Definition destroyLocal (p : ptr) (st : State) : State :=
  match ptrs_ (this st) !! p with
  | Some buffer => mkState (sp_release buffer (shm_ st)) (set_ptrs (delete p (ptrs_ (this st))) (this st))
  | None => st
  end.

(** Destruction of the last copy of a local handle runs its deleter. *)
Definition CpuBuffer_drop (b : CpuBuffer) (st : State) : State :=
  match cb_del b with
  | del_destroyLocal => destroyLocal (cb_ptr b) st
  | _ => st
  end.

(** [createLocal(const SharedPtrIPC&)]: [ptrs_[pointer] = buffer] copies
    the wrapper into the slot and destroys what the slot held. *)
Definition createLocal (buffer : SharedPtr) (st : State) : CpuBuffer * State :=
  let pointer := sp_get buffer in
  let old := default sp_null (ptrs_ (this st) !! pointer) in
  let s := sp_release old (sp_copy buffer (shm_ st)) in
  (mkCpuBuffer pointer del_destroyLocal,
   mkState s (set_ptrs (<[pointer := buffer]> (ptrs_ (this st))) (this st))).

(** [convert(const CpuBuffer&)]: the wrapper is returned by value, which
    adds an owner. *)
Definition convert (b : CpuBuffer) (st : State) : SharedPtr * State :=
  match ptrs_ (this st) !! cb_ptr b with
  | Some w => (w, on_shm (sp_copy w) st)
  | None => (sp_null, st)
  end.

Definition activateStream (streamID : string) (active : bool) (st : State) : State :=
  on_this (set_activatedStreams (<[streamID := active]> (activatedStreams_ (this st)))) st.

Definition getBufferFromPool (id : string) (nrBytes : Z) (st : State) : CpuBuffer * State :=
  let absent := bool_decide (activatedStreams_ (this st) !! id = None) in
  if absent || (negb absent && default false (activatedStreams_ (this st) !! id)) then
    let '(shm, st1) := requestSHM nrBytes st in
    if cb_is_null shm then memoryPool_request nrBytes st1
    else (shm, st1)
  else memoryPool_request nrBytes st.

(** [return convert(requestSHM(nrBytes));] the temporary local buffer is
    destroyed once the result has been built. *)
Definition getBufferFromSharedPoolDirect (nrBytes : Z) (st : State) : SharedPtr * State :=
  let '(tmp, st) := requestSHM nrBytes st in
  let '(w, st) := convert tmp st in
  (w, CpuBuffer_drop tmp st).

End CpuPool.

(** ** The GPU pools *)

(** The scan of [findBuffer]: the first entry whose descriptor carries our
    PID, and the list with that entry erased. *)
Fixpoint findBuffer_scan (s : ManagedSHM) (pid : Z) (ptrlist : list Z) : option (Z * list Z) :=
  match ptrlist with
  | [] => None
  | it :: rest =>
      if bool_decide (second (deref_gpu s it) = pid) then Some (it, rest)
      else match findBuffer_scan s pid rest with
           | Some (found, rest') => Some (found, it :: rest')
           | None => None
           end
  end.

(** [findBuffer]: [Some (offset_ptr_out, ptr_out)] stands for [true] with the
    two out-parameters set, [None] for [false]. *)
Definition findBuffer (nrBytes : Z) (k : PoolId) (st : State) : option (Z * ptr) * State :=
  let pool := get_pool k (shm_ st) in
  let ptrlist := default [] (buffers pool !! nrBytes) in
  match findBuffer_scan (shm_ st) (ourPid (this st)) ptrlist with
  | Some (it, ptrlist') =>
      (Some (it, get_address_from_handle it),
       on_shm (set_pool k (set_buffers (<[nrBytes := ptrlist']> (buffers pool)) pool)) st)
  | None =>
      (None, on_shm (set_pool k (set_buffers (<[nrBytes := ptrlist]> (buffers pool)) pool)) st)
  end.

(** [m[k]] as an rvalue: inserts a default value where the key is absent. *)
Definition subscript `{Countable K} {V : Type} (d : V) (k : K) (m : gmap K V) : V * gmap K V :=
  match m !! k with
  | Some v => (v, m)
  | None => (d, <[k := d]> m)
  end.

(** The tail of [getGpuBufferFromPool]. *)
Definition getGpuBufferFromPool_share (k : PoolId) (offset_ptr : Z) (deviceLocal : bool)
    (st : State) : GpuBuffer * State :=
  let d := first (deref_gpu (shm_ st) offset_ptr) in
  let '(buffer, s) := sp_construct k offset_ptr (shm_ st) in
  let '(handles, s) :=
    match handlesGPU_ (this st) !! handle d with
    | None => (<[handle d := buffer]> (handlesGPU_ (this st)), sp_copy buffer s)
    | Some _ => (handlesGPU_ (this st), s)
    end in
  let s := sp_release buffer s in
  let t := set_handlesGPU handles (this st) in
  if deviceLocal then (mkGpuBuffer (Some d) gpu_destroyLocal CpuBuffer_empty, mkState s t)
  else
    let '(view, mapped) := subscript CpuBuffer_empty (handle d) (gpuMappedBuffers_ t) in
    (mkGpuBuffer (Some d) gpu_destroyLocal view, mkState s (set_gpuMappedBuffers mapped t)).

(** [getGpuBufferFromPool]; [vulkanAllocation] is what
    [vulkanUtil_->allocate] answers if it is called. *)
Definition getGpuBufferFromPool (vulkanAllocation : Z * Z) (nrBytes : Z) (deviceLocal : bool)
    (st : State) : GpuBuffer * State :=
  if negb (vk_active (vulkanUtil_ (this st))) then (GpuBuffer_empty, st)
  else
    let k := if deviceLocal then GpuDeviceLocalPool else GpuPool in
    match findBuffer nrBytes k st with
    | (Some (offset_ptr, _), st) => getGpuBufferFromPool_share k offset_ptr deviceLocal st
    | (None, st) =>
        let pool := get_pool k (shm_ st) in
        if Size.add (allocated pool) nrBytes <? shmGPUSize_ (this st) then
          if vulkanAllocation.1 =? 0 then (GpuBuffer_empty, st)
          else
            let t := set_gpuMappedBuffers
                       (<[vulkanAllocation.1 := vk_map vulkanAllocation.1 nrBytes vulkanAllocation.2]>
                          (gpuMappedBuffers_ (this st))) (this st) in
            let '(offset_ptr, s) :=
              construct_gpu (mkGpuBufferDataWithPID
                               (mkGpuBufferData vulkanAllocation.1 nrBytes vulkanAllocation.2)
                               (ourPid (this st))) (shm_ st) in
            let pool := mkMemoryPoolIPC (buffers pool) (emplace offset_ptr nrBytes (sizes pool))
                          (Size.add (allocated pool) nrBytes) in
            getGpuBufferFromPool_share k offset_ptr deviceLocal (mkState (set_pool k pool s) t)
        else (GpuBuffer_empty, st)
    end.

(** What the operating system answers to the duplication of a handle; the
    constructor also selects the branch of the [#ifdef _WIN32]. *)
Inductive HandleDup : Type :=
  | DuplicateHandle_result (dupResult : bool) (tempHandle : Z)   (* Windows *)
  | open_result (fd : Z).                                          (* POSIX: [-1] on failure *)

(** [createLocal(const SharedPtrGPUIPC&)] *)
Definition createLocal_gpu (os : HandleDup) (buffer : SharedPtr) (st : State) : GpuBuffer * State :=
  let pointer := deref_gpu (shm_ st) (get_handle_from_address (sp_get buffer)) in
  let h := handle (first pointer) in
  let dup : option Z :=
    match gpuHandleProcMap_ (this st) !! h with
    | None =>
        (* Clone the handle into our process *)
        match os with
        | DuplicateHandle_result dupResult tempHandle =>
            if negb dupResult then None else Some (Size.wrap tempHandle)
        | open_result fd => Some (Size.wrap fd)
        end
    | Some newHandle => Some newHandle
    end in
  match dup with
  | None => (GpuBuffer_empty, st)
  | Some newHandle =>
      let t := set_gpuHandleProcMap (<[h := newHandle]> (gpuHandleProcMap_ (this st))) (this st) in
      let old := default sp_null (handlesGPU_ t !! newHandle) in
      let s := sp_release old (sp_copy buffer (shm_ st)) in
      let t := set_handlesGPU (<[newHandle := buffer]> (handlesGPU_ t)) t in
      (* Map to the CPU in this process if we haven't seen this before *)
      let t :=
        match gpuMappedBuffers_ t !! newHandle with
        | None =>
            set_gpuMappedBuffers
              (<[newHandle := vk_map newHandle (size (first pointer)) (memoryTypeIndex (first pointer))]>
                 (gpuMappedBuffers_ t)) t
        | Some _ => t
        end in
      let '(view, mapped) := subscript CpuBuffer_empty newHandle (gpuMappedBuffers_ t) in
      (mkGpuBuffer
         (Some (mkGpuBufferData newHandle (size (first pointer)) (memoryTypeIndex (first pointer))))
         gpu_destroyLocal_delete view,
       mkState s (set_gpuMappedBuffers mapped t))
  end.

(** [destroyLocal(GpuBufferData* handlePtr)] *)
Definition destroyLocal_gpu (handlePtr : GpuBufferData) (st : State) : State :=
  match handlesGPU_ (this st) !! handle handlePtr with
  | Some buffer =>
      mkState (sp_release buffer (shm_ st))
        (set_handlesGPU (delete (handle handlePtr) (handlesGPU_ (this st))) (this st))
  | None => st
  end.

Definition GpuBuffer_drop (b : GpuBuffer) (st : State) : State :=
  match gb_del b, gb_data b with
  | (gpu_destroyLocal | gpu_destroyLocal_delete), Some d => destroyLocal_gpu d st
  | _, _ => st
  end.

(** [convert(const GpuBuffer&)]; the empty buffer, which the source would
    dereference, yields the empty wrapper. *)
Definition convert_gpu (b : GpuBuffer) (st : State) : SharedPtr * State :=
  match gb_data b with
  | Some d =>
      match handlesGPU_ (this st) !! handle d with
      | Some w => (w, on_shm (sp_copy w) st)
      | None => (sp_null, st)
      end
  | None => (sp_null, st)
  end.

Inductive AnyBuffer : Type :=
  | any_cpu (b : CpuBuffer)
  | any_gpu (b : GpuBuffer).

(** [isBufferFromPool]: the wrapper [convert] returns is tested and
    destroyed. *)
Definition isBufferFromPool (buf : AnyBuffer) (st : State) : bool * State :=
  let '(w, st) := match buf with
                  | any_cpu b => convert b st
                  | any_gpu b => convert_gpu b st
                  end in
  (sp_bool w, on_shm (sp_release w) st).

(** ** Detaching *)

(** [for (auto& size : pool->sizes) pool->allocated -= size.second;] *)
Definition subtract_sizes (pool : MemoryPoolIPC) : Z :=
  map_fold (λ _ n acc, Size.sub acc n) (allocated pool) (sizes pool).

(** The body of the inner loop of [cleanPool] for one free-list entry. *)
Definition cleanPool_entry (pid : Z) (acc : VulkanUtil * ManagedSHM) (buffer : Z)
    : VulkanUtil * ManagedSHM :=
  let data := deref_gpu acc.2 buffer in
  if bool_decide (second data = pid)
  then (vk_free (handle (first data)) acc.1, destroy_ptr buffer acc.2)
  else acc.

Definition cleanPool (k : PoolId) (clearAllocations : bool) (st : State) : State :=
  let pool := get_pool k (shm_ st) in
  let '(v, s) :=
    if vk_active (vulkanUtil_ (this st)) then
      map_fold (λ _ ptrlist acc, foldl (cleanPool_entry (ourPid (this st))) acc ptrlist)
        (vulkanUtil_ (this st), shm_ st) (buffers pool)
    else (vulkanUtil_ (this st), shm_ st) in
  let pool := set_buffers ∅ pool in
  let pool :=
    if clearAllocations then mkMemoryPoolIPC (buffers pool) ∅ (subtract_sizes pool) else pool in
  mkState (set_pool k pool s) (set_vulkanUtil v (this st)).

(** [processes.erase(it); break;] at the first record that is our own. *)
Fixpoint erase_self (pid : Z) (l : list Process) : list Process :=
  match l with
  | [] => []
  | p :: l' => if isSelf pid p then l' else p :: erase_self pid l'
  end.

(** Clearing a map of wrappers destroys every wrapper in it. *)
Definition release_all `{Countable K} (m : gmap K SharedPtr) (s : ManagedSHM) : ManagedSHM :=
  map_fold (λ _ w acc, sp_release w acc) s m.

(** The destructor. *)
Definition MemoryPoolIPCHybrid_dtor (st : State) : State :=
  (* ptrs_.clear() *)
  let st := mkState (release_all (ptrs_ (this st)) (shm_ st)) (set_ptrs ∅ (this st)) in
  (* Stop the auditing thread *)
  let st := on_this (set_thread true false) st in
  (* Deregister our own process from the auditor *)
  let procs := erase_self (ourPid (this st)) (processes (shm_auditor (shm_ st))) in
  let procs := if force_clean_ (this st) then [] else procs in
  let st := on_shm (λ s, set_auditor (mkAuditorIPC procs (invalid (shm_auditor s))) s) st in
  let st :=
    match procs with
    | [] =>
        let st := invalidate st in
        (* CPU Cleanup *)
        let pool := shm_pool (shm_ st) in
        let s := map_fold (λ _ ptrlist acc, foldl (λ acc' buffer, destroy_ptr buffer acc') acc ptrlist)
                   (shm_ st) (buffers pool) in
        mkState (set_pool CpuPool (mkMemoryPoolIPC ∅ ∅ (subtract_sizes pool)) s) (this st)
    | _ :: _ => st
    end in
  (* Release local GPU handle caches *)
  let st := mkState (release_all (handlesGPU_ (this st)) (shm_ st))
              (set_gpuMappedBuffers ∅ (set_handlesGPU ∅ (this st))) in
  (* Cleanup the GPU pools if we have any *)
  let clearAllocations := bool_decide (processes (shm_auditor (shm_ st)) = []) in
  let st := cleanPool GpuPool clearAllocations st in
  let st := cleanPool GpuDeviceLocalPool clearAllocations st in
  (* Delete any locally duplicated GPU handles *)
  on_this (λ t, set_vulkanUtil
                  (map_fold (λ _ newHandle v, vk_free newHandle v) (vulkanUtil_ t) (gpuHandleProcMap_ t)) t) st.

(** ** Predicates used in the statements *)

(** No operation but the destructor lets go of a CPU mapping of GPU memory
    or of a duplicated handle: the mapped handles stay mapped, the duplicated
    handles stay recorded, nothing is freed through the graphics utility. *)
Definition gpu_resources_kept (st st' : State) : Prop :=
  dom (gpuMappedBuffers_ (this st)) ⊆ dom (gpuMappedBuffers_ (this st')) ∧
  gpuHandleProcMap_ (this st) ⊆ gpuHandleProcMap_ (this st') ∧
  vulkanUtil_ (this st') = vulkanUtil_ (this st).

(** The state with the auditor's [invalid] flag forced to [b]. *)
Definition set_invalid (b : bool) (st : State) : State :=
  on_shm (λ s, set_auditor (mkAuditorIPC (processes (shm_auditor s)) b) s) st.

(** The [invalid] flag, once set, is still set afterwards. *)
Definition invalid_kept (st st' : State) : Prop :=
  invalid (shm_auditor (shm_ st)) = true → invalid (shm_auditor (shm_ st')) = true.

(** The stream gate of [getBufferFromPool]: the stream is absent from the
    activation table, or present and marked active. *)
Definition stream_shared (id : string) (st : State) : bool :=
  match activatedStreams_ (this st) !! id with
  | None => true
  | Some active => active
  end.

(** Every key of [ptrs_] is the raw address of the wrapper stored under it,
    hence an address in the segment (or null, for an empty wrapper). *)
Definition ptrs_in_segment (st : State) : Prop :=
  ∀ p w, ptrs_ (this st) !! p = Some w → p = sp_get w.

(** The state after the free-list phase of [requestSHM(n)] has stored the
    list [l'] back under [n] (the list without its last entry on a hit, the
    empty list on a miss). *)
Definition after_pop (n : Z) (l' : list Z) (st : State) : State :=
  on_shm (set_pool CpuPool
            (set_buffers (<[n := l']> (buffers (shm_pool (shm_ st)))) (shm_pool (shm_ st)))) st.

(** The state after the allocation phase of [requestSHM(n)] on a miss within
    the budget. *)
Definition after_alloc (n : Z) (st : State) : State :=
  let pool := shm_pool (shm_ st) in
  let off := shm_next (shm_ st) in
  mkState (set_pool CpuPool
             (mkMemoryPoolIPC (<[n := []]> (buffers pool)) (emplace off n (sizes pool))
                (Size.add (allocated pool) n))
             (set_bytes (<[off := n]> (shm_bytes (shm_ st))) (set_next (off + 1) (shm_ st))))
          (this st).

(** The invariant of the CPU pool the recycling claims rest on (invariant 2
    of the spec and the freshness of what the segment manager hands out):
    every offset on a free-list [buffers[m]] is registered with size [m], has
    no entry in [ptrs_] and was handed out by the segment manager; no
    free-list holds an offset twice; an offset the segment manager has not
    handed out yet is neither registered nor in [ptrs_]. *)
Definition pool_wf (st : State) : Prop :=
  let pool := shm_pool (shm_ st) in
  (∀ m off, off ∈ default [] (buffers pool !! m) →
            sizes pool !! off = Some m ∧
            ptrs_ (this st) !! shm_addr off = None ∧
            off < shm_next (shm_ st)) ∧
  (∀ m, NoDup (default [] (buffers pool !! m))) ∧
  (∀ off, shm_next (shm_ st) ≤ off →
          sizes pool !! off = None ∧ ptrs_ (this st) !! shm_addr off = None).

(** The offset about to be handed out: registered with size [n], unknown to
    [ptrs_], handed out by the segment manager and on no free-list. *)
Definition ready (n off : Z) (st : State) : Prop :=
  ptrs_ (this st) !! shm_addr off = None ∧
  sizes (shm_pool (shm_ st)) !! off = Some n ∧
  off < shm_next (shm_ st) ∧
  ∀ m, off ∉ default [] (buffers (shm_pool (shm_ st)) !! m).

(** A local buffer the process holds: its wrapper is the entry of [ptrs_]
    under its address and the only owner of the block, the block is
    registered and is on no free-list. *)
Definition held_ok (st : State) (b : CpuBuffer) : Prop :=
  ∃ off c n,
    b = mkCpuBuffer (shm_addr off) del_destroyLocal ∧
    ptrs_ (this st) !! shm_addr off = Some (sp_ref off c) ∧
    shm_ctl (shm_ st) !! c = Some (mkControlBlock 1 CpuPool off) ∧
    sizes (shm_pool (shm_ st)) !! off = Some n ∧
    off < shm_next (shm_ st) ∧ c < shm_next (shm_ st) ∧
    ∀ m, off ∉ default [] (buffers (shm_pool (shm_ st)) !! m).

(** The invariant of a process and the buffers it holds. *)
Definition pool_inv (cfg : State * list CpuBuffer) : Prop :=
  pool_wf cfg.1 ∧ Forall (held_ok cfg.1) cfg.2 ∧ NoDup (cb_ptr <$> cfg.2).

(** What a single process does with its CPU pool: it requests a buffer, or
    it drops the [i]-th of the buffers it holds. *)
Inductive Op : Type :=
  | op_request (n : Z)
  | op_drop (i : nat).

(** One step of a process and the buffers it holds; a request that fails adds
    no buffer, a drop of a buffer that is not held does nothing. *)
Definition step (FRAC : spec_float) (cfg : State * list CpuBuffer) (op : Op)
    : State * list CpuBuffer :=
  match op with
  | op_request n =>
      let '(b, st') := requestSHM FRAC n cfg.1 in
      (st', if cb_is_null b then cfg.2 else b :: cfg.2)
  | op_drop i =>
      match cfg.2 !! i with
      | Some b => (CpuBuffer_drop b cfg.1, delete i cfg.2)
      | None => cfg
      end
  end.

(** A run: the steps from left to right. *)
Definition run (FRAC : spec_float) (ops : list Op) (cfg : State * list CpuBuffer)
    : State * list CpuBuffer :=
  foldl (step FRAC) cfg ops.

(** No free-list holds an entry, and [ptrs_] has no entry for an address the
    segment manager has not handed out yet: the state of a pool whose
    buffers are all in use. *)
Definition free_lists_quiet (st : State) : Prop :=
  (∀ m, default [] (buffers (shm_pool (shm_ st)) !! m) = []) ∧
  (∀ off, shm_next (shm_ st) ≤ off → ptrs_ (this st) !! shm_addr off = None).

(** A sequence of requests, none of them dropped. *)
Fixpoint requestSHM_each (FRAC : spec_float) (ns : list Z) (st : State)
    : list CpuBuffer * State :=
  match ns with
  | [] => ([], st)
  | n :: ns' =>
      let '(b, st1) := requestSHM FRAC n st in
      let '(bs, st2) := requestSHM_each FRAC ns' st1 in
      (b :: bs, st2)
  end.

(** The bytes a sequence of requests asks for. *)
Definition total (ns : list Z) : Z := foldr Z.add 0 ns.

(** A request together with the answers the segment manager gives while it
    runs. *)
Record Ask : Type := mkAsk { ask_bytes : Z; ask_room : Z; ask_wrapper : bool }.

(** The segment manager serves everything the request asks of it. *)
Definition served (a : Ask) : Prop := ask_bytes a ≤ ask_room a ∧ ask_wrapper a = true.

(** A sequence of requests, none of the buffers dropped; it ends at the
    first exception. *)
Fixpoint requestSHM_seq (FRAC : spec_float) (asks : list Ask) (st : State)
    : Outcome (list CpuBuffer) :=
  match asks with
  | [] => Returns [] st
  | a :: asks' =>
      match requestSHM_outcome FRAC (ask_room a) (ask_wrapper a) (ask_bytes a) st with
      | Returns b st1 =>
          match requestSHM_seq FRAC asks' st1 with
          | Returns bs st2 => Returns (b :: bs) st2
          | Throws st2 => Throws st2
          end
      | Throws st1 => Throws st1
      end
  end.

(** The canonical mantissa and exponent of a positive integer below 2^53. *)
Definition small_mantissa (p : positive) : positive :=
  match (Zpos (digits2_pos p) - 53)%Z with
  | Zneg k => Pos.iter xO p k
  | _ => p
  end.

(** The records of the auditor that belong to the process [pid]. *)
Definition own_records (pid : Z) (l : list Process) : list Process :=
  filter (λ p, proc_pid p = pid) l.

(** The records of the auditor that belong to other processes. *)
Definition foreign_records (pid : Z) (l : list Process) : list Process :=
  filter (λ p, proc_pid p ≠ pid) l.

(** The offset is an entry of some free-list of the pool. *)
Definition on_free_list (pool : MemoryPoolIPC) (off : Z) : Prop :=
  ∃ n l, buffers pool !! n = Some l ∧ off ∈ l.

(** A free-list entry of the pool [k] whose descriptor is alive and carries
    the PID of the calling process. *)
Definition own_gpu_entry (k : PoolId) (st : State) (off : Z) (d : GpuBufferDataWithPID) : Prop :=
  on_free_list (get_pool k (shm_ st)) off ∧
  shm_gpu (shm_ st) !! off = Some d ∧ second d = ourPid (this st).

(** The handle that [createLocal(const SharedPtrGPUIPC&)] reads from the
    descriptor its argument points to. *)
Definition origin_handle (buffer : SharedPtr) (st : State) : Z :=
  handle (first (deref_gpu (shm_ st) (get_handle_from_address (sp_get buffer)))).

(** Every control block alive in the segment has at least one owner (a
    control block is freed when its last owner goes). *)
Definition ctl_positive (s : ManagedSHM) : Prop :=
  ∀ c cb, shm_ctl s !! c = Some cb → (0 < use_count cb)%nat.

(** The sum of the sizes the registry of a pool records. *)
Definition sum_sizes (m : gmap Z Z) : Z := map_fold (λ _ n acc, acc + n) 0 m.

(** The charge of a pool is the sum of the registered sizes, in [size_t]. *)
Definition accounted (pool : MemoryPoolIPC) : Prop :=
  allocated pool = Size.wrap (sum_sizes (sizes pool)).


(** ** Sample states *)

(** The double nearest to 0.9, the value the spec uses in its scenarios. *)
Definition frac_0_9 : spec_float := S754_finite false 8106479329266893 (-53).

(** A process with PID 100 attached alone to a new segment, with a CPU
    budget of 1 MiB and a GPU budget of 16 MiB. *)
Definition sample_attached : State :=
  MemoryPoolIPCHybrid_ctor (λ _, true) 100 true ManagedSHM_new 1048576 16777216 false.

(** The GPU descriptor a process with PID 7 exported, received by the sample
    process inside a shared wrapper. *)
Definition sample_remote_gpu : State :=
  on_shm (λ s, (sp_construct GpuPool 1
                  (set_next 2 (set_gpu {[1 := mkGpuBufferDataWithPID (mkGpuBufferData 33 4096 2) 7]} s))).2)
    sample_attached.

(** A second process (PID 200) attaches to the segment of the sample process
    after that one has died: the audit fails and the constructor invalidates
    the segment. *)
Definition sample_invalidated : State :=
  MemoryPoolIPCHybrid_ctor (λ pid, bool_decide (pid ≠ 100)) 200 true
    (shm_ sample_attached) 1048576 16777216 false.

(** A process attached alone with a CPU budget of 1024 bytes (the cap is
    921.6 bytes for the fraction 0.9) that holds one buffer of 512 bytes. *)
Definition sample_small_budget : State :=
  (requestSHM frac_0_9 512
     (MemoryPoolIPCHybrid_ctor (λ _, true) 100 true ManagedSHM_new 1024 16777216 false)).2.

(** The sample process holding one shared buffer of 256 bytes, after
    [activateStream("A", false)]. *)
Definition sample_gated : State :=
  activateStream "A" false (requestSHM frac_0_9 256 sample_attached).2.

(** The sample process holding two shared buffers of 4096 bytes (scenario S1
    of the spec): [a] at offset 1 and [b] at offset 3. *)
Definition sample_two_buffers : State :=
  (requestSHM frac_0_9 4096 (requestSHM frac_0_9 4096 sample_attached).2).2.

(** The sample process after it has dropped a buffer of 1024 bytes: offset 1
    is on the free-list of size 1024. *)
Definition sample_recycled : State :=
  CpuBuffer_drop (requestSHM frac_0_9 1024 sample_attached).1
                 (requestSHM frac_0_9 1024 sample_attached).2.

(** A process attached alone with a CPU budget of 10 bytes: the cap
    [10 * 0.9] is the double 9. *)
Definition sample_budget_10 : State :=
  MemoryPoolIPCHybrid_ctor (λ _, true) 100 true ManagedSHM_new 10 16777216 false.

(** A process attached alone with a CPU budget of 1024 bytes, the budget of
    scenario S2 of the spec: the cap [1024 * 0.9] is 921.6 bytes. *)
Definition sample_budget_1024 : State :=
  MemoryPoolIPCHybrid_ctor (λ _, true) 100 true ManagedSHM_new 1024 16777216 false.

(** A second process (PID 200) attached, with its liveness thread, to the
    segment of the sample process while that one is alive: both processes
    are registered. *)
Definition sample_two_attached : State :=
  MemoryPoolIPCHybrid_ctor (λ _, true) 200 true (shm_ sample_attached) 1048576 16777216 true.

(** The sample process holding one host-visible GPU buffer of 4096 bytes
    (Vulkan handle 33, memory type 2), and the state after it has dropped
    the buffer: the descriptor at offset 1 is on the free-list of size 4096
    of the pool [MemoryPoolGPU]. *)
Definition sample_gpu_held : GpuBuffer * State :=
  getGpuBufferFromPool (33, 2) 4096 false sample_attached.

Definition sample_gpu_recycled : State :=
  GpuBuffer_drop sample_gpu_held.1 sample_gpu_held.2.

(** The wrapper the sample process gets from
    [getBufferFromSharedPoolDirect(1024)], to be sent to another process,
    and the state after the call. *)
Definition sample_sent : SharedPtr * State :=
  getBufferFromSharedPoolDirect frac_0_9 1024 sample_attached.

(** * Properties *)

(** ** The scan of the GPU free-list *)

Lemma findBuffer_scan_Some s pid l off l' :
  findBuffer_scan s pid l = Some (off, l') →
  ∃ l1 l2, l = l1 ++ off :: l2 ∧ l' = l1 ++ l2 ∧
           Forall (λ o, second (deref_gpu s o) ≠ pid) l1 ∧
           second (deref_gpu s off) = pid.
Proof.
  revert l'. induction l as [|it rest IH]; intros l' Hscan; simpl in Hscan.
  - discriminate.
  - case_bool_decide as Hown.
    + injection Hscan as <- <-. exists [], rest. by repeat split.
    + destruct (findBuffer_scan s pid rest) as [[found rest']|] eqn:Hrest; [|discriminate].
      injection Hscan as <- <-.
      destruct (IH rest' eq_refl) as (l1 & l2 & -> & -> & Hforeign & Hfound).
      exists (it :: l1), l2. repeat split; [|done]. by constructor.
Qed.

Lemma findBuffer_scan_None s pid l :
  findBuffer_scan s pid l = None →
  Forall (λ o, second (deref_gpu s o) ≠ pid) l.
Proof.
  induction l as [|it rest IH]; simpl; intros Hscan; [constructor|].
  case_bool_decide as Hown; [discriminate|].
  destruct (findBuffer_scan s pid rest) as [[found rest']|]; [discriminate|].
  constructor; auto.
Qed.

Lemma findBuffer_scan_first s pid l1 off l2 :
  Forall (λ o, second (deref_gpu s o) ≠ pid) l1 →
  second (deref_gpu s off) = pid →
  findBuffer_scan s pid (l1 ++ off :: l2) = Some (off, l1 ++ l2).
Proof.
  intros Hforeign Hown. induction Hforeign as [|it l1 Hit _ IH]; simpl.
  - by rewrite bool_decide_eq_true_2.
  - by rewrite bool_decide_eq_false_2, IH.
Qed.

(** C7. [findBuffer(n, pool)] looks at the free-list [buffers[n]] (an empty
    list if the key is absent, which it then creates).  When it returns true,
    the entry it returns is the first one whose origin PID is the PID of the
    calling process: every entry before it is foreign, and exactly that entry
    has been removed from the free-list.  When it returns false, no entry of
    the list has the local PID (foreign entries may be present) and the
    free-list is stored back as it was.  Nothing else of the state changes. *)
Theorem findBuffer_first_local_entry (n : Z) (k : PoolId) (st : State) :
  let pool := get_pool k (shm_ st) in
  let ptrlist := default [] (buffers pool !! n) in
  let own (off : Z) := second (deref_gpu (shm_ st) off) = ourPid (this st) in
  let stored (l : list Z) :=
    on_shm (set_pool k (set_buffers (<[n := l]> (buffers pool)) pool)) st in
  match findBuffer n k st with
  | (Some (off, p), st') =>
      ∃ l1 l2, ptrlist = l1 ++ off :: l2 ∧ Forall (λ o, ¬ own o) l1 ∧ own off ∧
               p = get_address_from_handle off ∧ st' = stored (l1 ++ l2)
  | (None, st') => Forall (λ o, ¬ own o) ptrlist ∧ st' = stored ptrlist
  end.
Proof.
  intros pool ptrlist own stored. unfold findBuffer. fold pool. fold ptrlist.
  destruct (findBuffer_scan (shm_ st) (ourPid (this st)) ptrlist) as [[off l']|] eqn:Hscan.
  - apply findBuffer_scan_Some in Hscan as (l1 & l2 & Hl & -> & Hforeign & Hown).
    exists l1, l2. by repeat split.
  - apply findBuffer_scan_None in Hscan. by split.
Qed.

(** ** GPU handles: drops, duplication, detaching *)

Lemma destroyLocal_gpu_handles d st :
  handlesGPU_ (this (destroyLocal_gpu d st)) = delete (handle d) (handlesGPU_ (this st)).
Proof.
  unfold destroyLocal_gpu.
  destruct (handlesGPU_ (this st) !! handle d) eqn:Hd; [done|]. by rewrite delete_id.
Qed.

Lemma destroyLocal_gpu_frame d st :
  let t' := this (destroyLocal_gpu d st) in
  gpuMappedBuffers_ t' = gpuMappedBuffers_ (this st) ∧
  gpuHandleProcMap_ t' = gpuHandleProcMap_ (this st) ∧
  vulkanUtil_ t' = vulkanUtil_ (this st).
Proof. unfold destroyLocal_gpu. by destruct (handlesGPU_ (this st) !! handle d). Qed.

Lemma gpu_resources_kept_refl st : gpu_resources_kept st st.
Proof. by repeat split. Qed.

Lemma gpu_resources_kept_this (s s' : ManagedSHM) (t t' : MemoryPoolIPCHybrid) :
  gpuMappedBuffers_ t' = gpuMappedBuffers_ t →
  gpuHandleProcMap_ t' = gpuHandleProcMap_ t →
  vulkanUtil_ t' = vulkanUtil_ t →
  gpu_resources_kept (mkState s t) (mkState s' t').
Proof. intros Hm Hp Hv. unfold gpu_resources_kept; simpl. by rewrite Hm, Hp, Hv. Qed.

Lemma GpuBuffer_drop_kept b st : gpu_resources_kept st (GpuBuffer_drop b st).
Proof.
  unfold GpuBuffer_drop.
  destruct (gb_del b), (gb_data b) as [d|]; try apply gpu_resources_kept_refl;
    destruct (destroyLocal_gpu_frame d st) as (Hm & Hp & Hv);
    unfold gpu_resources_kept; by rewrite Hm, Hp, Hv.
Qed.

Lemma CpuBuffer_drop_kept b st : gpu_resources_kept st (CpuBuffer_drop b st).
Proof.
  unfold CpuBuffer_drop, destroyLocal.
  destruct (cb_del b); try apply gpu_resources_kept_refl.
  destruct (ptrs_ (this st) !! cb_ptr b); [|apply gpu_resources_kept_refl].
  destruct st as [s0 t0]. by apply gpu_resources_kept_this.
Qed.

Lemma subscript_dom `{Countable K} {V : Type} (d : V) (k : K) (m : gmap K V) :
  dom m ⊆ dom (subscript d k m).2.
Proof.
  unfold subscript. destruct (m !! k); simpl; [done|]. rewrite dom_insert. set_solver.
Qed.

Lemma getGpuBufferFromPool_share_kept k off dl st :
  gpu_resources_kept st (getGpuBufferFromPool_share k off dl st).2.
Proof.
  unfold getGpuBufferFromPool_share.
  destruct (sp_construct k off (shm_ st)) as [buffer s].
  destruct (handlesGPU_ (this st) !! _); destruct dl; simpl;
    try (destruct st; by apply gpu_resources_kept_this);
    match goal with |- context [subscript ?d ?h ?m] =>
      pose proof (subscript_dom d h m) as Hdom; destruct (subscript d h m) as [view mapped] end;
    by repeat split.
Qed.

Lemma findBuffer_this n k st : this (findBuffer n k st).2 = this st.
Proof. unfold findBuffer. by destruct (findBuffer_scan _ _ _) as [[? ?]|]. Qed.

Lemma getGpuBufferFromPool_kept alloc n dl st :
  gpu_resources_kept st (getGpuBufferFromPool alloc n dl st).2.
Proof.
  unfold getGpuBufferFromPool.
  destruct (negb _); [apply gpu_resources_kept_refl|].
  pose proof (findBuffer_this n (if dl then GpuDeviceLocalPool else GpuPool) st) as Hthis.
  destruct (findBuffer _ _ st) as [[[off p]|] st1]; simpl in Hthis.
  - destruct (getGpuBufferFromPool_share_kept (if dl then GpuDeviceLocalPool else GpuPool) off dl st1)
      as (Hm & Hp & Hv).
    unfold gpu_resources_kept. by rewrite <- Hthis.
  - assert (Hst1 : gpu_resources_kept st st1)
      by (unfold gpu_resources_kept; by rewrite Hthis).
    destruct (_ <? _); [|done]. destruct (_ =? _); [done|].
    destruct (construct_gpu _ _) as [off s].
    match goal with |- context [getGpuBufferFromPool_share ?k ?o ?d ?x] =>
      destruct (getGpuBufferFromPool_share_kept k o d x) as (Hm & Hp & Hv) end.
    simpl in Hm, Hp, Hv. unfold gpu_resources_kept. rewrite <- Hthis.
    split; [|by split].
    etrans; [|exact Hm]. rewrite dom_insert. set_solver.
Qed.

Lemma createLocal_gpu_kept os buffer st :
  gpu_resources_kept st (createLocal_gpu os buffer st).2.
Proof.
  unfold createLocal_gpu.
  set (h := handle (first (deref_gpu (shm_ st) (get_handle_from_address (sp_get buffer))))).
  set (sz := size _). set (mt := memoryTypeIndex _).
  assert (Hgen : ∀ newHandle,
    (gpuHandleProcMap_ (this st) !! h = None ∨ gpuHandleProcMap_ (this st) !! h = Some newHandle) →
    gpuHandleProcMap_ (this st) ⊆ <[h := newHandle]> (gpuHandleProcMap_ (this st))).
  { intros nh [Hnone|Hsome]; [by apply insert_subseteq|by rewrite insert_id]. }
  assert (Hdone : ∀ newHandle,
    (gpuHandleProcMap_ (this st) !! h = None ∨ gpuHandleProcMap_ (this st) !! h = Some newHandle) →
    gpu_resources_kept st
      (let t := set_gpuHandleProcMap (<[h := newHandle]> (gpuHandleProcMap_ (this st))) (this st) in
       let old := default sp_null (handlesGPU_ t !! newHandle) in
       let s := sp_release old (sp_copy buffer (shm_ st)) in
       let t := set_handlesGPU (<[newHandle := buffer]> (handlesGPU_ t)) t in
       let t := match gpuMappedBuffers_ t !! newHandle with
                | None => set_gpuMappedBuffers (<[newHandle := vk_map newHandle sz mt]> (gpuMappedBuffers_ t)) t
                | Some _ => t
                end in
       let '(view, mapped) := subscript CpuBuffer_empty newHandle (gpuMappedBuffers_ t) in
       (mkGpuBuffer (Some (mkGpuBufferData newHandle sz mt)) gpu_destroyLocal_delete view,
        mkState s (set_gpuMappedBuffers mapped t))).2).
  { intros nh Hnh. pose proof (Hgen nh Hnh) as Hsub. simpl.
    destruct (gpuMappedBuffers_ (this st) !! nh) eqn:Hmapped; simpl;
      unfold subscript; simpl.
    - rewrite Hmapped. by repeat split.
    - rewrite lookup_insert_eq. repeat split; simpl; [|done].
      rewrite dom_insert. apply union_subseteq_r. }
  destruct (gpuHandleProcMap_ (this st) !! h) as [nh|] eqn:Hh.
  - apply Hdone. by right.
  - destruct os as [[|] temp|fd]; simpl negb; cbv iota.
    + apply Hdone. by left.
    + apply gpu_resources_kept_refl.
    + apply Hdone. by left.
Qed.

Lemma cleanPool_this k c st :
  ∃ v, this (cleanPool k c st) = set_vulkanUtil v (this st) ∧
       vk_active v = vk_active (vulkanUtil_ (this st)) ∧
       ∀ h, h ∈ vk_freed (vulkanUtil_ (this st)) → h ∈ vk_freed v.
Proof.
  unfold cleanPool.
  destruct (vk_active (vulkanUtil_ (this st))) eqn:Hactive.
  - match goal with |- context [map_fold ?f ?b ?m] =>
      assert (Hfold : vk_active (map_fold f b m).1 = true ∧
                      ∀ h, h ∈ vk_freed (vulkanUtil_ (this st)) → h ∈ vk_freed (map_fold f b m).1);
      [|destruct (map_fold f b m) as [v s']] end.
    { apply (map_fold_weak_ind (λ (r : VulkanUtil * ManagedSHM) _,
               vk_active r.1 = true ∧
               ∀ h, h ∈ vk_freed (vulkanUtil_ (this st)) → h ∈ vk_freed r.1)).
      - by split.
      - intros _ ptrlist _ r _. revert r.
        induction ptrlist as [|buffer rest IH]; intros r Hr; simpl; [done|].
        apply IH. unfold cleanPool_entry.
        destruct (bool_decide _); [|done]. destruct Hr as [Hact Hr]. simpl. split; [done|].
        intros h Hh. apply elem_of_app. left. by apply Hr. }
    exists v. simpl in Hfold. destruct Hfold as [Hact Hfreed]. by repeat split.
  - exists (vulkanUtil_ (this st)). by repeat split.
Qed.

Lemma free_all_duplicates (m : gmap Z Z) (v : VulkanUtil) :
  ∀ h newHandle, m !! h = Some newHandle →
    newHandle ∈ vk_freed (map_fold (λ _ nh acc, vk_free nh acc) v m).
Proof.
  apply (map_fold_weak_ind (λ (r : VulkanUtil) (m' : gmap Z Z),
           ∀ h nh, m' !! h = Some nh → nh ∈ vk_freed r)).
  - intros h nh Hh. by rewrite lookup_empty in Hh.
  - intros i x m' r Hi IH h nh Hh. simpl. apply elem_of_app.
    destruct (decide (i = h)) as [->|Hne].
    + rewrite lookup_insert_eq in Hh. injection Hh as ->. right. by apply list_elem_of_singleton.
    + rewrite lookup_insert_ne in Hh by done. left. by eapply IH.
Qed.

Lemma dtor_gpu_caches st :
  let st' := MemoryPoolIPCHybrid_dtor st in
  handlesGPU_ (this st') = ∅ ∧
  gpuMappedBuffers_ (this st') = ∅ ∧
  ∀ h newHandle, gpuHandleProcMap_ (this st) !! h = Some newHandle →
                 newHandle ∈ vk_freed (vulkanUtil_ (this st')).
Proof.
  unfold MemoryPoolIPCHybrid_dtor. cbv zeta.
  match goal with |- context [cleanPool GpuDeviceLocalPool ?c (cleanPool GpuPool ?c' ?x)] =>
    destruct (cleanPool_this GpuPool c' x) as (v1 & Ht1 & _ & _);
    destruct (cleanPool_this GpuDeviceLocalPool c (cleanPool GpuPool c' x)) as (v2 & Ht2 & _ & _);
    assert (Hx : handlesGPU_ (this x) = ∅ ∧ gpuMappedBuffers_ (this x) = ∅ ∧
                 gpuHandleProcMap_ (this x) = gpuHandleProcMap_ (this st));
    [|generalize dependent (cleanPool GpuDeviceLocalPool c (cleanPool GpuPool c' x));
      generalize dependent (cleanPool GpuPool c' x); generalize dependent x]
  end.
  { by repeat split; simpl; destruct (if force_clean_ _ then _ else _). }
  intros x (Hh & Hm & Hp) y Hy z Hz. simpl. rewrite Hz, Hy. simpl.
  rewrite Hh, Hm, Hp. repeat split. apply free_all_duplicates.
Qed.

(** C9. Destroying a local GpuBuffer handle removes only the [handlesGPU_]
    entry for its handle: the CPU-side mappings in [gpuMappedBuffers_], the
    duplicated handles in [gpuHandleProcMap_] and the graphics utility are
    left as they are by every drop (of a CPU or a GPU buffer), and the calls
    that fill these caches ([getGpuBufferFromPool], the GPU [createLocal])
    never remove a mapping or a duplicated handle nor free one.  They are
    released in the destructor: it clears [handlesGPU_] and
    [gpuMappedBuffers_] and frees every duplicated handle of
    [gpuHandleProcMap_] through the graphics utility. *)
Theorem gpu_caches_released_only_by_dtor :
  (∀ d st,
     let st' := destroyLocal_gpu d st in
     handlesGPU_ (this st') = delete (handle d) (handlesGPU_ (this st)) ∧
     gpuMappedBuffers_ (this st') = gpuMappedBuffers_ (this st) ∧
     gpuHandleProcMap_ (this st') = gpuHandleProcMap_ (this st) ∧
     vulkanUtil_ (this st') = vulkanUtil_ (this st)) ∧
  (∀ b st, gpu_resources_kept st (GpuBuffer_drop b st)) ∧
  (∀ b st, gpu_resources_kept st (CpuBuffer_drop b st)) ∧
  (∀ alloc n deviceLocal st,
     gpu_resources_kept st (getGpuBufferFromPool alloc n deviceLocal st).2) ∧
  (∀ os buffer st, gpu_resources_kept st (createLocal_gpu os buffer st).2) ∧
  (∀ st,
     let st' := MemoryPoolIPCHybrid_dtor st in
     handlesGPU_ (this st') = ∅ ∧
     gpuMappedBuffers_ (this st') = ∅ ∧
     ∀ h newHandle, gpuHandleProcMap_ (this st) !! h = Some newHandle →
                    newHandle ∈ vk_freed (vulkanUtil_ (this st'))).
Proof.
  split; [|split; [|split; [|split; [|split]]]].
  - intros d st. split; [apply destroyLocal_gpu_handles|apply destroyLocal_gpu_frame].
  - apply GpuBuffer_drop_kept.
  - apply CpuBuffer_drop_kept.
  - apply getGpuBufferFromPool_kept.
  - apply createLocal_gpu_kept.
  - apply dtor_gpu_caches.
Qed.

(** C8 (the defect). The origin handle of the wrapper has not been
    duplicated into this process yet, and the duplication fails.  On the
    Windows path ([DuplicateHandle] answers false) [createLocal] returns the
    empty buffer and leaves the state as it was.  On the POSIX path the
    result of [open] is not checked: when [open] answers [-1] the wrapper is
    recorded in [handlesGPU_] under the handle [(uint64_t)-1], that value is
    cached as the duplicate of the origin handle, and the buffer returned is
    not empty. *)
Theorem createLocal_gpu_duplication_failure (buffer : SharedPtr) (st : State) :
  gpuHandleProcMap_ (this st)
    !! handle (first (deref_gpu (shm_ st) (get_handle_from_address (sp_get buffer)))) = None →
  (∀ tempHandle,
     createLocal_gpu (DuplicateHandle_result false tempHandle) buffer st = (GpuBuffer_empty, st)) ∧
  is_Some (gb_data (createLocal_gpu (open_result (-1)) buffer st).1) ∧
  handlesGPU_ (this (createLocal_gpu (open_result (-1)) buffer st).2) !! (2 ^ 64 - 1)
    = Some buffer ∧
  gpuHandleProcMap_ (this (createLocal_gpu (open_result (-1)) buffer st).2)
    !! handle (first (deref_gpu (shm_ st) (get_handle_from_address (sp_get buffer))))
    = Some (2 ^ 64 - 1).
Proof.
  intros Hnew. split.
  - intros tempHandle. unfold createLocal_gpu. by rewrite Hnew.
  - unfold createLocal_gpu. rewrite Hnew. cbv zeta.
    change (Size.wrap (-1)) with (2 ^ 64 - 1).
    match goal with |- context [subscript ?d ?h ?m] =>
      destruct (subscript d h m) as [view mapped] end.
    split; [by eexists|]. cbn [fst snd this].
    cbn [handlesGPU_ gpuHandleProcMap_ gpuMappedBuffers_
         set_gpuMappedBuffers set_handlesGPU set_gpuHandleProcMap].
    destruct (gpuMappedBuffers_ (this st) !! _);
      cbn [handlesGPU_ gpuHandleProcMap_ set_gpuMappedBuffers set_handlesGPU set_gpuHandleProcMap];
      split; apply lookup_insert_eq.
Qed.

(** The failing input: the wrapper of a descriptor that process 7 exported
    with handle 33 reaches the sample process, and the duplication fails.
    Windows: the empty buffer, nothing recorded.  POSIX: a buffer with handle
    [2^64 - 1], recorded in [handlesGPU_] and [gpuHandleProcMap_], and one
    more owner of the shared wrapper. *)
Lemma createLocal_gpu_duplication_failure_witness :
  gpuHandleProcMap_ (this sample_remote_gpu)
    !! handle (first (deref_gpu (shm_ sample_remote_gpu)
                        (get_handle_from_address (sp_get (sp_ref 1 2))))) = None ∧
  handle (first (deref_gpu (shm_ sample_remote_gpu) 1)) = 33 ∧
  createLocal_gpu (DuplicateHandle_result false 0) (sp_ref 1 2) sample_remote_gpu
    = (GpuBuffer_empty, sample_remote_gpu) ∧
  (createLocal_gpu (open_result (-1)) (sp_ref 1 2) sample_remote_gpu).1
    = mkGpuBuffer (Some (mkGpuBufferData 18446744073709551615 4096 2)) gpu_destroyLocal_delete
                  (vk_map 18446744073709551615 4096 2) ∧
  handlesGPU_ (this (createLocal_gpu (open_result (-1)) (sp_ref 1 2) sample_remote_gpu).2)
    !! (2 ^ 64 - 1) = Some (sp_ref 1 2) ∧
  gpuHandleProcMap_ (this (createLocal_gpu (open_result (-1)) (sp_ref 1 2) sample_remote_gpu).2)
    !! 33 = Some 18446744073709551615 ∧
  sp_use_count (sp_ref 1 2)
    (shm_ (createLocal_gpu (open_result (-1)) (sp_ref 1 2) sample_remote_gpu).2)
    = S (sp_use_count (sp_ref 1 2) (shm_ sample_remote_gpu)).
Proof.
  destruct (createLocal_gpu_duplication_failure (sp_ref 1 2) sample_remote_gpu eq_refl)
    as (Hwin & _ & Hrecorded & _).
  split; [reflexivity|]. split; [reflexivity|]. split; [exact (Hwin 0)|].
  split; [reflexivity|]. split; [exact Hrecorded|].
  vm_compute. by split.
Defined.

(** ** The CPU path and the auditor *)

Lemma ReclaimerIPC_set_auditor a k off s :
  ReclaimerIPC k off (set_auditor a s) = set_auditor a (ReclaimerIPC k off s).
Proof. unfold ReclaimerIPC. destruct k; simpl; by destruct (sizes _ !! off). Qed.

Lemma sp_release_set_auditor a w s :
  sp_release w (set_auditor a s) = set_auditor a (sp_release w s).
Proof.
  destruct w as [|o c]; [done|]. unfold sp_release. cbn [shm_ctl set_auditor].
  destruct (shm_ctl s !! c) as [[[|[|m]] k off]|]; try done;
    cbn [use_count rc_pool rc_offset]; by rewrite <- ReclaimerIPC_set_auditor.
Qed.

Lemma sp_copy_set_auditor a w s :
  sp_copy w (set_auditor a s) = set_auditor a (sp_copy w s).
Proof.
  destruct w as [|o c]; [done|]. unfold sp_copy. cbn [shm_ctl set_auditor].
  by destruct (shm_ctl s !! c).
Qed.

Lemma requestSHM_share_set_auditor a off p st :
  requestSHM_share off p (on_shm (set_auditor a) st) =
  ((requestSHM_share off p st).1, on_shm (set_auditor a) (requestSHM_share off p st).2).
Proof.
  unfold requestSHM_share, sp_construct, on_shm. cbn [shm_ this shm_next shm_ctl set_auditor].
  destruct (ptrs_ (this st) !! p); cbn [fst snd shm_ this].
  - f_equal. f_equal. by rewrite <- sp_release_set_auditor.
  - f_equal. f_equal. by rewrite <- sp_release_set_auditor, <- sp_copy_set_auditor.
Qed.

Lemma requestSHM_set_auditor FRAC a n st :
  requestSHM FRAC n (on_shm (set_auditor a) st) =
  ((requestSHM FRAC n st).1, on_shm (set_auditor a) (requestSHM FRAC n st).2).
Proof.
  unfold requestSHM. cbn [on_shm shm_ this shm_pool set_auditor].
  destruct (last _) as [back|].
  - apply (requestSHM_share_set_auditor a back (shm_addr back)
             (on_shm (set_pool CpuPool _) st)).
  - cbn [shm_ this on_shm set_pool shm_pool allocated set_buffers].
    destruct (shm_budget_ok _ _ _ _); [|done].
    unfold place_bytes.
    match goal with |- _ = (fst (requestSHM_share ?o ?q ?x), _) =>
      apply (requestSHM_share_set_auditor a o q x) end.
Qed.

Lemma set_own_auditor st : on_shm (set_auditor (shm_auditor (shm_ st))) st = st.
Proof. by destruct st as [[] ?]. Qed.

(** [requestSHM] leaves the auditor as it is. *)
Lemma requestSHM_auditor FRAC n st :
  shm_auditor (shm_ (requestSHM FRAC n st).2) = shm_auditor (shm_ st).
Proof.
  pose proof (requestSHM_set_auditor FRAC (shm_auditor (shm_ st)) n st) as Heq.
  rewrite set_own_auditor in Heq. apply (f_equal (λ r, shm_auditor (shm_ r.2))) in Heq.
  exact Heq.
Qed.

Lemma requestSHM_set_invalid FRAC n b st :
  requestSHM FRAC n (set_invalid b st) =
  ((requestSHM FRAC n st).1, set_invalid b (requestSHM FRAC n st).2).
Proof.
  unfold set_invalid at 1. unfold on_shm at 1.
  change (mkState (set_auditor ?a (shm_ st)) (this st)) with (on_shm (set_auditor a) st).
  rewrite requestSHM_set_auditor. unfold set_invalid. f_equal.
  unfold on_shm. by rewrite requestSHM_auditor.
Qed.

Lemma requestSHM_share_result off p st :
  (requestSHM_share off p st).1 = mkCpuBuffer p del_destroyLocal.
Proof.
  unfold requestSHM_share. destruct (sp_construct _ _ _) as [buffer s].
  by destruct (ptrs_ (this st) !! p).
Qed.

(** [requestSHM] returns the empty buffer or a buffer in the segment whose
    deleter is [destroyLocal]. *)
Lemma requestSHM_result FRAC n st :
  (requestSHM FRAC n st).1 = CpuBuffer_empty ∨
  ∃ off, (requestSHM FRAC n st).1 = mkCpuBuffer (shm_addr off) del_destroyLocal.
Proof.
  unfold requestSHM. destruct (last _) as [back|].
  - right. exists back. apply requestSHM_share_result.
  - cbn [shm_ this on_shm]. destruct (shm_budget_ok _ _ _ _); [|by left].
    right. unfold place_bytes. eexists. apply requestSHM_share_result.
Qed.

Lemma stream_gate_shared id st :
  (let absent := bool_decide (activatedStreams_ (this st) !! id = None) in
   absent || (negb absent && default false (activatedStreams_ (this st) !! id)))
  = stream_shared id st.
Proof. unfold stream_shared. by destruct (activatedStreams_ (this st) !! id) as [[]|]. Qed.

Lemma getBufferFromPool_cases FRAC id n st :
  getBufferFromPool FRAC id n st =
  if stream_shared id st then
    if cb_is_null (requestSHM FRAC n st).1
    then memoryPool_request n (requestSHM FRAC n st).2
    else requestSHM FRAC n st
  else memoryPool_request n st.
Proof.
  unfold getBufferFromPool. cbv zeta. rewrite stream_gate_shared.
  destruct (stream_shared id st); [|done]. by destruct (requestSHM FRAC n st) as [shm st1].
Qed.

Lemma memoryPool_request_set_invalid n b st :
  memoryPool_request n (set_invalid b st) =
  ((memoryPool_request n st).1, set_invalid b (memoryPool_request n st).2).
Proof. done. Qed.

Lemma getBufferFromPool_set_invalid FRAC id n b st :
  getBufferFromPool FRAC id n (set_invalid b st) =
  ((getBufferFromPool FRAC id n st).1, set_invalid b (getBufferFromPool FRAC id n st).2).
Proof.
  rewrite !getBufferFromPool_cases. change (stream_shared id (set_invalid b st)) with (stream_shared id st).
  destruct (stream_shared id st); [|apply memoryPool_request_set_invalid].
  rewrite requestSHM_set_invalid. cbn [fst snd].
  destruct (cb_is_null _); [apply memoryPool_request_set_invalid|done].
Qed.

(** C1 (amended). [requestSHM] and [getBufferFromPool] neither read nor
    write the auditor's [invalid] flag: for every size and stream ID they
    return the same buffer and change the pools in the same way whether the
    flag is set or not, and the flag is left as it was (once set it stays
    set).  The buffer of [getBufferFromPool] comes from the local fallback
    allocator exactly when the stream is marked inactive or [requestSHM]
    returns the empty handle. *)
Theorem pool_requests_ignore_invalid_flag
    (FRAC : spec_float) (id : string) (n : Z) (b : bool) (st : State) :
  requestSHM FRAC n (set_invalid b st) =
    ((requestSHM FRAC n st).1, set_invalid b (requestSHM FRAC n st).2) ∧
  getBufferFromPool FRAC id n (set_invalid b st) =
    ((getBufferFromPool FRAC id n st).1, set_invalid b (getBufferFromPool FRAC id n st).2) ∧
  invalid (shm_auditor (shm_ (getBufferFromPool FRAC id n st).2)) = invalid (shm_auditor (shm_ st)) ∧
  (cb_del (getBufferFromPool FRAC id n st).1 = del_localPool ↔
   stream_shared id st = false ∨ cb_is_null (requestSHM FRAC n st).1 = true).
Proof.
  split; [apply requestSHM_set_invalid|]. split; [apply getBufferFromPool_set_invalid|].
  rewrite getBufferFromPool_cases.
  pose proof (requestSHM_auditor FRAC n st) as Haud.
  destruct (stream_shared id st).
  - pose proof (requestSHM_result FRAC n st) as Hres.
    destruct (requestSHM FRAC n st) as [shm st1]. cbn [fst snd] in *.
    destruct Hres as [->|[off ->]]; cbn [cb_is_null CpuBuffer_empty cb_ptr cb_del fst snd].
    + split; [cbn [memoryPool_request snd on_this shm_]; by rewrite Haud|].
      split; [by right|done].
    + split; [by rewrite Haud|]. split; [discriminate|]. by intros [?|?].
  - split; [done|]. split; [by left|done].
Qed.

(** C1 (counterexample). The segment has been invalidated by the attach of
    process 200, yet [requestSHM] and [getBufferFromPool] hand out a buffer
    of the shared pool and charge it to [allocated]. *)
Lemma invalidated_segment_still_serves_shared :
  invalid (shm_auditor (shm_ sample_invalidated)) = true ∧
  (getBufferFromPool frac_0_9 "A" 512 sample_invalidated).1
    = mkCpuBuffer (shm_addr 1) del_destroyLocal ∧
  cb_is_null (requestSHM frac_0_9 512 sample_invalidated).1 = false ∧
  allocated (shm_pool (shm_ (getBufferFromPool frac_0_9 "A" 512 sample_invalidated).2)) = 512 ∧
  sizes (shm_pool (shm_ (getBufferFromPool frac_0_9 "A" 512 sample_invalidated).2)) !! 1 = Some 512 ∧
  (convert (getBufferFromPool frac_0_9 "A" 512 sample_invalidated).1
           (getBufferFromPool frac_0_9 "A" 512 sample_invalidated).2).1 = sp_ref 1 2.
Proof. vm_compute. by repeat split. Qed.

(** ** The stream gate *)

Lemma ptrs_in_segment_empty s t : ptrs_ t = ∅ → ptrs_in_segment (mkState s t).
Proof. intros Hempty p w Hp. simpl in Hp. by rewrite Hempty, lookup_empty in Hp. Qed.

Lemma requestSHM_share_ptrs off st :
  ptrs_ (this (requestSHM_share off (get_address_from_handle off) st).2) =
  match ptrs_ (this st) !! shm_addr off with
  | None => <[shm_addr off := sp_ref off (shm_next (shm_ st))]> (ptrs_ (this st))
  | Some _ => ptrs_ (this st)
  end.
Proof.
  unfold requestSHM_share, sp_construct, get_address_from_handle.
  by destruct (ptrs_ (this st) !! shm_addr off).
Qed.

Lemma requestSHM_share_in_segment off st :
  ptrs_in_segment st →
  ptrs_in_segment (requestSHM_share off (get_address_from_handle off) st).2.
Proof.
  intros Hst p w. rewrite requestSHM_share_ptrs.
  destruct (ptrs_ (this st) !! shm_addr off) eqn:Hoff; [apply Hst|].
  intros Hp. apply lookup_insert_Some in Hp as [[<- <-]|[_ Hp]]; [done|by apply Hst].
Qed.

Lemma requestSHM_in_segment FRAC n st :
  ptrs_in_segment st → ptrs_in_segment (requestSHM FRAC n st).2.
Proof.
  intros Hst. unfold requestSHM. destruct (last _) as [back|].
  - by apply requestSHM_share_in_segment.
  - cbn [shm_ this on_shm]. destruct (shm_budget_ok _ _ _ _); [|done].
    unfold place_bytes. by apply requestSHM_share_in_segment.
Qed.

Lemma createLocal_in_segment buffer st :
  ptrs_in_segment st → ptrs_in_segment (createLocal buffer st).2.
Proof.
  intros Hst p w Hp. unfold createLocal in Hp. cbn [snd this ptrs_ set_ptrs] in Hp.
  apply lookup_insert_Some in Hp as [[<- <-]|[_ Hp]]; [done|by apply Hst].
Qed.

Lemma destroyLocal_in_segment q st :
  ptrs_in_segment st → ptrs_in_segment (destroyLocal q st).
Proof.
  intros Hst p w. unfold destroyLocal. destruct (ptrs_ (this st) !! q); [|apply Hst].
  cbn [this ptrs_ set_ptrs]. intros Hp. apply lookup_delete_Some in Hp as [_ Hp]. by apply Hst.
Qed.

Lemma activateStream_in_segment id active st :
  ptrs_in_segment st → ptrs_in_segment (activateStream id active st).
Proof. intros Hst. exact Hst. Qed.

Lemma activateStream_shared id id' active st :
  stream_shared id' (activateStream id active st) =
  if decide (id = id') then active else stream_shared id' st.
Proof.
  unfold stream_shared, activateStream. cbn [this on_this activatedStreams_ set_activatedStreams].
  rewrite lookup_insert. by destruct (decide (id = id')).
Qed.

(** C6 (amended). [getBufferFromPool(streamId, n)] calls [requestSHM(n)]
    when the stream ID is absent from the activation table or present and
    marked active; it returns the buffer of [requestSHM] when that is
    non-empty and falls back to a local allocation when [requestSHM] returns
    the empty handle.  When the stream is present and marked inactive it
    returns a local allocation without calling [requestSHM] (the segment and
    [ptrs_] are left as they were), and [convert] of that buffer is empty.
    [activateStream(id, active)] sets exactly the bit of that stream. *)
Theorem getBufferFromPool_stream_gate
    (FRAC : spec_float) (id : string) (n : Z) (st : State) :
  ptrs_in_segment st →
  getBufferFromPool FRAC id n st =
    (if stream_shared id st then
       if cb_is_null (requestSHM FRAC n st).1
       then memoryPool_request n (requestSHM FRAC n st).2
       else requestSHM FRAC n st
     else memoryPool_request n st) ∧
  (stream_shared id st = false →
     shm_ (getBufferFromPool FRAC id n st).2 = shm_ st ∧
     ptrs_ (this (getBufferFromPool FRAC id n st).2) = ptrs_ (this st) ∧
     cb_del (getBufferFromPool FRAC id n st).1 = del_localPool ∧
     convert (getBufferFromPool FRAC id n st).1 (getBufferFromPool FRAC id n st).2
       = (sp_null, (getBufferFromPool FRAC id n st).2) ∧
     (isBufferFromPool (any_cpu (getBufferFromPool FRAC id n st).1)
                       (getBufferFromPool FRAC id n st).2).1 = false) ∧
  (∀ active,
     stream_shared id (activateStream id active st) = active ∧
     (∀ id', id' ≠ id →
        stream_shared id' (activateStream id active st) = stream_shared id' st) ∧
     activatedStreams_ (this (activateStream id active st))
       = <[id := active]> (activatedStreams_ (this st)) ∧
     shm_ (activateStream id active st) = shm_ st ∧
     ptrs_ (this (activateStream id active st)) = ptrs_ (this st)).
Proof.
  intros Hst. split; [apply getBufferFromPool_cases|]. split.
  - intros Hgate. rewrite getBufferFromPool_cases, Hgate.
    assert (Hconv : convert (memoryPool_request n st).1 (memoryPool_request n st).2
                    = (sp_null, (memoryPool_request n st).2)).
    { unfold convert, memoryPool_request. cbn [fst snd cb_ptr this on_this ptrs_ set_memoryPool].
      destruct (ptrs_ (this st) !! heap_addr (memoryPool_ (this st))) as [w|] eqn:Hheap; [|done].
      apply Hst in Hheap. by destruct w. }
    repeat split; try done. unfold isBufferFromPool. by rewrite Hconv.
  - intros active. rewrite activateStream_shared, decide_True by done.
    repeat split. intros id' Hne. rewrite activateStream_shared. by rewrite decide_False.
Qed.

Lemma sample_gated_in_segment : ptrs_in_segment sample_gated.
Proof.
  apply activateStream_in_segment, requestSHM_in_segment.
  by apply ptrs_in_segment_empty.
Qed.

(** The scenario S3 of the spec: with stream "A" deactivated the buffer is
    local and its [convert] is empty; once "A" is activated again the same
    call returns a shared buffer whose [convert] is not empty. *)
Lemma getBufferFromPool_stream_gate_witness :
  ptrs_in_segment sample_gated ∧
  stream_shared "A" sample_gated = false ∧
  (isBufferFromPool (any_cpu (getBufferFromPool frac_0_9 "A" 256 sample_gated).1)
                    (getBufferFromPool frac_0_9 "A" 256 sample_gated).2).1 = false ∧
  stream_shared "A" (activateStream "A" true sample_gated) = true ∧
  (convert (getBufferFromPool frac_0_9 "A" 256 (activateStream "A" true sample_gated)).1
           (getBufferFromPool frac_0_9 "A" 256 (activateStream "A" true sample_gated)).2).1
    = sp_ref 3 4.
Proof.
  split; [exact sample_gated_in_segment|].
  split; [reflexivity|].
  destruct (getBufferFromPool_stream_gate frac_0_9 "A" 256 sample_gated sample_gated_in_segment)
    as (_ & Hinactive & Hactivate).
  split; [exact (proj2 (proj2 (proj2 (proj2 (Hinactive eq_refl)))))|].
  split; [exact (proj1 (Hactivate true))|].
  vm_compute. reflexivity.
Defined.

(** C6 (counterexample). The stream "A" is absent from the activation table
    and the budget is exhausted: [requestSHM(512)] returns the empty handle,
    but [getBufferFromPool("A", 512)] returns a buffer of the local fallback
    pool, not what [requestSHM] returned. *)
Lemma getBufferFromPool_is_not_requestSHM_when_exhausted :
  stream_shared "A" sample_small_budget = true ∧
  (requestSHM frac_0_9 512 sample_small_budget).1 = CpuBuffer_empty ∧
  (getBufferFromPool frac_0_9 "A" 512 sample_small_budget).1
    = mkCpuBuffer (heap_addr 0) del_localPool ∧
  bool_decide ((getBufferFromPool frac_0_9 "A" 512 sample_small_budget).1
               = (requestSHM frac_0_9 512 sample_small_budget).1) = false.
Proof. vm_compute. by repeat split. Qed.

(** ** Reference counts *)

Lemma ReclaimerIPC_frame k off s :
  let s' := ReclaimerIPC k off s in
  (∀ k', allocated (get_pool k' s') = allocated (get_pool k' s) ∧
         sizes (get_pool k' s') = sizes (get_pool k' s)) ∧
  (∀ k', k' ≠ k → get_pool k' s' = get_pool k' s) ∧
  shm_auditor s' = shm_auditor s ∧ shm_next s' = shm_next s ∧
  shm_bytes s' = shm_bytes s ∧ shm_gpu s' = shm_gpu s ∧ shm_ctl s' = shm_ctl s.
Proof.
  unfold ReclaimerIPC. destruct (sizes (get_pool k s) !! off) as [n|]; [|done].
  repeat split; try by destruct k. 
  - by destruct k, k'.
  - by destruct k, k'.
  - intros k' Hne. by destruct k, k'.
Qed.

Lemma ReclaimerIPC_buffers k off n s :
  sizes (get_pool k s) !! off = Some n →
  buffers (get_pool k (ReclaimerIPC k off s)) =
  <[n := default [] (buffers (get_pool k s) !! n) ++ [off]]> (buffers (get_pool k s)).
Proof. intros Hn. unfold ReclaimerIPC. rewrite Hn. by destruct k. Qed.

Lemma sp_release_shared o c cb m s :
  shm_ctl s !! c = Some cb → use_count cb = S (S m) →
  sp_release (sp_ref o c) s =
  set_ctl (<[c := mkControlBlock (S m) (rc_pool cb) (rc_offset cb)]> (shm_ctl s)) s.
Proof. intros Hc Hm. unfold sp_release. by rewrite Hc, Hm. Qed.

Lemma sp_release_last o c cb s :
  shm_ctl s !! c = Some cb → (use_count cb ≤ 1)%nat →
  sp_release (sp_ref o c) s =
  ReclaimerIPC (rc_pool cb) (rc_offset cb) (set_ctl (delete c (shm_ctl s)) s).
Proof.
  intros Hc Hm. unfold sp_release. rewrite Hc.
  destruct (use_count cb) as [|[|m]]; [done|done|lia].
Qed.

(** Whatever a release does, it leaves the registry, the charge, the
    segment memory and the auditor alone. *)
Lemma sp_release_frame w s :
  let s' := sp_release w s in
  (∀ k, allocated (get_pool k s') = allocated (get_pool k s) ∧
        sizes (get_pool k s') = sizes (get_pool k s)) ∧
  shm_auditor s' = shm_auditor s ∧ shm_next s' = shm_next s ∧
  shm_bytes s' = shm_bytes s ∧ shm_gpu s' = shm_gpu s.
Proof.
  destruct w as [|o c]; [done|]. unfold sp_release.
  destruct (shm_ctl s !! c) as [cb|]; [|done].
  destruct (use_count cb) as [|[|m]]; try (by repeat split; try destruct k);
    destruct (ReclaimerIPC_frame (rc_pool cb) (rc_offset cb) (set_ctl (delete c (shm_ctl s)) s))
      as (Hpool & _ & Ha & Hn & Hb & Hg & _);
    (split; [intros k; destruct (Hpool k) as [-> ->]; by destruct k|]);
    by rewrite Ha, Hn, Hb, Hg.
Qed.

Lemma sp_release_ctl w s :
  shm_ctl (sp_release w s) =
  match w with
  | sp_null => shm_ctl s
  | sp_ref _ c =>
      match shm_ctl s !! c with
      | Some cb =>
          match use_count cb with
          | S (S m) => <[c := mkControlBlock (S m) (rc_pool cb) (rc_offset cb)]> (shm_ctl s)
          | _ => delete c (shm_ctl s)
          end
      | None => shm_ctl s
      end
  end.
Proof.
  destruct w as [|o c]; [done|]. unfold sp_release.
  destruct (shm_ctl s !! c) as [cb|]; [|done].
  destruct (use_count cb) as [|[|m]]; try done;
    by destruct (ReclaimerIPC_frame (rc_pool cb) (rc_offset cb) (set_ctl (delete c (shm_ctl s)) s))
      as (_ & _ & _ & _ & _ & _ & ->).
Qed.

(** A release takes exactly one from the use count of its wrapper and
    leaves every other control block as it is. *)
Lemma sp_release_use_count w s :
  sp_use_count w (sp_release w s) = pred (sp_use_count w s).
Proof.
  destruct w as [|o c]; [done|]. unfold sp_use_count. rewrite sp_release_ctl.
  destruct (shm_ctl s !! c) as [cb|] eqn:Hc; [|by rewrite Hc].
  destruct (use_count cb) as [|[|m]] eqn:Hm; simpl.
  - by rewrite lookup_delete_eq, Hm.
  - by rewrite lookup_delete_eq, Hm.
  - by rewrite lookup_insert_eq, Hm.
Qed.

Lemma sp_release_other w s c' :
  (∀ o, w ≠ sp_ref o c') → shm_ctl (sp_release w s) !! c' = shm_ctl s !! c'.
Proof.
  intros Hne. rewrite sp_release_ctl. destruct w as [|o c]; [done|].
  assert (c ≠ c') by (intros ->; by apply (Hne o)).
  destruct (shm_ctl s !! c) as [cb|]; [|done].
  destruct (use_count cb) as [|[|m]]; by rewrite ?lookup_delete_ne, ?lookup_insert_ne.
Qed.

Lemma sp_copy_frame w s :
  let s' := sp_copy w s in
  (∀ k, get_pool k s' = get_pool k s) ∧
  shm_auditor s' = shm_auditor s ∧ shm_next s' = shm_next s ∧
  shm_bytes s' = shm_bytes s ∧ shm_gpu s' = shm_gpu s.
Proof.
  destruct w as [|o c]; [done|]. unfold sp_copy.
  destruct (shm_ctl s !! c); [|done]. by repeat split.
Qed.

Lemma sp_copy_use_count w s :
  (0 < sp_use_count w s)%nat → sp_use_count w (sp_copy w s) = S (sp_use_count w s).
Proof.
  destruct w as [|o c]; simpl; [lia|]. unfold sp_copy.
  destruct (shm_ctl s !! c) as [cb|] eqn:Hc; simpl; [|lia].
  intros _. by rewrite lookup_insert_eq.
Qed.

(** ** Dropping a CPU buffer *)

Lemma destroyLocal_frame p st :
  let st' := destroyLocal p st in
  (∀ k, allocated (get_pool k (shm_ st')) = allocated (get_pool k (shm_ st)) ∧
        sizes (get_pool k (shm_ st')) = sizes (get_pool k (shm_ st))) ∧
  shm_auditor (shm_ st') = shm_auditor (shm_ st) ∧
  shm_next (shm_ st') = shm_next (shm_ st) ∧
  shm_bytes (shm_ st') = shm_bytes (shm_ st) ∧
  shm_gpu (shm_ st') = shm_gpu (shm_ st).
Proof.
  unfold destroyLocal. destruct (ptrs_ (this st) !! p) as [w|]; [|done].
  apply (sp_release_frame w (shm_ st)).
Qed.

Lemma CpuBuffer_drop_frame b st :
  let st' := CpuBuffer_drop b st in
  (∀ k, allocated (get_pool k (shm_ st')) = allocated (get_pool k (shm_ st)) ∧
        sizes (get_pool k (shm_ st')) = sizes (get_pool k (shm_ st))) ∧
  shm_auditor (shm_ st') = shm_auditor (shm_ st) ∧
  shm_next (shm_ st') = shm_next (shm_ st) ∧
  shm_bytes (shm_ st') = shm_bytes (shm_ st) ∧
  shm_gpu (shm_ st') = shm_gpu (shm_ st).
Proof.
  unfold CpuBuffer_drop. destruct (cb_del b); try done. apply destroyLocal_frame.
Qed.

Lemma CpuBuffer_drop_last b st o c off n :
  cb_del b = del_destroyLocal →
  ptrs_ (this st) !! cb_ptr b = Some (sp_ref o c) →
  shm_ctl (shm_ st) !! c = Some (mkControlBlock 1 CpuPool off) →
  sizes (shm_pool (shm_ st)) !! off = Some n →
  CpuBuffer_drop b st =
  mkState (ReclaimerIPC CpuPool off (set_ctl (delete c (shm_ctl (shm_ st))) (shm_ st)))
          (set_ptrs (delete (cb_ptr b) (ptrs_ (this st))) (this st)) ∧
  buffers (shm_pool (shm_ (CpuBuffer_drop b st))) =
    <[n := default [] (buffers (shm_pool (shm_ st)) !! n) ++ [off]]>
      (buffers (shm_pool (shm_ st))).
Proof.
  intros Hdel Hp Hc Hn. unfold CpuBuffer_drop, destroyLocal. rewrite Hdel, Hp.
  rewrite (sp_release_last o c _ _ Hc) by (simpl; lia). simpl rc_pool. simpl rc_offset.
  split; [done|]. cbn [shm_].
  apply (ReclaimerIPC_buffers CpuPool off n (set_ctl (delete c (shm_ctl (shm_ st))) (shm_ st))).
  exact Hn.
Qed.

(** C5. Dropping a local CPU buffer never changes [allocated] or [sizes] of
    any pool, nor the byte blocks and descriptors alive in the segment, nor
    the auditor.  When the drop is the last reference to a pooled buffer
    (its wrapper is in [ptrs_] and the control block has use count one), the
    reclaimer pushes the offset at the back of [buffers[n]] of the CPU pool,
    [n] being the size the registry records; the GPU pools are untouched, the
    local entry is erased and the control block is freed. *)
Theorem last_drop_only_pushes_free_list (b : CpuBuffer) (st : State) :
  (∀ k, allocated (get_pool k (shm_ (CpuBuffer_drop b st))) = allocated (get_pool k (shm_ st)) ∧
        sizes (get_pool k (shm_ (CpuBuffer_drop b st))) = sizes (get_pool k (shm_ st))) ∧
  shm_bytes (shm_ (CpuBuffer_drop b st)) = shm_bytes (shm_ st) ∧
  shm_gpu (shm_ (CpuBuffer_drop b st)) = shm_gpu (shm_ st) ∧
  shm_next (shm_ (CpuBuffer_drop b st)) = shm_next (shm_ st) ∧
  shm_auditor (shm_ (CpuBuffer_drop b st)) = shm_auditor (shm_ st) ∧
  (∀ o c off n,
     cb_del b = del_destroyLocal →
     ptrs_ (this st) !! cb_ptr b = Some (sp_ref o c) →
     shm_ctl (shm_ st) !! c = Some (mkControlBlock 1 CpuPool off) →
     sizes (shm_pool (shm_ st)) !! off = Some n →
     buffers (shm_pool (shm_ (CpuBuffer_drop b st))) =
       <[n := default [] (buffers (shm_pool (shm_ st)) !! n) ++ [off]]>
         (buffers (shm_pool (shm_ st))) ∧
     shm_poolGPU (shm_ (CpuBuffer_drop b st)) = shm_poolGPU (shm_ st) ∧
     shm_poolGPUDeviceLocal (shm_ (CpuBuffer_drop b st)) = shm_poolGPUDeviceLocal (shm_ st) ∧
     ptrs_ (this (CpuBuffer_drop b st)) = delete (cb_ptr b) (ptrs_ (this st)) ∧
     shm_ctl (shm_ (CpuBuffer_drop b st)) = delete c (shm_ctl (shm_ st))).
Proof.
  destruct (CpuBuffer_drop_frame b st) as (Hpool & Ha & Hn & Hb & Hg).
  repeat (split; [done|]).
  intros o c off n Hdel Hp Hc Hsz.
  destruct (CpuBuffer_drop_last b st o c off n Hdel Hp Hc Hsz) as [Heq Hbuf].
  split; [exact Hbuf|]. rewrite Heq. cbn [shm_ this ptrs_ set_ptrs].
  destruct (ReclaimerIPC_frame CpuPool off (set_ctl (delete c (shm_ctl (shm_ st))) (shm_ st)))
    as (_ & Hother & _ & _ & _ & _ & Hctl).
  split; [apply (Hother GpuPool); done|]. split; [apply (Hother GpuDeviceLocalPool); done|].
  split; [done|]. exact Hctl.
Qed.

(** Scenario S1 of the spec: after two allocations of 4096 bytes [allocated]
    is 8192; dropping both buffers leaves it at 8192 and [buffers[4096]]
    with two entries; the third allocation pops one of them and consumes no
    segment memory. *)
Lemma last_drop_only_pushes_free_list_witness :
  allocated (shm_pool (shm_ sample_two_buffers)) = 8192 ∧
  buffers (shm_pool (shm_ (CpuBuffer_drop (mkCpuBuffer (shm_addr 1) del_destroyLocal)
                             sample_two_buffers)))
    = <[4096 := [] ++ [1]]> (buffers (shm_pool (shm_ sample_two_buffers))) ∧
  allocated (shm_pool (shm_ (CpuBuffer_drop (mkCpuBuffer (shm_addr 3) del_destroyLocal)
                               (CpuBuffer_drop (mkCpuBuffer (shm_addr 1) del_destroyLocal)
                                  sample_two_buffers)))) = 8192 ∧
  buffers (shm_pool (shm_ (CpuBuffer_drop (mkCpuBuffer (shm_addr 3) del_destroyLocal)
                             (CpuBuffer_drop (mkCpuBuffer (shm_addr 1) del_destroyLocal)
                                sample_two_buffers)))) !! 4096 = Some [1; 3] ∧
  (let third := requestSHM frac_0_9 4096
                  (CpuBuffer_drop (mkCpuBuffer (shm_addr 3) del_destroyLocal)
                     (CpuBuffer_drop (mkCpuBuffer (shm_addr 1) del_destroyLocal)
                        sample_two_buffers)) in
   buffers (shm_pool (shm_ third.2)) !! 4096 = Some [1] ∧
   allocated (shm_pool (shm_ third.2)) = 8192 ∧
   shm_bytes (shm_ third.2) = shm_bytes (shm_ sample_two_buffers)).
Proof.
  split; [reflexivity|]. split.
  - apply (proj2 (proj2 (proj2 (proj2 (proj2
             (last_drop_only_pushes_free_list (mkCpuBuffer (shm_addr 1) del_destroyLocal)
                sample_two_buffers))))) 1 2 1 4096); reflexivity.
  - vm_compute. by repeat split.
Defined.

(** ** The three ways [requestSHM] can go *)

Lemma requestSHM_share_fresh off st :
  ptrs_ (this st) !! shm_addr off = None →
  requestSHM_share off (get_address_from_handle off) st =
  (mkCpuBuffer (shm_addr off) del_destroyLocal,
   mkState (set_ctl (<[shm_next (shm_ st) := mkControlBlock 1 CpuPool off]> (shm_ctl (shm_ st)))
              (set_next (shm_next (shm_ st) + 1) (shm_ st)))
           (set_ptrs (<[shm_addr off := sp_ref off (shm_next (shm_ st))]> (ptrs_ (this st)))
              (this st))).
Proof.
  intros Hfree. unfold requestSHM_share, sp_construct, get_address_from_handle.
  rewrite Hfree. unfold sp_copy. cbn [shm_ctl set_ctl]. rewrite lookup_insert_eq.
  cbn [use_count rc_pool rc_offset]. unfold sp_release. cbn [shm_ctl set_ctl].
  rewrite lookup_insert_eq. cbn [use_count rc_pool rc_offset].
  by rewrite !insert_insert_eq.
Qed.

Lemma requestSHM_cases FRAC n st :
  let pool := shm_pool (shm_ st) in
  let l := default [] (buffers pool !! n) in
  (∃ l' off, l = l' ++ [off] ∧
     requestSHM FRAC n st = requestSHM_share off (get_address_from_handle off) (after_pop n l' st)) ∨
  (l = [] ∧ shm_budget_ok FRAC (allocated pool) n (shmSize_ (this st)) = true ∧
     requestSHM FRAC n st =
       requestSHM_share (shm_next (shm_ st)) (get_address_from_handle (shm_next (shm_ st)))
         (after_alloc n st)) ∨
  (l = [] ∧ shm_budget_ok FRAC (allocated pool) n (shmSize_ (this st)) = false ∧
     requestSHM FRAC n st = (CpuBuffer_empty, after_pop n [] st)).
Proof.
  intros pool l. unfold requestSHM. fold pool. fold l.
  destruct (last l) as [back|] eqn:Hlast.
  - left. apply last_Some in Hlast as [l' ->]. exists l', back. split; [done|].
    by rewrite removelast_last.
  - apply last_None in Hlast. rewrite Hlast. right.
    cbn [shm_ this on_shm shm_pool set_pool allocated set_buffers buffers sizes].
    destruct (shm_budget_ok FRAC (allocated pool) n (shmSize_ (this st))); [left|right]; by repeat split.
Qed.

(** ** One cache entry, one decrement *)

Lemma createLocal_entry w st :
  ptrs_ (this (createLocal w st).2) !! cb_ptr (createLocal w st).1 = Some w.
Proof. unfold createLocal. cbn [fst snd this ptrs_ set_ptrs cb_ptr]. apply lookup_insert_eq. Qed.

Lemma requestSHM_share_entry off st :
  is_Some (ptrs_ (this (requestSHM_share off (get_address_from_handle off) st).2) !! shm_addr off).
Proof.
  rewrite requestSHM_share_ptrs.
  destruct (ptrs_ (this st) !! shm_addr off) eqn:Hp; [by rewrite Hp|].
  rewrite lookup_insert_eq. by eexists.
Qed.

Lemma requestSHM_entry FRAC n st :
  cb_is_null (requestSHM FRAC n st).1 = false →
  is_Some (ptrs_ (this (requestSHM FRAC n st).2) !! cb_ptr (requestSHM FRAC n st).1).
Proof.
  destruct (requestSHM_cases FRAC n st) as [(l' & off & _ & ->)|[(_ & _ & ->)|(_ & _ & ->)]];
    rewrite ?requestSHM_share_result; cbn [cb_ptr fst]; intros Hnull;
    try apply requestSHM_share_entry.
  discriminate Hnull.
Qed.

Lemma createLocal_gpu_entry os w st d :
  gb_data (createLocal_gpu os w st).1 = Some d →
  handlesGPU_ (this (createLocal_gpu os w st).2) !! handle d = Some w.
Proof.
  unfold createLocal_gpu.
  set (h := handle (first (deref_gpu (shm_ st) (get_handle_from_address (sp_get w))))).
  set (sz := size _). set (mt := memoryTypeIndex _).
  destruct (match gpuHandleProcMap_ (this st) !! h with
            | Some nh => Some nh
            | None => match os with
                      | DuplicateHandle_result r t => if negb r then None else Some (Size.wrap t)
                      | open_result fd => Some (Size.wrap fd)
                      end
            end) as [nh|]; [|discriminate].
  match goal with |- context [subscript ?x ?y ?m] => destruct (subscript x y m) as [view mapped] eqn:Hsub end.
  cbn [fst snd gb_data]. intros [= <-]. cbn [handle].
  destruct (gpuMappedBuffers_ _ !! nh); cbn [this handlesGPU_ set_gpuMappedBuffers set_handlesGPU];
    apply lookup_insert_eq.
Qed.

Lemma getGpuBufferFromPool_share_entry k off dl st d :
  gb_data (getGpuBufferFromPool_share k off dl st).1 = Some d →
  is_Some (handlesGPU_ (this (getGpuBufferFromPool_share k off dl st).2) !! handle d).
Proof.
  unfold getGpuBufferFromPool_share.
  destruct (sp_construct k off (shm_ st)) as [buffer s].
  set (d0 := first (deref_gpu (shm_ st) off)).
  destruct (handlesGPU_ (this st) !! handle d0) as [w0|] eqn:Hh; destruct dl;
    try (match goal with |- context [subscript ?x ?y ?m] => destruct (subscript x y m) as [view mapped] end);
    cbn [fst snd gb_data this handlesGPU_ set_handlesGPU set_gpuMappedBuffers];
    intros [= <-]; rewrite ?Hh, ?lookup_insert_eq; by eexists.
Qed.

Lemma getGpuBufferFromPool_entry alloc n dl st d :
  gb_data (getGpuBufferFromPool alloc n dl st).1 = Some d →
  is_Some (handlesGPU_ (this (getGpuBufferFromPool alloc n dl st).2) !! handle d).
Proof.
  unfold getGpuBufferFromPool. destruct (negb _); [discriminate|].
  destruct (findBuffer _ _ st) as [[[off p]|] st1].
  - apply getGpuBufferFromPool_share_entry.
  - destruct (_ <? _); [|discriminate]. destruct (_ =? _); [discriminate|].
    destruct (construct_gpu _ _) as [off s]. apply getGpuBufferFromPool_share_entry.
Qed.

Lemma destroyLocal_decrements p st :
  match ptrs_ (this st) !! p with
  | Some w =>
      ptrs_ (this (destroyLocal p st)) = delete p (ptrs_ (this st)) ∧
      sp_use_count w (shm_ (destroyLocal p st)) = pred (sp_use_count w (shm_ st)) ∧
      ∀ c', (∀ o, w ≠ sp_ref o c') →
            shm_ctl (shm_ (destroyLocal p st)) !! c' = shm_ctl (shm_ st) !! c'
  | None => destroyLocal p st = st
  end.
Proof.
  unfold destroyLocal. destruct (ptrs_ (this st) !! p) as [w|]; [|done].
  cbn [shm_ this ptrs_ set_ptrs]. split; [done|]. split; [apply sp_release_use_count|].
  intros c' Hne. by apply sp_release_other.
Qed.

Lemma destroyLocal_gpu_decrements d st :
  match handlesGPU_ (this st) !! handle d with
  | Some w =>
      handlesGPU_ (this (destroyLocal_gpu d st)) = delete (handle d) (handlesGPU_ (this st)) ∧
      sp_use_count w (shm_ (destroyLocal_gpu d st)) = pred (sp_use_count w (shm_ st)) ∧
      ∀ c', (∀ o, w ≠ sp_ref o c') →
            shm_ctl (shm_ (destroyLocal_gpu d st)) !! c' = shm_ctl (shm_ st) !! c'
  | None => destroyLocal_gpu d st = st
  end.
Proof.
  unfold destroyLocal_gpu. destruct (handlesGPU_ (this st) !! handle d) as [w|]; [|done].
  cbn [shm_ this handlesGPU_ set_handlesGPU]. split; [done|]. split; [apply sp_release_use_count|].
  intros c' Hne. by apply sp_release_other.
Qed.

Lemma createLocal_single w st :
  ptrs_ (this st) !! sp_get w = None →
  (0 < sp_use_count w (shm_ st))%nat →
  sp_use_count w (shm_ (createLocal w st).2) = S (sp_use_count w (shm_ st)) ∧
  sp_use_count w (shm_ (CpuBuffer_drop (createLocal w st).1 (createLocal w st).2))
    = sp_use_count w (shm_ st) ∧
  ptrs_ (this (CpuBuffer_drop (createLocal w st).1 (createLocal w st).2)) !! sp_get w = None.
Proof.
  intros Hfree Hlive.
  assert (Hcount : sp_use_count w (shm_ (createLocal w st).2) = S (sp_use_count w (shm_ st))).
  { unfold createLocal. rewrite Hfree. cbn [snd shm_ default sp_release].
    by apply sp_copy_use_count. }
  split; [exact Hcount|].
  pose proof (destroyLocal_decrements (sp_get w) (createLocal w st).2) as Hdrop.
  pose proof (createLocal_entry w st) as Hentry.
  change (cb_ptr (createLocal w st).1) with (sp_get w) in Hentry. rewrite Hentry in Hdrop.
  destruct Hdrop as (Hptrs & Hdec & _).
  change (CpuBuffer_drop (createLocal w st).1 (createLocal w st).2)
    with (destroyLocal (sp_get w) (createLocal w st).2).
  split; [by rewrite Hdec, Hcount|]. by rewrite Hptrs, lookup_delete_eq.
Qed.

Lemma createLocal_gpu_single os w st d :
  gb_data (createLocal_gpu os w st).1 = Some d →
  handlesGPU_ (this st) !! handle d = None →
  (0 < sp_use_count w (shm_ st))%nat →
  sp_use_count w (shm_ (createLocal_gpu os w st).2) = S (sp_use_count w (shm_ st)) ∧
  sp_use_count w (shm_ (GpuBuffer_drop (createLocal_gpu os w st).1 (createLocal_gpu os w st).2))
    = sp_use_count w (shm_ st) ∧
  handlesGPU_ (this (GpuBuffer_drop (createLocal_gpu os w st).1 (createLocal_gpu os w st).2))
    !! handle d = None.
Proof.
  intros Hd Hfree Hlive.
  pose proof (createLocal_gpu_entry os w st d Hd) as Hentry.
  assert (Hdrop : GpuBuffer_drop (createLocal_gpu os w st).1 (createLocal_gpu os w st).2
                  = destroyLocal_gpu d (createLocal_gpu os w st).2).
  { unfold GpuBuffer_drop. rewrite Hd. revert Hd. unfold createLocal_gpu.
    destruct (match gpuHandleProcMap_ (this st) !! _ with Some nh => Some nh | None => _ end);
      [|discriminate].
    by match goal with |- context [subscript ?x ?y ?m] => destruct (subscript x y m) end. }
  assert (Hcount : sp_use_count w (shm_ (createLocal_gpu os w st).2) = S (sp_use_count w (shm_ st))).
  { revert Hd. unfold createLocal_gpu.
    destruct (match gpuHandleProcMap_ (this st) !! _ with Some nh => Some nh | None => _ end)
      as [nh|]; [|discriminate].
    match goal with |- context [subscript ?x ?y ?m] => destruct (subscript x y m) as [view mapped] end.
    cbn [fst snd gb_data shm_]. intros [= <-]. cbn [handle] in Hfree.
    cbn [handlesGPU_ set_gpuHandleProcMap]. rewrite Hfree. cbn [default sp_release].
    by apply sp_copy_use_count. }
  split; [exact Hcount|]. rewrite Hdrop.
  pose proof (destroyLocal_gpu_decrements d (createLocal_gpu os w st).2) as Hdec.
  rewrite Hentry in Hdec. destruct Hdec as (Hhandles & Hdec & _).
  split; [by rewrite Hdec, Hcount|]. by rewrite Hhandles, lookup_delete_eq.
Qed.

Lemma requestSHM_single FRAC n st :
  cb_is_null (requestSHM FRAC n st).1 = false →
  ptrs_ (this st) !! cb_ptr (requestSHM FRAC n st).1 = None →
  ∃ w, ptrs_ (this (requestSHM FRAC n st).2) !! cb_ptr (requestSHM FRAC n st).1 = Some w ∧
       sp_use_count w (shm_ (requestSHM FRAC n st).2) = 1%nat ∧
       sp_use_count w (shm_ (CpuBuffer_drop (requestSHM FRAC n st).1 (requestSHM FRAC n st).2))
         = 0%nat ∧
       ptrs_ (this (CpuBuffer_drop (requestSHM FRAC n st).1 (requestSHM FRAC n st).2))
         !! cb_ptr (requestSHM FRAC n st).1 = None.
Proof.
  assert (Hshare : ∀ off st0,
    ptrs_ (this st0) !! shm_addr off = None →
    let r := requestSHM_share off (get_address_from_handle off) st0 in
    ∃ w, ptrs_ (this r.2) !! cb_ptr r.1 = Some w ∧
         sp_use_count w (shm_ r.2) = 1%nat ∧
         sp_use_count w (shm_ (CpuBuffer_drop r.1 r.2)) = 0%nat ∧
         ptrs_ (this (CpuBuffer_drop r.1 r.2)) !! cb_ptr r.1 = None).
  { intros off st0 Hfree r. subst r. rewrite (requestSHM_share_fresh off st0 Hfree).
    cbn [fst snd cb_ptr]. exists (sp_ref off (shm_next (shm_ st0))).
    set (st1 := mkState _ _).
    assert (Hentry : ptrs_ (this st1) !! shm_addr off = Some (sp_ref off (shm_next (shm_ st0))))
      by apply lookup_insert_eq.
    assert (Hone : sp_use_count (sp_ref off (shm_next (shm_ st0))) (shm_ st1) = 1%nat).
    { cbn [sp_use_count st1 shm_ shm_ctl set_ctl]. by rewrite lookup_insert_eq. }
    pose proof (destroyLocal_decrements (shm_addr off) st1) as Hdec. rewrite Hentry in Hdec.
    destruct Hdec as (Hptrs & Hdec & _).
    change (CpuBuffer_drop _ st1) with (destroyLocal (shm_addr off) st1).
    repeat split; [done|done|by rewrite Hdec, Hone|by rewrite Hptrs, lookup_delete_eq]. }
  destruct (requestSHM_cases FRAC n st) as [(l' & off & _ & ->)|[(_ & _ & ->)|(_ & _ & ->)]].
  - rewrite requestSHM_share_result. cbn [fst cb_ptr]. intros _ Hfree.
    pose proof (Hshare off (after_pop n l' st) Hfree) as Hres.
    cbv zeta in Hres. by rewrite requestSHM_share_result in Hres.
  - rewrite requestSHM_share_result. cbn [fst cb_ptr]. intros _ Hfree.
    pose proof (Hshare (shm_next (shm_ st)) (after_alloc n st) Hfree) as Hres.
    cbv zeta in Hres. by rewrite requestSHM_share_result in Hres.
  - discriminate.
Qed.

(** C3 (amended). Every call that hands out a local buffer leaves exactly
    one entry under the buffer's key in the local handle cache ([ptrs_] by
    raw address for [createLocal] and [requestSHM], [handlesGPU_] by handle
    for the GPU [createLocal] and [getGpuBufferFromPool]).  Destroying a
    local handle erases the entry under its key and takes exactly one from
    the use count of the wrapper stored there, leaving every other control
    block alone; with no entry under the key it changes nothing.  Hence a
    buffer that is the only local handle created for its key adds one to the
    shared count when it is created from a wrapper and gives exactly that one
    back when it is destroyed; a buffer of [requestSHM] holds the only
    reference and its destruction brings the count to zero. *)
Theorem local_handle_cache_single_decrement :
  (∀ w st, ptrs_ (this (createLocal w st).2) !! cb_ptr (createLocal w st).1 = Some w) ∧
  (∀ FRAC n st,
     cb_is_null (requestSHM FRAC n st).1 = false →
     is_Some (ptrs_ (this (requestSHM FRAC n st).2) !! cb_ptr (requestSHM FRAC n st).1)) ∧
  (∀ os w st d,
     gb_data (createLocal_gpu os w st).1 = Some d →
     handlesGPU_ (this (createLocal_gpu os w st).2) !! handle d = Some w) ∧
  (∀ alloc n deviceLocal st d,
     gb_data (getGpuBufferFromPool alloc n deviceLocal st).1 = Some d →
     is_Some (handlesGPU_ (this (getGpuBufferFromPool alloc n deviceLocal st).2) !! handle d)) ∧
  (∀ p st,
     match ptrs_ (this st) !! p with
     | Some w =>
         ptrs_ (this (destroyLocal p st)) = delete p (ptrs_ (this st)) ∧
         sp_use_count w (shm_ (destroyLocal p st)) = pred (sp_use_count w (shm_ st)) ∧
         ∀ c', (∀ o, w ≠ sp_ref o c') →
               shm_ctl (shm_ (destroyLocal p st)) !! c' = shm_ctl (shm_ st) !! c'
     | None => destroyLocal p st = st
     end) ∧
  (∀ d st,
     match handlesGPU_ (this st) !! handle d with
     | Some w =>
         handlesGPU_ (this (destroyLocal_gpu d st)) = delete (handle d) (handlesGPU_ (this st)) ∧
         sp_use_count w (shm_ (destroyLocal_gpu d st)) = pred (sp_use_count w (shm_ st)) ∧
         ∀ c', (∀ o, w ≠ sp_ref o c') →
               shm_ctl (shm_ (destroyLocal_gpu d st)) !! c' = shm_ctl (shm_ st) !! c'
     | None => destroyLocal_gpu d st = st
     end) ∧
  (∀ w st,
     ptrs_ (this st) !! sp_get w = None →
     (0 < sp_use_count w (shm_ st))%nat →
     sp_use_count w (shm_ (createLocal w st).2) = S (sp_use_count w (shm_ st)) ∧
     sp_use_count w (shm_ (CpuBuffer_drop (createLocal w st).1 (createLocal w st).2))
       = sp_use_count w (shm_ st) ∧
     ptrs_ (this (CpuBuffer_drop (createLocal w st).1 (createLocal w st).2)) !! sp_get w = None) ∧
  (∀ os w st d,
     gb_data (createLocal_gpu os w st).1 = Some d →
     handlesGPU_ (this st) !! handle d = None →
     (0 < sp_use_count w (shm_ st))%nat →
     sp_use_count w (shm_ (createLocal_gpu os w st).2) = S (sp_use_count w (shm_ st)) ∧
     sp_use_count w (shm_ (GpuBuffer_drop (createLocal_gpu os w st).1 (createLocal_gpu os w st).2))
       = sp_use_count w (shm_ st) ∧
     handlesGPU_ (this (GpuBuffer_drop (createLocal_gpu os w st).1 (createLocal_gpu os w st).2))
       !! handle d = None) ∧
  (∀ FRAC n st,
     cb_is_null (requestSHM FRAC n st).1 = false →
     ptrs_ (this st) !! cb_ptr (requestSHM FRAC n st).1 = None →
     ∃ w, ptrs_ (this (requestSHM FRAC n st).2) !! cb_ptr (requestSHM FRAC n st).1 = Some w ∧
          sp_use_count w (shm_ (requestSHM FRAC n st).2) = 1%nat ∧
          sp_use_count w (shm_ (CpuBuffer_drop (requestSHM FRAC n st).1 (requestSHM FRAC n st).2))
            = 0%nat ∧
          ptrs_ (this (CpuBuffer_drop (requestSHM FRAC n st).1 (requestSHM FRAC n st).2))
            !! cb_ptr (requestSHM FRAC n st).1 = None).
Proof.
  split; [exact createLocal_entry|].
  split; [exact requestSHM_entry|].
  split; [exact createLocal_gpu_entry|].
  split; [exact getGpuBufferFromPool_entry|].
  split; [exact destroyLocal_decrements|].
  split; [exact destroyLocal_gpu_decrements|].
  split; [exact createLocal_single|].
  split; [exact createLocal_gpu_single|].
  exact requestSHM_single.
Qed.

(** The single-handle cases at concrete inputs: a buffer of [requestSHM] in
    the sample process, and the wrapper of process 7 made local on the POSIX
    path with a successful [open] that answers descriptor 5. *)
Lemma local_handle_cache_single_decrement_witness :
  (cb_is_null (requestSHM frac_0_9 1024 sample_attached).1 = false ∧
   ptrs_ (this sample_attached) !! cb_ptr (requestSHM frac_0_9 1024 sample_attached).1 = None ∧
   ∃ w, ptrs_ (this (requestSHM frac_0_9 1024 sample_attached).2)
          !! cb_ptr (requestSHM frac_0_9 1024 sample_attached).1 = Some w ∧
        sp_use_count w (shm_ (requestSHM frac_0_9 1024 sample_attached).2) = 1%nat ∧
        sp_use_count w (shm_ (CpuBuffer_drop (requestSHM frac_0_9 1024 sample_attached).1
                                (requestSHM frac_0_9 1024 sample_attached).2)) = 0%nat ∧
        ptrs_ (this (CpuBuffer_drop (requestSHM frac_0_9 1024 sample_attached).1
                       (requestSHM frac_0_9 1024 sample_attached).2))
          !! cb_ptr (requestSHM frac_0_9 1024 sample_attached).1 = None) ∧
  (gb_data (createLocal_gpu (open_result 5) (sp_ref 1 2) sample_remote_gpu).1
     = Some (mkGpuBufferData 5 4096 2) ∧
   handlesGPU_ (this sample_remote_gpu) !! 5 = None ∧
   (0 < sp_use_count (sp_ref 1 2) (shm_ sample_remote_gpu))%nat ∧
   sp_use_count (sp_ref 1 2) (shm_ (createLocal_gpu (open_result 5) (sp_ref 1 2) sample_remote_gpu).2)
     = S (sp_use_count (sp_ref 1 2) (shm_ sample_remote_gpu))).
Proof.
  destruct local_handle_cache_single_decrement
    as (_ & _ & _ & _ & _ & _ & _ & Hgpu & Hreq).
  split.
  - split; [reflexivity|]. split; [reflexivity|].
    apply (Hreq frac_0_9 1024 sample_attached); reflexivity.
  - split; [reflexivity|]. split; [reflexivity|].
    split; [vm_compute; lia|].
    apply (Hgpu (open_result 5) (sp_ref 1 2) sample_remote_gpu (mkGpuBufferData 5 4096 2));
      [reflexivity|reflexivity|vm_compute; lia].
Defined.

(** C3 (counterexample). The sample process holds the buffer [a] of
    [requestSHM(1024)]; it converts [a] to its wrapper and makes a second
    local handle [b] of that wrapper with [createLocal] (the temporary wrapper
    is then destroyed).  Both handles have the raw address of offset 1 and
    share the single entry of [ptrs_].  Dropping [b] erases that entry and
    takes the last reference: the use count falls to zero and offset 1 goes
    back to the free-list although [a] is still alive and now has no entry;
    the next [requestSHM(1024)] hands the same address out again.  Dropping
    [a], the last local handle, then decrements nothing. *)
Lemma second_local_handle_drop_releases_live_buffer :
  let a := requestSHM frac_0_9 1024 sample_attached in
  let w := convert a.1 a.2 in
  let b := createLocal w.1 w.2 in
  let st := on_shm (sp_release w.1) b.2 in
  let st' := CpuBuffer_drop b.1 st in
  cb_ptr a.1 = shm_addr 1 ∧ cb_ptr b.1 = shm_addr 1 ∧
  map_to_list (ptrs_ (this st)) = [(shm_addr 1, w.1)] ∧
  sp_use_count w.1 (shm_ st) = 1%nat ∧
  ptrs_ (this st') !! cb_ptr a.1 = None ∧
  sp_use_count w.1 (shm_ st') = 0%nat ∧
  buffers (shm_pool (shm_ st')) !! 1024 = Some [1] ∧
  cb_ptr (requestSHM frac_0_9 1024 st').1 = cb_ptr a.1 ∧
  CpuBuffer_drop a.1 st' = st'.
Proof. vm_compute. by repeat split. Qed.

(** ** The sample states are well-formed *)

Lemma pool_wf_fresh s t :
  buffers (shm_pool s) = ∅ → sizes (shm_pool s) = ∅ → ptrs_ t = ∅ → pool_wf (mkState s t).
Proof.
  intros Hb Hs Hp. unfold pool_wf. cbn [shm_ this]. rewrite Hb, Hs, Hp. split; [|split].
  - intros m off Hin. rewrite lookup_empty in Hin. by apply elem_of_nil in Hin.
  - intros m. rewrite lookup_empty. apply NoDup_nil_2.
  - intros off _. split; apply lookup_empty.
Qed.

Lemma free_lists_quiet_fresh s t :
  buffers (shm_pool s) = ∅ → ptrs_ t = ∅ → free_lists_quiet (mkState s t).
Proof.
  intros Hb Hp. unfold free_lists_quiet. cbn [shm_ this]. rewrite Hb, Hp. split.
  - intros m. by rewrite lookup_empty.
  - intros off _. apply lookup_empty.
Qed.

Lemma sample_attached_wf : pool_wf sample_attached.
Proof. by apply pool_wf_fresh. Qed.

Lemma sample_recycled_wf : pool_wf sample_recycled.
Proof.
  assert (Hb : buffers (shm_pool (shm_ sample_recycled)) = {[1024 := [1]]})
    by (vm_compute; reflexivity).
  assert (Hs : sizes (shm_pool (shm_ sample_recycled)) = {[1 := 1024]})
    by (vm_compute; reflexivity).
  assert (Hp : ptrs_ (this sample_recycled) = ∅) by (vm_compute; reflexivity).
  assert (Hn : shm_next (shm_ sample_recycled) = 3) by (vm_compute; reflexivity).
  unfold pool_wf. cbv zeta. rewrite Hb, Hs, Hp, Hn. split; [|split].
  - intros m off Hin. destruct (decide (m = 1024)) as [->|Hne].
    + rewrite lookup_singleton_eq in Hin. cbn [default] in Hin.
      apply list_elem_of_singleton in Hin as ->.
      split; [apply lookup_singleton_eq|]. split; [apply lookup_empty|lia].
    + rewrite lookup_singleton_ne in Hin by done. by apply elem_of_nil in Hin.
  - intros m. destruct (decide (m = 1024)) as [->|Hne].
    + rewrite lookup_singleton_eq. apply NoDup_singleton.
    + rewrite lookup_singleton_ne by done. apply NoDup_nil_2.
  - intros off Hoff. split; [apply lookup_singleton_ne; lia|apply lookup_empty].
Qed.

Lemma sample_budget_10_quiet : free_lists_quiet sample_budget_10.
Proof. by apply free_lists_quiet_fresh. Qed.

(** ** Recycling *)

Lemma requestSHM_share_fresh_pool off st :
  ptrs_ (this st) !! shm_addr off = None →
  let r := requestSHM_share off (get_address_from_handle off) st in
  shm_pool (shm_ r.2) = shm_pool (shm_ st) ∧
  shm_bytes (shm_ r.2) = shm_bytes (shm_ st) ∧
  shm_next (shm_ r.2) = shm_next (shm_ st) + 1 ∧
  ptrs_ (this r.2) = <[shm_addr off := sp_ref off (shm_next (shm_ st))]> (ptrs_ (this st)) ∧
  shm_ctl (shm_ r.2) = <[shm_next (shm_ st) := mkControlBlock 1 CpuPool off]> (shm_ctl (shm_ st)).
Proof. intros Hfree. cbv zeta. by rewrite (requestSHM_share_fresh off st Hfree). Qed.

(** The heart of the LIFO argument: a block is wrapped and handed out, the
    buffer is dropped, and the next request of its size gets the block
    back. *)
Lemma share_drop_request FRAC n off l' st :
  ptrs_ (this st) !! shm_addr off = None →
  sizes (shm_pool (shm_ st)) !! off = Some n →
  buffers (shm_pool (shm_ st)) !! n = Some l' →
  let a := requestSHM_share off (get_address_from_handle off) st in
  let dropped := CpuBuffer_drop a.1 a.2 in
  let b := requestSHM FRAC n dropped in
  default [] (buffers (shm_pool (shm_ dropped)) !! n) = l' ++ [off] ∧
  b.1 = mkCpuBuffer (shm_addr off) del_destroyLocal ∧
  shm_pool (shm_ b.2) = shm_pool (shm_ a.2) ∧
  shm_bytes (shm_ b.2) = shm_bytes (shm_ a.2).
Proof.
  intros Hfree Hsize Hlist a dropped b.
  destruct (requestSHM_share_fresh_pool off st Hfree) as (Hpool & Hbytes & Hnext & Hptrs & Hctl).
  fold a in Hpool, Hbytes, Hnext, Hptrs, Hctl.
  assert (Ha1 : a.1 = mkCpuBuffer (shm_addr off) del_destroyLocal)
    by apply requestSHM_share_result.
  destruct (CpuBuffer_drop_last a.1 a.2 off (shm_next (shm_ st)) off n) as [Hdrop Hbuf].
  { by rewrite Ha1. }
  { rewrite Ha1, Hptrs. apply lookup_insert_eq. }
  { rewrite Hctl. apply lookup_insert_eq. }
  { by rewrite Hpool. }
  fold dropped in Hdrop, Hbuf.
  destruct (CpuBuffer_drop_frame a.1 a.2) as (Hframe & _ & Hdnext & Hdbytes & _).
  fold dropped in Hframe, Hdnext, Hdbytes.
  destruct (Hframe CpuPool) as [Hdalloc Hdsizes]. cbn [get_pool] in Hdalloc, Hdsizes.
  assert (Hdlist : default [] (buffers (shm_pool (shm_ dropped)) !! n) = l' ++ [off]).
  { rewrite Hbuf, lookup_insert_eq, Hpool, Hlist. done. }
  assert (Hdptrs : ptrs_ (this dropped) !! shm_addr off = None).
  { rewrite Hdrop. cbn [this ptrs_ set_ptrs]. rewrite Ha1. apply lookup_delete_eq. }
  split; [exact Hdlist|].
  destruct (requestSHM_cases FRAC n dropped) as [(l'' & off' & Hl & Hb)|[(Hl & _)|(Hl & _)]];
    rewrite Hdlist in Hl; try (by destruct l').
  apply app_inj_tail in Hl as [<- <-]. fold b in Hb.
  assert (Hpop : ptrs_ (this (after_pop n l' dropped)) !! shm_addr off = None) by exact Hdptrs.
  destruct (requestSHM_share_fresh_pool off (after_pop n l' dropped) Hpop)
    as (Hbpool & Hbbytes & _).
  rewrite <- Hb in Hbpool, Hbbytes.
  split; [rewrite Hb; apply requestSHM_share_result|].
  split.
  - rewrite Hbpool. unfold after_pop. cbn [shm_ on_shm shm_pool set_pool].
    rewrite Hbuf, Hpool. unfold set_buffers. cbn [sizes allocated].
    rewrite Hdsizes, Hdalloc, Hpool. rewrite !insert_insert_eq.
    rewrite (insert_id _ _ _ Hlist). by destruct (shm_pool (shm_ st)).
  - rewrite Hbbytes. unfold after_pop. cbn [shm_ on_shm shm_bytes set_pool]. by rewrite Hdbytes.
Qed.

(** C4. In a well-formed pool, for every size [n]: if [requestSHM(n)]
    returns a buffer, dropping that buffer and calling [requestSHM(n)] again
    yields the same raw address and the same offset handle.  The drop pushes
    the offset at the back of [buffers[n]] and the second request pops exactly
    that entry: the free-lists, [sizes], [allocated] and the byte blocks of
    the segment are after the second request what they were after the
    first. *)
Theorem requestSHM_drop_requestSHM_reuses_offset
    (FRAC : spec_float) (n : Z) (st : State) :
  pool_wf st →
  cb_is_null (requestSHM FRAC n st).1 = false →
  let a := requestSHM FRAC n st in
  let dropped := CpuBuffer_drop a.1 a.2 in
  let b := requestSHM FRAC n dropped in
  cb_ptr b.1 = cb_ptr a.1 ∧
  get_handle_from_address (cb_ptr b.1) = get_handle_from_address (cb_ptr a.1) ∧
  last (default [] (buffers (shm_pool (shm_ dropped)) !! n))
    = Some (get_handle_from_address (cb_ptr a.1)) ∧
  buffers (shm_pool (shm_ b.2)) = buffers (shm_pool (shm_ a.2)) ∧
  sizes (shm_pool (shm_ b.2)) = sizes (shm_pool (shm_ a.2)) ∧
  allocated (shm_pool (shm_ b.2)) = allocated (shm_pool (shm_ a.2)) ∧
  shm_bytes (shm_ b.2) = shm_bytes (shm_ a.2).
Proof.
  intros (Hfree & Hnodup & Hfresh) Hnull. cbv zeta.
  assert (Hgoal : ∀ off l' st0,
    requestSHM FRAC n st = requestSHM_share off (get_address_from_handle off) st0 →
    ptrs_ (this st0) !! shm_addr off = None →
    sizes (shm_pool (shm_ st0)) !! off = Some n →
    buffers (shm_pool (shm_ st0)) !! n = Some l' →
    let a := requestSHM FRAC n st in
    let dropped := CpuBuffer_drop a.1 a.2 in
    let b := requestSHM FRAC n dropped in
    cb_ptr b.1 = cb_ptr a.1 ∧
    get_handle_from_address (cb_ptr b.1) = get_handle_from_address (cb_ptr a.1) ∧
    last (default [] (buffers (shm_pool (shm_ dropped)) !! n))
      = Some (get_handle_from_address (cb_ptr a.1)) ∧
    buffers (shm_pool (shm_ b.2)) = buffers (shm_pool (shm_ a.2)) ∧
    sizes (shm_pool (shm_ b.2)) = sizes (shm_pool (shm_ a.2)) ∧
    allocated (shm_pool (shm_ b.2)) = allocated (shm_pool (shm_ a.2)) ∧
    shm_bytes (shm_ b.2) = shm_bytes (shm_ a.2)).
  { intros off l' st0 Heq Hp Hs Hl. cbv zeta. rewrite Heq.
    destruct (share_drop_request FRAC n off l' st0 Hp Hs Hl) as (Hdl & Hb1 & Hbpool & Hbbytes).
    rewrite Hb1, Hdl, Hbpool, Hbbytes, requestSHM_share_result, last_snoc. done. }
  destruct (requestSHM_cases FRAC n st) as [(l' & off & Hl & Heq)|[(Hl & Hok & Heq)|(_ & _ & Heq)]].
  - destruct (Hfree n off) as (Hsz & Hp & _); [rewrite Hl; apply elem_of_app; right; by left|].
    apply (Hgoal off l' _ Heq); [exact Hp|exact Hsz|].
    unfold after_pop. cbn [shm_ on_shm shm_pool set_pool set_buffers buffers].
    apply lookup_insert_eq.
  - destruct (Hfresh (shm_next (shm_ st))) as [Hsz Hp]; [lia|].
    apply (Hgoal (shm_next (shm_ st)) [] _ Heq); [exact Hp| |].
    + unfold after_alloc. cbn [shm_ shm_pool set_pool sizes]. unfold emplace. rewrite Hsz.
      apply lookup_insert_eq.
    + unfold after_alloc. cbn [shm_ shm_pool set_pool buffers]. apply lookup_insert_eq.
  - rewrite Heq in Hnull. discriminate Hnull.
Qed.

(** Scenario S6 of the spec in the sample process, once from the state with
    offset 1 on the free-list of size 1024 (the request pops it, the drop
    pushes it back, the next request pops it again) and once from the empty
    pool (the first request allocates). *)
Lemma requestSHM_drop_requestSHM_reuses_offset_witness :
  (pool_wf sample_recycled ∧
   cb_is_null (requestSHM frac_0_9 1024 sample_recycled).1 = false ∧
   cb_ptr (requestSHM frac_0_9 1024 sample_recycled).1 = shm_addr 1 ∧
   cb_ptr (requestSHM frac_0_9 1024
             (CpuBuffer_drop (requestSHM frac_0_9 1024 sample_recycled).1
                             (requestSHM frac_0_9 1024 sample_recycled).2)).1
     = cb_ptr (requestSHM frac_0_9 1024 sample_recycled).1) ∧
  (pool_wf sample_attached ∧
   cb_is_null (requestSHM frac_0_9 1024 sample_attached).1 = false ∧
   cb_ptr (requestSHM frac_0_9 1024
             (CpuBuffer_drop (requestSHM frac_0_9 1024 sample_attached).1
                             (requestSHM frac_0_9 1024 sample_attached).2)).1
     = cb_ptr (requestSHM frac_0_9 1024 sample_attached).1).
Proof.
  split.
  - split; [exact sample_recycled_wf|]. split; [reflexivity|]. split; [reflexivity|].
    exact (proj1 (requestSHM_drop_requestSHM_reuses_offset frac_0_9 1024 sample_recycled
                    sample_recycled_wf eq_refl)).
  - split; [exact sample_attached_wf|]. split; [reflexivity|].
    exact (proj1 (requestSHM_drop_requestSHM_reuses_offset frac_0_9 1024 sample_attached
                    sample_attached_wf eq_refl)).
Defined.

(** ** The direct request *)

Lemma getBufferFromSharedPoolDirect_no_entry FRAC n st :
  cb_is_null (requestSHM FRAC n st).1 = false →
  ptrs_ (this (getBufferFromSharedPoolDirect FRAC n st).2) !! cb_ptr (requestSHM FRAC n st).1 = None.
Proof.
  intros Hnull. unfold getBufferFromSharedPoolDirect.
  pose proof (requestSHM_entry FRAC n st Hnull) as [w0 Hentry].
  pose proof (requestSHM_result FRAC n st) as Hres.
  destruct (requestSHM FRAC n st) as [tmp st1]. cbn [fst snd] in *.
  destruct Hres as [->|[off ->]]; [discriminate Hnull|]. cbn [cb_ptr] in *.
  unfold convert. cbn [cb_ptr]. rewrite Hentry. cbn [snd].
  unfold CpuBuffer_drop, destroyLocal. cbn [cb_del cb_ptr on_shm this]. rewrite Hentry.
  cbn [this ptrs_ set_ptrs]. apply lookup_delete_eq.
Qed.

Lemma share_convert_drop off st :
  ptrs_ (this st) !! shm_addr off = None →
  let r := requestSHM_share off (get_address_from_handle off) st in
  let w := convert r.1 r.2 in
  let st' := CpuBuffer_drop r.1 w.2 in
  w.1 = sp_ref off (shm_next (shm_ st)) ∧
  sp_use_count w.1 (shm_ st') = 1%nat ∧
  shm_pool (shm_ st') = shm_pool (shm_ st).
Proof.
  intros Hfree. cbv zeta. rewrite (requestSHM_share_fresh off st Hfree). cbn [fst snd].
  unfold convert. cbn [cb_ptr this ptrs_ set_ptrs]. rewrite lookup_insert_eq. cbn [fst snd].
  unfold CpuBuffer_drop, destroyLocal. cbn [cb_del cb_ptr on_shm this shm_ ptrs_ set_ptrs].
  rewrite lookup_insert_eq. cbn [shm_].
  unfold sp_copy. cbn [shm_ctl set_ctl]. rewrite lookup_insert_eq.
  cbn [use_count rc_pool rc_offset].
  erewrite sp_release_shared; [|cbn [shm_ctl set_ctl]; apply lookup_insert_eq|reflexivity].
  cbn [sp_use_count shm_ctl set_ctl rc_pool rc_offset]. rewrite lookup_insert_eq.
  by repeat split.
Qed.

Lemma getBufferFromSharedPoolDirect_unfold FRAC n st :
  getBufferFromSharedPoolDirect FRAC n st =
  ((convert (requestSHM FRAC n st).1 (requestSHM FRAC n st).2).1,
   CpuBuffer_drop (requestSHM FRAC n st).1
     (convert (requestSHM FRAC n st).1 (requestSHM FRAC n st).2).2).
Proof.
  unfold getBufferFromSharedPoolDirect. destruct (requestSHM FRAC n st) as [tmp st1].
  cbn [fst snd]. by destruct (convert tmp st1).
Qed.

Lemma direct_from_share FRAC n st off st0 :
  requestSHM FRAC n st = requestSHM_share off (get_address_from_handle off) st0 →
  ptrs_ (this st0) !! shm_addr off = None →
  (getBufferFromSharedPoolDirect FRAC n st).1 = sp_ref off (shm_next (shm_ st0)) ∧
  sp_use_count (getBufferFromSharedPoolDirect FRAC n st).1
    (shm_ (getBufferFromSharedPoolDirect FRAC n st).2) = 1%nat ∧
  shm_pool (shm_ (getBufferFromSharedPoolDirect FRAC n st).2) = shm_pool (shm_ st0).
Proof.
  intros Heq Hfree. rewrite getBufferFromSharedPoolDirect_unfold, Heq. cbn [fst snd].
  apply (share_convert_drop off st0 Hfree).
Qed.

(** C10. When [getBufferFromSharedPoolDirect(n)] returns after a successful
    [requestSHM(n)], [ptrs_] has no entry for the raw address of the
    allocation, so [convert] and [isBufferFromPool] of any local buffer at
    that address are empty.  In a well-formed pool the returned wrapper is
    the only owner of the allocation (use count one), the allocation is
    registered with size [n] and its offset is on no free-list. *)
Theorem getBufferFromSharedPoolDirect_leaves_no_local_entry
    (FRAC : spec_float) (n : Z) (st : State) :
  cb_is_null (requestSHM FRAC n st).1 = false →
  let tmp := (requestSHM FRAC n st).1 in
  let r := getBufferFromSharedPoolDirect FRAC n st in
  ptrs_ (this r.2) !! cb_ptr tmp = None ∧
  (∀ b, cb_ptr b = cb_ptr tmp →
        (convert b r.2).1 = sp_null ∧ (isBufferFromPool (any_cpu b) r.2).1 = false) ∧
  (pool_wf st →
   ∃ off c, cb_ptr tmp = shm_addr off ∧ r.1 = sp_ref off c ∧
            sp_use_count r.1 (shm_ r.2) = 1%nat ∧
            sizes (shm_pool (shm_ r.2)) !! off = Some n ∧
            ∀ m, off ∉ default [] (buffers (shm_pool (shm_ r.2)) !! m)).
Proof.
  intros Hnull. cbv zeta.
  pose proof (getBufferFromSharedPoolDirect_no_entry FRAC n st Hnull) as Hgone.
  split; [exact Hgone|]. split.
  - intros b Hb. unfold isBufferFromPool, convert. rewrite Hb, Hgone. by split.
  - intros (Hfree & Hnodup & Hfresh).
    destruct (requestSHM_cases FRAC n st) as [(l' & off & Hl & Heq)|[(Hl & Hok & Heq)|(_ & _ & Heq)]].
    + destruct (Hfree n off) as (Hsz & Hp & _); [rewrite Hl; apply elem_of_app; right; by left|].
      destruct (direct_from_share FRAC n st off _ Heq Hp) as (Hw & Hcount & Hpool).
      exists off, (shm_next (shm_ st)).
      rewrite Heq at 1. rewrite requestSHM_share_result.
      split; [done|]. split; [exact Hw|]. split; [exact Hcount|]. rewrite Hpool.
      unfold after_pop. cbn [shm_ on_shm shm_pool set_pool set_buffers buffers sizes].
      split; [exact Hsz|]. intros m Hin.
      destruct (decide (m = n)) as [->|Hne].
      * rewrite lookup_insert_eq in Hin. cbn [default] in Hin.
        specialize (Hnodup n). rewrite Hl in Hnodup.
        apply NoDup_app in Hnodup as (_ & Hdisj & _). apply (Hdisj off Hin). by left.
      * rewrite lookup_insert_ne in Hin by done.
        destruct (Hfree m off Hin) as (Hsz' & _). congruence.
    + destruct (Hfresh (shm_next (shm_ st))) as [Hsz Hp]; [lia|].
      destruct (direct_from_share FRAC n st (shm_next (shm_ st)) _ Heq Hp) as (Hw & Hcount & Hpool).
      exists (shm_next (shm_ st)), (shm_next (shm_ st) + 1).
      rewrite Heq at 1. rewrite requestSHM_share_result.
      split; [done|]. split; [exact Hw|]. split; [exact Hcount|]. rewrite Hpool.
      unfold after_alloc. cbn [shm_ shm_pool set_pool buffers sizes].
      split; [unfold emplace; rewrite Hsz; apply lookup_insert_eq|]. intros m Hin.
      destruct (decide (m = n)) as [->|Hne].
      * rewrite lookup_insert_eq in Hin. by apply elem_of_nil in Hin.
      * rewrite lookup_insert_ne in Hin by done.
        destruct (Hfree m _ Hin) as (_ & _ & Hlt). lia.
    + rewrite Heq in Hnull. discriminate Hnull.
Qed.

(** The direct request in the sample process with offset 1 on the free-list:
    the wrapper comes back with use count one, [ptrs_] keeps no entry and
    offset 1 has left the free-list. *)
Lemma getBufferFromSharedPoolDirect_leaves_no_local_entry_witness :
  cb_is_null (requestSHM frac_0_9 1024 sample_recycled).1 = false ∧
  pool_wf sample_recycled ∧
  ptrs_ (this (getBufferFromSharedPoolDirect frac_0_9 1024 sample_recycled).2)
    !! cb_ptr (requestSHM frac_0_9 1024 sample_recycled).1 = None ∧
  (getBufferFromSharedPoolDirect frac_0_9 1024 sample_recycled).1 = sp_ref 1 3 ∧
  sp_use_count (sp_ref 1 3) (shm_ (getBufferFromSharedPoolDirect frac_0_9 1024 sample_recycled).2)
    = 1%nat ∧
  buffers (shm_pool (shm_ (getBufferFromSharedPoolDirect frac_0_9 1024 sample_recycled).2))
    !! 1024 = Some [].
Proof.
  split; [reflexivity|]. split; [exact sample_recycled_wf|].
  split.
  - exact (proj1 (getBufferFromSharedPoolDirect_leaves_no_local_entry frac_0_9 1024
                    sample_recycled eq_refl)).
  - vm_compute. by repeat split.
Defined.

(** ** Small integers as doubles *)

Lemma digits2_pos_bounds p :
  2 ^ (Zpos (digits2_pos p) - 1) ≤ Zpos p < 2 ^ Zpos (digits2_pos p).
Proof.
  induction p as [p IH|p IH|]; cbn [digits2_pos].
  - rewrite Pos2Z.inj_succ, Z.pow_succ_r by lia.
    replace (Z.succ (Zpos (digits2_pos p)) - 1) with (Z.succ (Zpos (digits2_pos p) - 1)) by lia.
    rewrite Z.pow_succ_r by lia. lia.
  - rewrite Pos2Z.inj_succ, Z.pow_succ_r by lia.
    replace (Z.succ (Zpos (digits2_pos p)) - 1) with (Z.succ (Zpos (digits2_pos p) - 1)) by lia.
    rewrite Z.pow_succ_r by lia. lia.
  - simpl. lia.
Qed.

Lemma iter_xO_value p k : Zpos (Pos.iter xO p k) = Zpos p * 2 ^ Zpos k.
Proof.
  induction k as [|k IH] using Pos.peano_ind.
  - simpl. lia.
  - rewrite Pos.iter_succ, Pos2Z.inj_succ, Z.pow_succ_r by lia.
    rewrite Pos2Z.inj_xO, IH. lia.
Qed.

Lemma iter_xO_digits p k :
  Zpos (digits2_pos (Pos.iter xO p k)) = Zpos (digits2_pos p) + Zpos k.
Proof.
  induction k as [|k IH] using Pos.peano_ind.
  - simpl. lia.
  - rewrite Pos.iter_succ. cbn [digits2_pos]. rewrite Pos2Z.inj_succ, IH. lia.
Qed.

Lemma of_size_t_small p :
  Zpos p < 2 ^ 53 →
  Double.of_size_t (Zpos p) = S754_finite false (small_mantissa p) (Zpos (digits2_pos p) - 53).
Proof.
  intros Hsmall.
  assert (Hd : 1 ≤ Zpos (digits2_pos p) ≤ 53).
  { pose proof (digits2_pos_bounds p) as [Hlo _]. split; [lia|].
    destruct (Z.le_gt_cases (Zpos (digits2_pos p)) 53) as [|Hgt]; [done|].
    assert (2 ^ 53 ≤ 2 ^ (Zpos (digits2_pos p) - 1)) by (apply Z.pow_le_mono_r; lia). lia. }
  unfold Double.of_size_t, binary_normalize, binary_round.
  assert (Hfexp : fexp Double.prec Double.emax (Zpos (digits2_pos p) + 0)
                  = Zpos (digits2_pos p) - 53).
  { unfold fexp, emin, Double.prec, Double.emax. lia. }
  rewrite Hfexp. unfold shl_align, small_mantissa. rewrite Z.sub_0_r.
  remember (Zpos (digits2_pos p) - 53) as e eqn:Hedef.
  assert (Hmant : ∀ m, Zpos (digits2_pos m) = 53 →
            binary_round_aux Double.prec Double.emax false (Zpos m) e loc_Exact
            = S754_finite false m e).
  { intros m Hm. unfold binary_round_aux, shr_fexp. cbn [Zdigits2 shr_record_of_loc].
    assert (Hf : fexp Double.prec Double.emax (Zpos (digits2_pos m) + e) - e = 0).
    { unfold fexp, emin, Double.prec, Double.emax. lia. }
    rewrite Hf. cbn [shr shr_m loc_of_shr_record round_nearest_even Zdigits2 shr_record_of_loc].
    rewrite Hf. cbn [shr shr_m].
    assert (He : (e <=? Double.emax - Double.prec) = true)
      by (apply Z.leb_le; unfold Double.emax, Double.prec; lia).
    by rewrite He. }
  destruct e as [|e'|k].
  - apply Hmant. lia.
  - lia.
  - apply Hmant. rewrite iter_xO_digits. lia.
Qed.

Lemma small_mantissa_value p :
  Zpos p < 2 ^ 53 →
  Zpos (small_mantissa p) = Zpos p * 2 ^ (53 - Zpos (digits2_pos p)).
Proof.
  intros Hsmall. unfold small_mantissa.
  assert (Hd : Zpos (digits2_pos p) ≤ 53).
  { pose proof (digits2_pos_bounds p) as [Hlo _].
    destruct (Z.le_gt_cases (Zpos (digits2_pos p)) 53) as [|Hgt]; [done|].
    assert (2 ^ 53 ≤ 2 ^ (Zpos (digits2_pos p) - 1)) by (apply Z.pow_le_mono_r; lia). lia. }
  destruct (Zpos (digits2_pos p) - 53) as [|e'|k] eqn:He.
  - replace (53 - Zpos (digits2_pos p)) with 0 by lia. simpl. lia.
  - lia.
  - rewrite iter_xO_value. f_equal. f_equal. lia.
Qed.

(** Below 2^53 the conversion is exact, so doubles compare as the integers
    do. *)
Lemma of_size_t_ltb a c :
  0 ≤ a < 2 ^ 53 → 0 < c < 2 ^ 53 →
  Double.ltb (Double.of_size_t a) (Double.of_size_t c) = (a <? c).
Proof.
  intros Ha Hc. destruct c as [|q|q]; [lia| |lia].
  rewrite (of_size_t_small q) by lia.
  destruct a as [|p|p]; [|rewrite (of_size_t_small p) by lia|lia].
  - symmetry. by apply Z.ltb_lt.
  - unfold Double.ltb, SFltb, SFcompare.
    pose proof (digits2_pos_bounds p) as [Hplo Hphi].
    pose proof (digits2_pos_bounds q) as [Hqlo Hqhi].
    destruct (Z.compare_spec (Zpos (digits2_pos p) - 53) (Zpos (digits2_pos q) - 53))
      as [Heq|Hlt|Hgt].
    + rewrite Pos.compare_cont_spec. cbn [Pos.switch_Eq].
      assert (Hd : Zpos (digits2_pos p) ≤ 53).
      { destruct (Z.le_gt_cases (Zpos (digits2_pos p)) 53) as [|Hgt]; [done|].
        assert (2 ^ 53 ≤ 2 ^ (Zpos (digits2_pos p) - 1)) by (apply Z.pow_le_mono_r; lia). lia. }
      pose proof (small_mantissa_value p ltac:(lia)) as Hmp.
      pose proof (small_mantissa_value q ltac:(lia)) as Hmq.
      replace (Zpos (digits2_pos q)) with (Zpos (digits2_pos p)) in Hmq by lia.
      assert (Hk : 0 < 2 ^ (53 - Zpos (digits2_pos p))) by (apply Z.pow_pos_nonneg; lia).
      change ((small_mantissa p ?= small_mantissa q)%positive)
        with (Zpos (small_mantissa p) ?= Zpos (small_mantissa q)).
      destruct (Z.compare_spec (Zpos (small_mantissa p)) (Zpos (small_mantissa q)))
        as [Hc'|Hc'|Hc']; rewrite Hmp, Hmq in Hc'; symmetry.
      * apply Z.ltb_ge. apply Z.mul_cancel_r in Hc'; lia.
      * apply Z.ltb_lt. by apply Z.mul_lt_mono_pos_r in Hc'.
      * apply Z.ltb_ge. apply Z.mul_lt_mono_pos_r in Hc'; lia.
    + assert (Zpos p < Zpos q).
      { assert (2 ^ Zpos (digits2_pos p) ≤ 2 ^ (Zpos (digits2_pos q) - 1))
          by (apply Z.pow_le_mono_r; lia). lia. }
      symmetry. by apply Z.ltb_lt.
    + assert (Zpos q < Zpos p).
      { assert (2 ^ Zpos (digits2_pos q) ≤ 2 ^ (Zpos (digits2_pos p) - 1))
          by (apply Z.pow_le_mono_r; lia). lia. }
      symmetry. apply Z.ltb_ge. lia.
Qed.

Lemma Size_wrap_small z : 0 ≤ z < Size.modulus → Size.wrap z = z.
Proof. intros H. unfold Size.wrap. by apply Z.mod_small. Qed.

(** ** The budget *)

Lemma requestSHM_share_frame off p st :
  let r := requestSHM_share off p st in
  (∀ k, allocated (get_pool k (shm_ r.2)) = allocated (get_pool k (shm_ st)) ∧
        sizes (get_pool k (shm_ r.2)) = sizes (get_pool k (shm_ st))) ∧
  shm_bytes (shm_ r.2) = shm_bytes (shm_ st) ∧
  this r.2 = set_ptrs (ptrs_ (this r.2)) (this st).
Proof.
  unfold requestSHM_share, sp_construct.
  destruct (ptrs_ (this st) !! p); cbn [fst snd shm_ this ptrs_ set_ptrs];
    match goal with |- context [sp_release ?w ?s] =>
      destruct (sp_release_frame w s) as (Hpool & _ & _ & Hbytes & _) end.
  - split; [|by rewrite Hbytes]. intros k. destruct (Hpool k) as [-> ->]. by destruct k.
  - match type of Hbytes with context [sp_copy ?w ?s] =>
      destruct (sp_copy_frame w s) as (Hcpool & _ & _ & Hcbytes & _) end.
    split; [|by rewrite Hbytes, Hcbytes].
    intros k. destruct (Hpool k) as [-> ->]. rewrite Hcpool. by destruct k.
Qed.

(** The order of [SFltb] is transitive. *)
Lemma SFltb_trans a b c : SFltb a b = true → SFltb b c = true → SFltb a c = true.
Proof.
  unfold SFltb, SFcompare.
  destruct a as [sa|sa| |sa ma ea], b as [sb|sb| |sb mb eb], c as [sc|sc| |sc mc ec];
    try destruct sa; try destruct sb; try destruct sc; try done.
  - destruct (Z.compare_spec ea eb) as [Hab|Hab|Hab]; try done;
      destruct (Z.compare_spec eb ec) as [Hbc|Hbc|Hbc]; try done;
      destruct (Z.compare_spec ea ec) as [Hac|Hac|Hac]; try done; try lia.
    all: rewrite ?Pos.compare_cont_spec; cbn [Pos.switch_Eq].
    all: destruct (Pos.compare_spec ma mb); try done;
         destruct (Pos.compare_spec mb mc); try done;
         destruct (Pos.compare_spec ma mc); try done; try lia.
  - destruct (Z.compare_spec ea eb) as [Hab|Hab|Hab]; try done;
      destruct (Z.compare_spec eb ec) as [Hbc|Hbc|Hbc]; try done;
      destruct (Z.compare_spec ea ec) as [Hac|Hac|Hac]; try done; try lia.
    all: rewrite ?Pos.compare_cont_spec; cbn [Pos.switch_Eq].
    all: destruct (Pos.compare_spec ma mb); try done;
         destruct (Pos.compare_spec mb mc); try done;
         destruct (Pos.compare_spec ma mc); try done; try lia.
Qed.

(** A smaller integer is below every double a larger one is below. *)
Lemma of_size_t_ltb_mono a b cap :
  0 ≤ a ≤ b → b < 2 ^ 53 →
  Double.ltb (Double.of_size_t b) cap = true → Double.ltb (Double.of_size_t a) cap = true.
Proof.
  intros Hab Hb Hlt. destruct (decide (a = b)) as [->|Hne]; [done|].
  apply (SFltb_trans _ (Double.of_size_t b)); [|exact Hlt].
  change (Double.ltb (Double.of_size_t a) (Double.of_size_t b) = true).
  rewrite of_size_t_ltb by lia. apply Z.ltb_lt. lia.
Qed.

(** The integers below a double are those below the least integer that is
    not below it. *)
Lemma budget_threshold cap c :
  0 < c < 2 ^ 53 →
  Double.ltb (Double.of_size_t (c - 1)) cap = true →
  Double.ltb (Double.of_size_t c) cap = false →
  ∀ s, 0 ≤ s < 2 ^ 53 → Double.ltb (Double.of_size_t s) cap = (s <? c).
Proof.
  intros Hc Hbelow Hat s Hs. destruct (Z.ltb_spec s c) as [Hlt|Hge].
  - apply (of_size_t_ltb_mono s (c - 1)); [lia|lia|done].
  - destruct (Double.ltb (Double.of_size_t s) cap) eqn:Hs'; [|done].
    rewrite (of_size_t_ltb_mono c s cap) in Hat; [done|lia|lia|done].
Qed.

Lemma first_false (f : Z → bool) N :
  0 ≤ N → f 0 = true → f N = false → ∃ c, 0 < c ≤ N ∧ f (c - 1) = true ∧ f c = false.
Proof.
  intros HN H0. revert N HN.
  apply (natlike_ind (λ N, f N = false → ∃ c, 0 < c ≤ N ∧ f (c - 1) = true ∧ f c = false)).
  - intros HfN. congruence.
  - intros N HN IH Hf. destruct (f N) eqn:HfN.
    + exists (Z.succ N). replace (Z.succ N - 1) with N by lia. split; [lia|done].
    + destruct (IH eq_refl) as (c & Hc & Hbelow & Hat). exists c. split; [lia|done].
Qed.

Lemma budget_threshold_exists cap :
  Double.ltb (Double.of_size_t 0) cap = true →
  Double.ltb (Double.of_size_t (2 ^ 53 - 1)) cap = false →
  ∃ c, 0 < c < 2 ^ 53 ∧
       Double.ltb (Double.of_size_t (c - 1)) cap = true ∧
       Double.ltb (Double.of_size_t c) cap = false.
Proof.
  intros H0 HN.
  destruct (first_false (λ s, Double.ltb (Double.of_size_t s) cap) (2 ^ 53 - 1) ltac:(lia) H0 HN)
    as (c & Hc & Hbelow & Hat).
  exists c. split; [lia|done].
Qed.

Lemma budget_threshold_integral c :
  0 < c < 2 ^ 53 →
  Double.ltb (Double.of_size_t (c - 1)) (Double.of_size_t c) = true ∧
  Double.ltb (Double.of_size_t c) (Double.of_size_t c) = false.
Proof.
  intros Hc. rewrite !of_size_t_ltb by lia. split; [apply Z.ltb_lt|apply Z.ltb_ge]; lia.
Qed.

Lemma shm_budget_ok_unfold FRAC alloc n shmSize :
  shm_budget_ok FRAC alloc n shmSize =
  Double.ltb (Double.of_size_t ((alloc + n) mod 2 ^ 64))
             (Double.mul (Double.of_size_t shmSize) FRAC).
Proof. reflexivity. Qed.

Lemma shm_budget_ok_threshold FRAC alloc n shmSize c :
  0 < c < 2 ^ 53 →
  Double.ltb (Double.of_size_t (c - 1)) (Double.mul (Double.of_size_t shmSize) FRAC) = true →
  Double.ltb (Double.of_size_t c) (Double.mul (Double.of_size_t shmSize) FRAC) = false →
  0 ≤ alloc + n < 2 ^ 53 →
  shm_budget_ok FRAC alloc n shmSize = (alloc + n <? c).
Proof.
  intros Hc Hbelow Hat Hsum. unfold shm_budget_ok.
  unfold Size.add. rewrite Size_wrap_small by (unfold Size.modulus; lia).
  by apply budget_threshold.
Qed.

(** The four ways [requestSHM] can end when the segment manager may refuse. *)
Lemma requestSHM_outcome_cases FRAC room wrapper n st :
  let pool := shm_pool (shm_ st) in
  let l := default [] (buffers pool !! n) in
  (∃ l' off, l = l' ++ [off] ∧
     requestSHM_outcome FRAC room wrapper n st =
       requestSHM_share_outcome wrapper off (get_address_from_handle off) (after_pop n l' st)) ∨
  (l = [] ∧ shm_budget_ok FRAC (allocated pool) n (shmSize_ (this st)) = true ∧ n ≤ room ∧
     requestSHM_outcome FRAC room wrapper n st =
       requestSHM_share_outcome wrapper (shm_next (shm_ st))
         (get_address_from_handle (shm_next (shm_ st))) (after_alloc n st)) ∨
  (l = [] ∧ shm_budget_ok FRAC (allocated pool) n (shmSize_ (this st)) = true ∧ room < n ∧
     requestSHM_outcome FRAC room wrapper n st = Throws (after_pop n [] st)) ∨
  (l = [] ∧ shm_budget_ok FRAC (allocated pool) n (shmSize_ (this st)) = false ∧
     requestSHM_outcome FRAC room wrapper n st = Returns CpuBuffer_empty (after_pop n [] st)).
Proof.
  intros pool l. unfold requestSHM_outcome. fold pool. fold l.
  destruct (last l) as [back|] eqn:Hlast.
  - left. apply last_Some in Hlast as [l' ->]. exists l', back. split; [done|].
    by rewrite removelast_last.
  - apply last_None in Hlast. rewrite Hlast. right.
    cbn [shm_ this on_shm shm_pool set_pool allocated set_buffers buffers sizes].
    destruct (shm_budget_ok FRAC (allocated pool) n (shmSize_ (this st))); [|by right; right].
    unfold construct_bytes. destruct (Z.leb_spec n room) as [Hle|Hgt].
    + left. by repeat split.
    + right. left. by repeat split.
Qed.

(** When the segment manager serves the call, [requestSHM_outcome] returns
    what [requestSHM] returns. *)
Lemma requestSHM_outcome_served FRAC room n st :
  n ≤ room →
  requestSHM_outcome FRAC room true n st
  = Returns (requestSHM FRAC n st).1 (requestSHM FRAC n st).2.
Proof.
  intros Hroom.
  assert (Hshare : ∀ off p st0,
    requestSHM_share_outcome true off p st0
    = Returns (requestSHM_share off p st0).1 (requestSHM_share off p st0).2).
  { intros off p st0. unfold requestSHM_share_outcome. by destruct (requestSHM_share _ _ _). }
  destruct (requestSHM_outcome_cases FRAC room true n st)
    as [(l' & off & Hl & ->)|[(Hl & Hok & _ & ->)|[(_ & _ & Hgt & _)|(Hl & Hno & ->)]]].
  - destruct (requestSHM_cases FRAC n st)
      as [(l2 & off2 & Hl2 & ->)|[(Hl2 & _)|(Hl2 & _)]].
    + rewrite Hl in Hl2. apply app_inj_tail in Hl2 as [<- <-]. apply Hshare.
    + rewrite Hl in Hl2. by destruct l'.
    + rewrite Hl in Hl2. by destruct l'.
  - destruct (requestSHM_cases FRAC n st)
      as [(l2 & off2 & Hl2 & _)|[(_ & _ & ->)|(_ & Hno & _)]].
    + rewrite Hl in Hl2. by destruct l2.
    + apply Hshare.
    + congruence.
  - lia.
  - destruct (requestSHM_cases FRAC n st)
      as [(l2 & off2 & Hl2 & _)|[(_ & Hok & _)|(_ & _ & ->)]].
    + rewrite Hl in Hl2. by destruct l2.
    + congruence.
    + done.
Qed.

Lemma requestSHM_seq_served FRAC asks :
  Forall served asks →
  ∀ st, requestSHM_seq FRAC asks st
        = Returns (requestSHM_each FRAC (ask_bytes <$> asks) st).1
                  (requestSHM_each FRAC (ask_bytes <$> asks) st).2.
Proof.
  induction 1 as [|a asks [Hroom Hw] _ IH]; intros st; [done|].
  cbn [requestSHM_seq fmap list_fmap requestSHM_each]. rewrite Hw.
  rewrite (requestSHM_outcome_served FRAC _ _ st Hroom).
  destruct (requestSHM FRAC (ask_bytes a) st) as [b st1]. cbn [fst snd].
  rewrite IH. by destruct (requestSHM_each FRAC _ st1).
Qed.

(** A free-list miss: refused, thrown or granted. *)
Lemma requestSHM_outcome_miss FRAC room wrapper n st :
  default [] (buffers (shm_pool (shm_ st)) !! n) = [] →
  let pool := shm_pool (shm_ st) in
  let off := shm_next (shm_ st) in
  let o := requestSHM_outcome FRAC room wrapper n st in
  let pool' := shm_pool (shm_ (state_after o)) in
  (shm_budget_ok FRAC (allocated pool) n (shmSize_ (this st)) = false →
     returned o = Some CpuBuffer_empty ∧
     allocated pool' = allocated pool ∧ sizes pool' = sizes pool ∧
     shm_bytes (shm_ (state_after o)) = shm_bytes (shm_ st)) ∧
  (shm_budget_ok FRAC (allocated pool) n (shmSize_ (this st)) = true → room < n →
     returned o = None ∧
     allocated pool' = allocated pool ∧ sizes pool' = sizes pool ∧
     shm_bytes (shm_ (state_after o)) = shm_bytes (shm_ st)) ∧
  (shm_budget_ok FRAC (allocated pool) n (shmSize_ (this st)) = true → n ≤ room →
     returned o = (if wrapper then Some (mkCpuBuffer (shm_addr off) del_destroyLocal) else None) ∧
     allocated pool' = (allocated pool + n) mod 2 ^ 64 ∧
     sizes pool' = match sizes pool !! off with
                   | None => <[off := n]> (sizes pool)
                   | Some _ => sizes pool
                   end ∧
     shm_bytes (shm_ (state_after o)) = <[off := n]> (shm_bytes (shm_ st))).
Proof.
  intros Hmiss. cbv zeta.
  destruct (requestSHM_outcome_cases FRAC room wrapper n st)
    as [(l' & off & Hl & _)|[(_ & Hok & Hroom & ->)|[(_ & Hok & Hroom & ->)|(_ & Hno & ->)]]].
  - rewrite Hmiss in Hl. by destruct l'.
  - split; [by rewrite Hok|]. split; [intros _ ?; lia|]. intros _ _.
    unfold requestSHM_share_outcome.
    match goal with |- context [requestSHM_share ?o ?p ?x] =>
      pose proof (requestSHM_share_result o p x) as Hres;
      destruct (requestSHM_share_frame o p x) as (Hpool & Hbytes & _);
      destruct (Hpool CpuPool) as [Ha Hs]; cbv zeta in Hbytes; cbn [get_pool] in Ha, Hs end.
    assert (Hafter : allocated (shm_pool (shm_ (after_alloc n st)))
                       = (allocated (shm_pool (shm_ st)) + n) mod 2 ^ 64 ∧
                     sizes (shm_pool (shm_ (after_alloc n st)))
                       = match sizes (shm_pool (shm_ st)) !! shm_next (shm_ st) with
                         | None => <[shm_next (shm_ st) := n]> (sizes (shm_pool (shm_ st)))
                         | Some _ => sizes (shm_pool (shm_ st))
                         end ∧
                     shm_bytes (shm_ (after_alloc n st))
                       = <[shm_next (shm_ st) := n]> (shm_bytes (shm_ st))) by done.
    destruct Hafter as (Ha0 & Hs0 & Hb0).
    destruct wrapper.
    + destruct (requestSHM_share _ _ (after_alloc n st)) as [b st1]. cbn [fst snd] in *.
      cbn [returned state_after]. rewrite Hres, Ha, Hs, Hbytes. done.
    + cbn [returned state_after]. done.
  - split; [by rewrite Hok|]. split; [|intros _ ?; lia]. intros _ _. done.
  - split; [|split; intros Hok; by rewrite Hok in Hno]. intros _. done.
Qed.

Lemma requestSHM_quiet_step FRAC c n st :
  0 < c < 2 ^ 53 →
  Double.ltb (Double.of_size_t (c - 1))
             (Double.mul (Double.of_size_t (shmSize_ (this st))) FRAC) = true →
  Double.ltb (Double.of_size_t c)
             (Double.mul (Double.of_size_t (shmSize_ (this st))) FRAC) = false →
  free_lists_quiet st →
  0 ≤ allocated (shm_pool (shm_ st)) → 0 ≤ n →
  allocated (shm_pool (shm_ st)) + n < c →
  let r := requestSHM FRAC n st in
  cb_is_null r.1 = false ∧
  allocated (shm_pool (shm_ r.2)) = allocated (shm_pool (shm_ st)) + n ∧
  free_lists_quiet r.2 ∧
  shmSize_ (this r.2) = shmSize_ (this st).
Proof.
  intros Hc Hbelow Hat [Hquiet Hfresh] Halloc Hn Hsum. cbv zeta.
  pose proof (shm_budget_ok_threshold FRAC (allocated (shm_pool (shm_ st))) n _ c Hc Hbelow Hat
                ltac:(lia)) as Hok.
  destruct (requestSHM_cases FRAC n st) as [(l' & off & Hl & _)|[(_ & _ & Heq)|(_ & Hno & _)]].
  - rewrite Hquiet in Hl. by destruct l'.
  - rewrite Heq.
    assert (Hp : ptrs_ (this (after_alloc n st)) !! shm_addr (shm_next (shm_ st)) = None)
      by (apply Hfresh; lia).
    rewrite (requestSHM_share_fresh _ _ Hp). cbn [fst snd cb_is_null cb_ptr shm_ this].
    split; [done|]. split.
    + unfold after_alloc. cbn [shm_ shm_pool set_pool set_ctl set_next allocated].
      unfold Size.add. apply Size_wrap_small. unfold Size.modulus. lia.
    + split; [split|done].
      * intros m. unfold after_alloc. cbn [shm_ shm_pool set_pool set_ctl set_next buffers].
        destruct (decide (n = m)) as [->|Hne];
          [by rewrite lookup_insert_eq|rewrite lookup_insert_ne by done; apply Hquiet].
      * intros off Hoff. unfold after_alloc in *.
        cbn [shm_ this shm_next set_pool set_ctl set_next set_bytes ptrs_ set_ptrs] in *.
        rewrite lookup_insert_ne by (intros [= ?]; lia). apply Hfresh. lia.
  - rewrite Hok in Hno. apply Z.ltb_ge in Hno. lia.
Qed.

Lemma requestSHM_each_within_budget FRAC c ns :
  0 < c < 2 ^ 53 →
  Forall (λ n, 0 ≤ n) ns →
  ∀ st,
    Double.ltb (Double.of_size_t (c - 1))
               (Double.mul (Double.of_size_t (shmSize_ (this st))) FRAC) = true →
    Double.ltb (Double.of_size_t c)
               (Double.mul (Double.of_size_t (shmSize_ (this st))) FRAC) = false →
    free_lists_quiet st →
    0 ≤ allocated (shm_pool (shm_ st)) →
    allocated (shm_pool (shm_ st)) + total ns < c →
    let rs := requestSHM_each FRAC ns st in
    Forall (λ b, cb_is_null b = false) rs.1 ∧
    length rs.1 = length ns ∧
    allocated (shm_pool (shm_ rs.2)) = allocated (shm_pool (shm_ st)) + total ns ∧
    free_lists_quiet rs.2 ∧
    shmSize_ (this rs.2) = shmSize_ (this st).
Proof.
  intros Hc Hns. induction Hns as [|n ns Hn Hns IH]; intros st Hbelow Hat Hquiet Halloc Hsum.
  - cbn. split; [done|]. split; [done|]. split; [lia|]. split; [exact Hquiet|done].
  - cbn [total foldr] in Hsum. fold (total ns) in Hsum. cbn [requestSHM_each].
    assert (Htot : 0 ≤ total ns).
    { clear -Hns. induction Hns as [|x l Hx _ IHl]; cbn; [done|]. fold (total l). lia. }
    destruct (requestSHM_quiet_step FRAC c n st Hc Hbelow Hat Hquiet Halloc Hn ltac:(lia))
      as (Hnull & Ha & Hq & Hsz).
    destruct (requestSHM FRAC n st) as [b st1]. cbn [fst snd] in *.
    destruct (IH st1) as (Hall & Hlen & Ha' & Hq' & Hsz');
      [by rewrite Hsz|by rewrite Hsz|done|lia|lia|].
    destruct (requestSHM_each FRAC ns st1) as [bs st2]. cbn [fst snd] in *.
    split; [by constructor|]. split; [cbn; by rewrite Hlen|].
    split; [cbn [total foldr]; fold (total ns); lia|].
    split; [done|congruence].
Qed.

(** C2 (amended). On a free-list miss [requestSHM(n)] passes the budget test
    exactly when [(allocated + n) mod 2^64], converted to [double], is
    strictly below the double product [shmSize_ * MAX_SHM_USAGE_FRAC].  If
    the test fails the call returns the empty handle and leaves [allocated],
    [sizes] and the segment memory as they were.  If it passes, the segment
    manager is asked for the block: when it cannot serve [n] bytes the call
    ends in [bad_alloc] with nothing charged and nothing recorded; when it
    can, the block lies at the next free offset, [allocated] becomes
    [(allocated + n) mod 2^64] and [sizes] maps the offset to [n] (an offset
    that [sizes] knows already keeps its entry), and the buffer at that
    offset is returned unless the wrapper cannot be constructed, in which
    case the call ends in [bad_alloc] with the block charged and recorded.

    The boundary, for totals below 2^53 (where the conversion is exact), is
    the least integer [c] that is not below the cap: a total below [c]
    passes, a total of [c] or more does not, so after served requests that
    sum to [c - 1] a request of one byte is refused.  Such a [c] exists for
    every cap between 0 and 2^53, and it is the cap itself when that is an
    integer. *)
Theorem requestSHM_budget_boundary
    (FRAC : spec_float) (room : Z) (wrapper : bool) (n : Z) (st : State) :
  default [] (buffers (shm_pool (shm_ st)) !! n) = [] →
  let pool := shm_pool (shm_ st) in
  let off := shm_next (shm_ st) in
  let cap := Double.mul (Double.of_size_t (shmSize_ (this st))) FRAC in
  let within := Double.ltb (Double.of_size_t ((allocated pool + n) mod 2 ^ 64)) cap in
  let o := requestSHM_outcome FRAC room wrapper n st in
  let pool' := shm_pool (shm_ (state_after o)) in
  (within = false →
     returned o = Some CpuBuffer_empty ∧
     allocated pool' = allocated pool ∧ sizes pool' = sizes pool ∧
     shm_bytes (shm_ (state_after o)) = shm_bytes (shm_ st)) ∧
  (within = true → room < n →
     returned o = None ∧
     allocated pool' = allocated pool ∧ sizes pool' = sizes pool ∧
     shm_bytes (shm_ (state_after o)) = shm_bytes (shm_ st)) ∧
  (within = true → n ≤ room →
     returned o = (if wrapper then Some (mkCpuBuffer (shm_addr off) del_destroyLocal) else None) ∧
     allocated pool' = (allocated pool + n) mod 2 ^ 64 ∧
     sizes pool' = match sizes pool !! off with
                   | None => <[off := n]> (sizes pool)
                   | Some _ => sizes pool
                   end ∧
     (sizes pool !! off = None → sizes pool' !! off = Some n) ∧
     shm_bytes (shm_ (state_after o)) = <[off := n]> (shm_bytes (shm_ st))) ∧
  (∀ c, 0 < c < 2 ^ 53 →
        Double.ltb (Double.of_size_t (c - 1)) cap = true →
        Double.ltb (Double.of_size_t c) cap = false →
        (0 ≤ allocated pool → 0 ≤ n → allocated pool + n < 2 ^ 53 →
           within = (allocated pool + n <? c)) ∧
        (∀ asks, free_lists_quiet st → 0 ≤ allocated pool →
                 Forall (λ a, 0 ≤ ask_bytes a) asks → Forall served asks →
                 allocated pool + total (ask_bytes <$> asks) = c - 1 →
                 ∃ bs st1,
                   requestSHM_seq FRAC asks st = Returns bs st1 ∧
                   length bs = length asks ∧
                   Forall (λ b, cb_is_null b = false) bs ∧
                   allocated (shm_pool (shm_ st1)) = c - 1 ∧
                   ∀ room1 wrapper1,
                     returned (requestSHM_outcome FRAC room1 wrapper1 1 st1)
                     = Some CpuBuffer_empty)) ∧
  (Double.ltb (Double.of_size_t 0) cap = true →
   Double.ltb (Double.of_size_t (2 ^ 53 - 1)) cap = false →
   ∃ c, 0 < c < 2 ^ 53 ∧
        Double.ltb (Double.of_size_t (c - 1)) cap = true ∧
        Double.ltb (Double.of_size_t c) cap = false) ∧
  (∀ c, 0 < c < 2 ^ 53 → cap = Double.of_size_t c →
        Double.ltb (Double.of_size_t (c - 1)) cap = true ∧
        Double.ltb (Double.of_size_t c) cap = false).
Proof.
  intros Hmiss. cbv zeta.
  rewrite <- (shm_budget_ok_unfold FRAC (allocated (shm_pool (shm_ st))) n (shmSize_ (this st))).
  destruct (requestSHM_outcome_miss FRAC room wrapper n st Hmiss) as (Hrefused & Hthrown & Hgranted).
  cbv zeta in Hrefused, Hthrown, Hgranted.
  split; [exact Hrefused|]. split; [exact Hthrown|]. split; [|split; [|split]].
  - intros Hok Hroom. destruct (Hgranted Hok Hroom) as (Hres & Ha & Hs & Hb).
    split; [exact Hres|]. split; [exact Ha|]. split; [exact Hs|]. split; [|exact Hb].
    intros Hfresh. rewrite Hs, Hfresh. apply lookup_insert_eq.
  - intros c Hc Hbelow Hat. split.
    + intros Halloc Hn Hsum. apply shm_budget_ok_threshold; [done|done|done|lia].
    + intros asks Hquiet Halloc Hpos Hserved Htotal.
      assert (Hns : Forall (λ k, 0 ≤ k) (ask_bytes <$> asks)) by (by apply Forall_fmap).
      destruct (requestSHM_each_within_budget FRAC c _ Hc Hns st Hbelow Hat Hquiet Halloc
                  ltac:(lia)) as (Hall & Hlen & Ha & Hq & Hsz).
      rewrite (requestSHM_seq_served FRAC asks Hserved st).
      eexists _, _. split; [reflexivity|].
      split; [by rewrite Hlen, length_fmap|]. split; [exact Hall|]. split; [lia|].
      intros room1 wrapper1.
      destruct (requestSHM_outcome_miss FRAC room1 wrapper1 1 _ (proj1 Hq 1)) as (Hlast & _).
      cbv zeta in Hlast. apply Hlast. rewrite Hsz.
      rewrite (shm_budget_ok_threshold FRAC _ 1 _ c Hc Hbelow Hat) by lia.
      apply Z.ltb_ge. lia.
  - apply budget_threshold_exists.
  - intros c Hc ->. by apply budget_threshold_integral.
Qed.

Lemma sample_budget_1024_quiet : free_lists_quiet sample_budget_1024.
Proof. by apply free_lists_quiet_fresh. Qed.

(** Scenario S2 of the spec (a budget of 1024 bytes, the fraction 0.9): the
    cap is 921.6, so the boundary is 922.  Requests of 920 bytes and of one
    byte are granted and the byte after them is refused; a request of 920
    bytes for which the segment manager has only 512 bytes of room ends in
    [bad_alloc]. *)
Lemma requestSHM_budget_boundary_witness :
  let cap := Double.mul (Double.of_size_t (shmSize_ (this sample_budget_1024))) frac_0_9 in
  default [] (buffers (shm_pool (shm_ sample_budget_1024)) !! 920) = [] ∧
  Double.ltb (Double.of_size_t (922 - 1)) cap = true ∧
  Double.ltb (Double.of_size_t 922) cap = false ∧
  (∃ bs st1,
     requestSHM_seq frac_0_9 [mkAsk 920 4096 true; mkAsk 1 4096 true] sample_budget_1024
       = Returns bs st1 ∧
     length bs = 2%nat ∧
     Forall (λ b, cb_is_null b = false) bs ∧
     allocated (shm_pool (shm_ st1)) = 922 - 1 ∧
     ∀ room1 wrapper1,
       returned (requestSHM_outcome frac_0_9 room1 wrapper1 1 st1) = Some CpuBuffer_empty) ∧
  returned (requestSHM_outcome frac_0_9 512 true 920 sample_budget_1024) = None.
Proof.
  intros cap.
  assert (Hbelow : Double.ltb (Double.of_size_t (922 - 1)) cap = true) by (vm_compute; reflexivity).
  assert (Hat : Double.ltb (Double.of_size_t 922) cap = false) by (vm_compute; reflexivity).
  split; [reflexivity|]. split; [exact Hbelow|]. split; [exact Hat|].
  destruct (requestSHM_budget_boundary frac_0_9 512 true 920 sample_budget_1024 eq_refl)
    as (_ & Hthrown & _ & Hboundary & _).
  split.
  - destruct (Hboundary 922 ltac:(lia) Hbelow Hat) as [_ Hseq].
    apply (Hseq [mkAsk 920 4096 true; mkAsk 1 4096 true] sample_budget_1024_quiet).
    + reflexivity.
    + repeat constructor; cbn; lia.
    + repeat constructor; cbn; lia.
    + reflexivity.
  - apply Hthrown; [vm_compute; reflexivity|lia].
Defined.

(** C2 (counterexample).  Scenario S2 of the spec: a budget of 1024 bytes
    and the fraction 0.9, for which the spec gives the cap 921.  After a
    request of 920 bytes, the cap minus one, a request of one byte is
    granted, since the total 921 is below 921.6; only the byte after it is
    refused.  And the sum is taken in [size_t]: with 512 bytes allocated a
    request of [2^64 - 512] bytes passes the test, the sum having wrapped to
    0, although [allocated + n] is far beyond the cap; the segment manager,
    with room for 1 MiB, cannot serve the block, and the call ends in
    [bad_alloc] and not with the empty handle. *)
Lemma granted_at_the_cap_and_bad_alloc_beyond :
  let three := requestSHM_seq frac_0_9
                 [mkAsk 920 1048576 true; mkAsk 1 1048576 true; mkAsk 1 1048576 true]
                 sample_budget_1024 in
  let huge := requestSHM_outcome frac_0_9 1048576 true (2 ^ 64 - 512) sample_small_budget in
  returned three = Some [mkCpuBuffer (shm_addr 1) del_destroyLocal;
                         mkCpuBuffer (shm_addr 3) del_destroyLocal;
                         CpuBuffer_empty] ∧
  allocated (shm_pool (shm_ (state_after three))) = 921 ∧
  sizes (shm_pool (shm_ (state_after three))) !! 3 = Some 1 ∧
  allocated (shm_pool (shm_ sample_small_budget)) = 512 ∧
  shmSize_ (this sample_small_budget) = 1024 ∧
  shm_budget_ok frac_0_9 512 (2 ^ 64 - 512) 1024 = true ∧
  returned huge = None ∧
  allocated (shm_pool (shm_ (state_after huge))) = 512.
Proof. vm_compute. by repeat split. Qed.

(** ** The pool invariant along a run *)

Lemma pool_wf_after_pop n l' off st :
  pool_wf st →
  default [] (buffers (shm_pool (shm_ st)) !! n) = l' ++ [off] →
  pool_wf (after_pop n l' st) ∧ ready n off (after_pop n l' st).
Proof.
  intros (Hfree & Hnodup & Hfresh) Hl.
  assert (Hoff : off ∈ default [] (buffers (shm_pool (shm_ st)) !! n))
    by (rewrite Hl; apply elem_of_app; right; by left).
  destruct (Hfree n off Hoff) as (Hsz & Hp & Hlt).
  assert (Hsub : ∀ m o, o ∈ default [] (buffers (shm_pool (shm_ (after_pop n l' st))) !! m) →
                        o ∈ default [] (buffers (shm_pool (shm_ st)) !! m) ∧ (m = n → o ∈ l')).
  { intros m o. unfold after_pop. cbn [shm_ on_shm shm_pool set_pool set_buffers buffers].
    destruct (decide (n = m)) as [->|Hne].
    - rewrite lookup_insert_eq. cbn [default]. intros Ho. split; [|done].
      rewrite Hl. apply elem_of_app. by left.
    - rewrite lookup_insert_ne by done. intros Ho. split; [done|]. congruence. }
  split; [split; [|split]|].
  - intros m o Ho. apply Hsub in Ho as [Ho _]. exact (Hfree m o Ho).
  - intros m. unfold after_pop. cbn [shm_ on_shm shm_pool set_pool set_buffers buffers].
    destruct (decide (n = m)) as [->|Hne].
    + rewrite lookup_insert_eq. cbn [default]. specialize (Hnodup m). rewrite Hl in Hnodup.
      by apply NoDup_app in Hnodup as (? & _).
    + rewrite lookup_insert_ne by done. apply Hnodup.
  - exact Hfresh.
  - split; [exact Hp|]. split; [exact Hsz|]. split; [exact Hlt|].
    intros m Ho. apply Hsub in Ho as [Ho Hn].
    destruct (decide (m = n)) as [->|Hne].
    + specialize (Hnodup n). rewrite Hl in Hnodup.
      apply NoDup_app in Hnodup as (_ & Hdisj & _). apply (Hdisj off (Hn eq_refl)). by left.
    + destruct (Hfree m off Ho) as (Hsz' & _). congruence.
Qed.

Lemma pool_wf_after_alloc n st :
  pool_wf st →
  pool_wf (after_alloc n st) ∧ ready n (shm_next (shm_ st)) (after_alloc n st).
Proof.
  intros (Hfree & Hnodup & Hfresh).
  destruct (Hfresh (shm_next (shm_ st))) as [Hsz Hp]; [lia|].
  assert (Hsub : ∀ m o, o ∈ default [] (buffers (shm_pool (shm_ (after_alloc n st))) !! m) →
                        o ∈ default [] (buffers (shm_pool (shm_ st)) !! m)).
  { intros m o. unfold after_alloc. cbn [shm_ shm_pool set_pool buffers].
    destruct (decide (n = m)) as [->|Hne].
    - rewrite lookup_insert_eq. cbn [default]. intros Ho. by apply elem_of_nil in Ho.
    - by rewrite lookup_insert_ne by done. }
  assert (Hsizes : sizes (shm_pool (shm_ (after_alloc n st)))
                   = <[shm_next (shm_ st) := n]> (sizes (shm_pool (shm_ st)))).
  { unfold after_alloc. cbn [shm_ shm_pool set_pool sizes]. unfold emplace. by rewrite Hsz. }
  split; [split; [|split]|].
  - intros m o Ho. apply Hsub in Ho. destruct (Hfree m o Ho) as (Hsz' & Hp' & Hlt).
    rewrite Hsizes, lookup_insert_ne by lia. split; [done|]. split; [done|].
    unfold after_alloc. cbn [shm_ shm_next set_pool set_bytes set_next]. lia.
  - intros m. unfold after_alloc. cbn [shm_ shm_pool set_pool buffers].
    destruct (decide (n = m)) as [->|Hne].
    + rewrite lookup_insert_eq. apply NoDup_nil_2.
    + rewrite lookup_insert_ne by done. apply Hnodup.
  - intros o Ho. unfold after_alloc in Ho. cbn [shm_ shm_next set_pool set_bytes set_next] in Ho.
    rewrite Hsizes, lookup_insert_ne by lia. apply Hfresh. lia.
  - split; [exact Hp|]. split; [by rewrite Hsizes, lookup_insert_eq|]. split.
    + unfold after_alloc. cbn [shm_ shm_next set_pool set_bytes set_next]. lia.
    + intros m Ho. apply Hsub in Ho. destruct (Hfree m _ Ho) as (_ & _ & Hlt). lia.
Qed.

Lemma held_ok_after_pop n l' st h :
  (∀ o, o ∈ l' → o ∈ default [] (buffers (shm_pool (shm_ st)) !! n)) →
  held_ok st h → held_ok (after_pop n l' st) h.
Proof.
  intros Hsub (off & c & k & -> & Hp & Hc & Hsz & Hlt & Hclt & Hout).
  exists off, c, k. repeat split; try done.
  intros m. unfold after_pop. cbn [shm_ on_shm shm_pool set_pool set_buffers buffers].
  destruct (decide (n = m)) as [->|Hne].
  - rewrite lookup_insert_eq. cbn [default]. intros Ho. by apply (Hout m), Hsub.
  - rewrite lookup_insert_ne by done. apply Hout.
Qed.

Lemma held_ok_after_alloc n st h :
  pool_wf st → held_ok st h → held_ok (after_alloc n st) h.
Proof.
  intros (_ & _ & Hfresh) (off & c & k & -> & Hp & Hc & Hsz & Hlt & Hclt & Hout).
  exists off, c, k. unfold after_alloc.
  cbn [shm_ this shm_pool shm_ctl shm_next set_pool set_bytes set_next sizes buffers].
  split; [done|]. split; [done|]. split; [done|]. split.
  - unfold emplace. destruct (sizes (shm_pool (shm_ st)) !! shm_next (shm_ st)); [done|].
    by rewrite lookup_insert_ne by lia.
  - split; [lia|]. split; [lia|]. intros m.
    destruct (decide (n = m)) as [->|Hne].
    + rewrite lookup_insert_eq. apply not_elem_of_nil.
    + rewrite lookup_insert_ne by done. apply Hout.
Qed.

Lemma hand_out n off st :
  pool_wf st → ready n off st →
  let r := requestSHM_share off (get_address_from_handle off) st in
  pool_wf r.2 ∧ held_ok r.2 r.1 ∧
  ∀ h, held_ok st h → cb_ptr h ≠ shm_addr off → held_ok r.2 h.
Proof.
  intros (Hfree & Hnodup & Hfresh) (Hp & Hsz & Hlt & Hout). cbv zeta.
  destruct (requestSHM_share_fresh_pool off st Hp) as (Hpool & _ & Hnext & Hptrs & Hctl).
  rewrite requestSHM_share_result.
  split; [split; [|split]|split].
  - intros m o Ho. rewrite Hpool in Ho. destruct (Hfree m o Ho) as (Hsz' & Hp' & Hlt').
    rewrite Hpool, Hptrs, Hnext. split; [done|]. split; [|lia].
    rewrite lookup_insert_ne; [done|]. intros [= ->]. by apply (Hout m).
  - intros m. rewrite Hpool. apply Hnodup.
  - intros o Ho. rewrite Hnext in Ho. destruct (Hfresh o) as [Hsz' Hp']; [lia|].
    rewrite Hpool, Hptrs. split; [done|]. rewrite lookup_insert_ne; [done|]. intros [= ->]. lia.
  - exists off, (shm_next (shm_ st)), n. rewrite Hpool, Hptrs, Hctl, Hnext.
    rewrite !lookup_insert_eq. repeat split; try done; lia.
  - intros h (off' & c & k & -> & Hp' & Hc & Hsz' & Hlt' & Hclt & Hout') Hne.
    cbn [cb_ptr] in Hne. exists off', c, k. rewrite Hpool, Hptrs, Hctl, Hnext.
    rewrite !lookup_insert_ne by (try lia; congruence).
    repeat split; try done; lia.
Qed.

Lemma drop_step st held i b :
  pool_inv (st, held) → held !! i = Some b →
  pool_inv (CpuBuffer_drop b st, delete i held).
Proof.
  intros ((Hfree & Hnodup & Hfresh) & Hheld & Hdistinct) Hi. cbn [fst snd] in *.
  pose proof (Forall_lookup_1 _ _ _ _ Hheld Hi) as (off & c & n & -> & Hp & Hc & Hsz & Hlt & Hclt & Hout).
  destruct (CpuBuffer_drop_last (mkCpuBuffer (shm_addr off) del_destroyLocal) st off c off n
              eq_refl Hp Hc Hsz) as [Heq Hbuf].
  destruct (CpuBuffer_drop_frame (mkCpuBuffer (shm_addr off) del_destroyLocal) st)
    as (Hframe & _ & Hnext & _ & _).
  destruct (Hframe CpuPool) as [_ Hsizes]. cbn [get_pool] in Hsizes.
  set (st' := CpuBuffer_drop _ st) in *.
  assert (Hptrs : ptrs_ (this st') = delete (shm_addr off) (ptrs_ (this st))) by by rewrite Heq.
  assert (Hctl : shm_ctl (shm_ st') = delete c (shm_ctl (shm_ st))).
  { rewrite Heq. cbn [shm_].
    by destruct (ReclaimerIPC_frame CpuPool off (set_ctl (delete c (shm_ctl (shm_ st))) (shm_ st)))
      as (_ & _ & _ & _ & _ & _ & ->). }
  assert (Hlists : ∀ m o, o ∈ default [] (buffers (shm_pool (shm_ st')) !! m) →
                          o ∈ default [] (buffers (shm_pool (shm_ st)) !! m) ∨ (m = n ∧ o = off)).
  { intros m o. rewrite Hbuf. destruct (decide (n = m)) as [->|Hne].
    - rewrite lookup_insert_eq. cbn [default]. intros Ho.
      apply elem_of_app in Ho as [Ho|Ho]; [by left|].
      apply list_elem_of_singleton in Ho. by right.
    - rewrite lookup_insert_ne by done. by left. }
  split; [split; [|split]|split]; cbn [fst snd].
  - intros m o Ho. rewrite Hsizes, Hptrs, Hnext.
    apply Hlists in Ho as [Ho|[-> ->]].
    + destruct (Hfree m o Ho) as (? & Hnone & ?). repeat split; try done.
      apply lookup_delete_None. by right.
    + repeat split; try done. apply lookup_delete_eq.
  - intros m. rewrite Hbuf. destruct (decide (n = m)) as [->|Hne].
    + rewrite lookup_insert_eq. cbn [default]. apply NoDup_app. split; [apply Hnodup|].
      split; [|apply NoDup_singleton]. intros o Ho Hin. apply list_elem_of_singleton in Hin as ->.
      by apply (Hout m).
    + rewrite lookup_insert_ne by done. apply Hnodup.
  - intros o Ho. rewrite Hnext in Ho. destruct (Hfresh o Ho) as [? Hnone].
    rewrite Hsizes, Hptrs. split; [done|]. apply lookup_delete_None. by right.
  - apply Forall_forall. intros h Hh.
    apply list_elem_of_lookup in Hh as [j Hj].
    assert (Hji : (if decide (j < i)%nat then j else S j) ≠ i) by (case_decide; lia).
    assert (Hjh : held !! (if decide (j < i)%nat then j else S j) = Some h)
      by by rewrite <- list_lookup_delete.
    pose proof (Forall_lookup_1 _ _ _ _ Hheld Hjh)
      as (off' & c' & k & -> & Hp' & Hc' & Hsz' & Hlt' & Hclt' & Hout').
    assert (Hoff : off' ≠ off).
    { intros ->. apply Hji. eapply NoDup_lookup; [exact Hdistinct| |].
      - rewrite list_lookup_fmap, Hjh. done.
      - rewrite list_lookup_fmap, Hi. done. }
    assert (Hcc : c' ≠ c) by (intros ->; rewrite Hc in Hc'; congruence).
    exists off', c', k. rewrite Hsizes, Hptrs, Hctl, Hnext.
    rewrite !lookup_delete_ne by congruence. repeat split; try done.
    intros m Ho. apply Hlists in Ho as [Ho|[_ ?]]; [by apply (Hout' m)|done].
  - apply (sublist_NoDup _ (cb_ptr <$> held)); [done|].
    apply fmap_sublist, sublist_delete.
Qed.

Lemma pool_wf_after_miss n st :
  pool_wf st → pool_wf (after_pop n [] st).
Proof.
  intros (Hfree & Hnodup & Hfresh).
  assert (Hsub : ∀ m o, o ∈ default [] (buffers (shm_pool (shm_ (after_pop n [] st))) !! m) →
                        o ∈ default [] (buffers (shm_pool (shm_ st)) !! m)).
  { intros m o. unfold after_pop. cbn [shm_ on_shm shm_pool set_pool set_buffers buffers].
    destruct (decide (n = m)) as [->|Hne].
    - rewrite lookup_insert_eq. cbn [default]. intros Ho. by apply elem_of_nil in Ho.
    - by rewrite lookup_insert_ne by done. }
  split; [|split].
  - intros m o Ho. apply Hsub in Ho. exact (Hfree m o Ho).
  - intros m. unfold after_pop. cbn [shm_ on_shm shm_pool set_pool set_buffers buffers].
    destruct (decide (n = m)) as [->|Hne].
    + rewrite lookup_insert_eq. apply NoDup_nil_2.
    + rewrite lookup_insert_ne by done. apply Hnodup.
  - exact Hfresh.
Qed.

Lemma request_step FRAC n st held :
  pool_inv (st, held) → pool_inv (step FRAC (st, held) (op_request n)).
Proof.
  intros (Hwf & Hheld & Hdistinct). cbn [fst snd step] in *.
  assert (Hgrow : ∀ off st0,
    requestSHM FRAC n st = requestSHM_share off (get_address_from_handle off) st0 →
    pool_wf st0 → ready n off st0 → Forall (held_ok st0) held →
    (∀ h, h ∈ held → cb_ptr h ≠ shm_addr off) →
    pool_inv (let '(b, st') := requestSHM FRAC n st in
              (st', if cb_is_null b then held else b :: held))).
  { intros off st0 Heq Hwf0 Hready Hheld0 Hne. rewrite Heq.
    destruct (hand_out n off st0 Hwf0 Hready) as (Hwf' & Hnew & Hold).
    pose proof (requestSHM_share_result off (get_address_from_handle off) st0) as Hres.
    destruct (requestSHM_share _ _ st0) as [b st']. cbn [fst snd] in *. subst b.
    cbn [cb_is_null cb_ptr get_address_from_handle].
    split; [exact Hwf'|]. cbn [fst snd]. split.
    - constructor; [exact Hnew|]. apply Forall_forall. intros h Hh.
      apply Hold; [|by apply Hne]. by apply (proj1 (Forall_forall _ _) Hheld0).
    - cbn [fmap list_fmap cb_ptr]. apply NoDup_cons. split; [|exact Hdistinct].
      intros Hin. apply list_elem_of_fmap in Hin as (h & Hh & Hin). by apply (Hne h Hin). }
  destruct (requestSHM_cases FRAC n st) as [(l' & off & Hl & Heq)|[(Hl & _ & Heq)|(Hl & _ & Heq)]].
  - destruct (pool_wf_after_pop n l' off st Hwf Hl) as [Hwf0 Hready].
    apply (Hgrow off _ Heq Hwf0 Hready).
    + apply Forall_forall. intros h Hh. apply held_ok_after_pop.
      * intros o Ho. rewrite Hl. apply elem_of_app. by left.
      * by apply (proj1 (Forall_forall _ _) Hheld).
    + intros h Hh Hptr.
      destruct (proj1 (Forall_forall _ _) Hheld h Hh) as (off' & c & k & -> & _ & _ & _ & _ & _ & Hout).
      cbn [cb_ptr] in Hptr. injection Hptr as ->. apply (Hout n). rewrite Hl.
      apply elem_of_app. right. by left.
  - destruct (pool_wf_after_alloc n st Hwf) as [Hwf0 Hready].
    apply (Hgrow _ _ Heq Hwf0 Hready).
    + apply Forall_forall. intros h Hh. apply held_ok_after_alloc; [done|].
      by apply (proj1 (Forall_forall _ _) Hheld).
    + intros h Hh Hptr.
      destruct (proj1 (Forall_forall _ _) Hheld h Hh) as (off' & c & k & -> & _ & _ & _ & Hlt & _).
      cbn [cb_ptr] in Hptr. injection Hptr as ->. lia.
  - rewrite Heq. cbn [cb_is_null CpuBuffer_empty cb_ptr]. split; [|split]; cbn [fst snd].
    + by apply pool_wf_after_miss.
    + apply Forall_forall. intros h Hh. apply held_ok_after_pop.
      * intros o Ho. by apply elem_of_nil in Ho.
      * by apply (proj1 (Forall_forall _ _) Hheld).
    + exact Hdistinct.
Qed.

Lemma step_inv FRAC cfg op : pool_inv cfg → pool_inv (step FRAC cfg op).
Proof.
  destruct cfg as [st held]. intros Hinv. destruct op as [n|i].
  - by apply request_step.
  - cbn [step fst snd]. destruct (held !! i) as [b|] eqn:Hi; [|done]. by apply drop_step.
Qed.

Lemma run_inv FRAC ops cfg : pool_inv cfg → pool_inv (run FRAC ops cfg).
Proof.
  revert cfg. induction ops as [|op ops IH]; intros cfg Hinv; [done|].
  cbn [run foldl]. apply IH. by apply step_inv.
Qed.

(** X1. Invariant 2 of the spec holds in every state a process reaches from
    a fresh attach to a new segment by requests to the CPU pool and drops of
    the buffers it holds: every free-listed offset is registered with the
    size of its list, has no local handle and occurs once; every buffer held
    has its entry in [ptrs_], is the only owner of its block and is on no
    free-list. *)
Theorem pool_wf_reachable
    (FRAC : spec_float) (alive : Z → bool) (pid : Z) (vkActive : bool)
    (shmSize shmGPUSize : Z) (enableAuditor : bool) (ops : list Op) :
  pool_inv (run FRAC ops
              (MemoryPoolIPCHybrid_ctor alive pid vkActive ManagedSHM_new shmSize shmGPUSize
                 enableAuditor, [])).
Proof.
  apply run_inv. split; [|split]; cbn [fst snd].
  - unfold MemoryPoolIPCHybrid_ctor.
    destruct (audit _ _); [destruct enableAuditor|]; by apply pool_wf_fresh.
  - constructor.
  - constructor.
Qed.

(** ** The validity flag is sticky *)

Lemma sp_release_auditor w s : shm_auditor (sp_release w s) = shm_auditor s.
Proof. by destruct (sp_release_frame w s) as (_ & -> & _). Qed.

Lemma sp_copy_auditor w s : shm_auditor (sp_copy w s) = shm_auditor s.
Proof. by destruct (sp_copy_frame w s) as (_ & -> & _). Qed.

Lemma release_all_auditor `{Countable K} (m : gmap K SharedPtr) s :
  shm_auditor (release_all m s) = shm_auditor s.
Proof.
  unfold release_all.
  apply (map_fold_weak_ind (λ r _, shm_auditor r = shm_auditor s)); [done|].
  intros k w m' r _ IH. by rewrite sp_release_auditor.
Qed.

Lemma getBufferFromPool_auditor FRAC id n st :
  shm_auditor (shm_ (getBufferFromPool FRAC id n st).2) = shm_auditor (shm_ st).
Proof.
  rewrite getBufferFromPool_cases. pose proof (requestSHM_auditor FRAC n st) as Haud.
  destruct (stream_shared id st); [|done]. by destruct (cb_is_null _).
Qed.

Lemma createLocal_auditor w st :
  shm_auditor (shm_ (createLocal w st).2) = shm_auditor (shm_ st).
Proof. unfold createLocal. cbn [snd shm_]. by rewrite sp_release_auditor, sp_copy_auditor. Qed.

Lemma CpuBuffer_drop_auditor b st :
  shm_auditor (shm_ (CpuBuffer_drop b st)) = shm_auditor (shm_ st).
Proof. by destruct (CpuBuffer_drop_frame b st) as (_ & -> & _). Qed.

Lemma convert_auditor b st : shm_auditor (shm_ (convert b st).2) = shm_auditor (shm_ st).
Proof.
  unfold convert. destruct (ptrs_ (this st) !! cb_ptr b); [|done].
  cbn [snd on_shm shm_]. apply sp_copy_auditor.
Qed.

Lemma convert_gpu_auditor b st : shm_auditor (shm_ (convert_gpu b st).2) = shm_auditor (shm_ st).
Proof.
  unfold convert_gpu. destruct (gb_data b) as [d|]; [|done].
  destruct (handlesGPU_ (this st) !! handle d); [|done].
  cbn [snd on_shm shm_]. apply sp_copy_auditor.
Qed.

Lemma isBufferFromPool_auditor buf st :
  shm_auditor (shm_ (isBufferFromPool buf st).2) = shm_auditor (shm_ st).
Proof.
  unfold isBufferFromPool.
  destruct buf as [b|b];
    [pose proof (convert_auditor b st) as Hc; destruct (convert b st) as [w st1]
    |pose proof (convert_gpu_auditor b st) as Hc; destruct (convert_gpu b st) as [w st1]];
    cbn [snd on_shm shm_] in *; by rewrite sp_release_auditor.
Qed.

Lemma getBufferFromSharedPoolDirect_auditor FRAC n st :
  shm_auditor (shm_ (getBufferFromSharedPoolDirect FRAC n st).2) = shm_auditor (shm_ st).
Proof.
  rewrite getBufferFromSharedPoolDirect_unfold. cbn [snd].
  by rewrite CpuBuffer_drop_auditor, convert_auditor, requestSHM_auditor.
Qed.

Lemma findBuffer_auditor n k st :
  shm_auditor (shm_ (findBuffer n k st).2) = shm_auditor (shm_ st).
Proof. unfold findBuffer. destruct (findBuffer_scan _ _ _) as [[? ?]|]; by destruct k. Qed.

Lemma getGpuBufferFromPool_share_auditor k off dl st :
  shm_auditor (shm_ (getGpuBufferFromPool_share k off dl st).2) = shm_auditor (shm_ st).
Proof.
  unfold getGpuBufferFromPool_share, sp_construct.
  destruct (handlesGPU_ (this st) !! _); destruct dl;
    try (match goal with |- context [subscript ?x ?y ?m] => destruct (subscript x y m) end);
    cbn [snd shm_]; by rewrite sp_release_auditor, ?sp_copy_auditor.
Qed.

Lemma getGpuBufferFromPool_auditor alloc n dl st :
  shm_auditor (shm_ (getGpuBufferFromPool alloc n dl st).2) = shm_auditor (shm_ st).
Proof.
  unfold getGpuBufferFromPool. destruct (negb _); [done|].
  pose proof (findBuffer_auditor n (if dl then GpuDeviceLocalPool else GpuPool) st) as Hfind.
  destruct (findBuffer _ _ st) as [[[off p]|] st1]; cbn [snd] in Hfind.
  - by rewrite getGpuBufferFromPool_share_auditor.
  - destruct (_ <? _); [|done]. destruct (_ =? _); [done|].
    unfold construct_gpu. rewrite getGpuBufferFromPool_share_auditor. cbn [shm_].
    rewrite <- Hfind. by destruct dl.
Qed.

Lemma createLocal_gpu_auditor os w st :
  shm_auditor (shm_ (createLocal_gpu os w st).2) = shm_auditor (shm_ st).
Proof.
  unfold createLocal_gpu.
  destruct (match gpuHandleProcMap_ (this st) !! _ with Some nh => Some nh | None => _ end);
    [|done].
  match goal with |- context [subscript ?x ?y ?m] => destruct (subscript x y m) end.
  cbn [snd shm_]. by rewrite sp_release_auditor, sp_copy_auditor.
Qed.

Lemma GpuBuffer_drop_auditor b st :
  shm_auditor (shm_ (GpuBuffer_drop b st)) = shm_auditor (shm_ st).
Proof.
  unfold GpuBuffer_drop, destroyLocal_gpu.
  destruct (gb_del b), (gb_data b) as [d|]; try done;
    destruct (handlesGPU_ (this st) !! handle d); try done;
    cbn [shm_]; apply sp_release_auditor.
Qed.

Lemma cleanPool_auditor k c st :
  shm_auditor (shm_ (cleanPool k c st)) = shm_auditor (shm_ st).
Proof.
  unfold cleanPool.
  destruct (vk_active (vulkanUtil_ (this st))).
  - match goal with |- context [map_fold ?f ?b ?m] =>
      assert (Hfold : shm_auditor (map_fold f b m).2 = shm_auditor (shm_ st));
      [|destruct (map_fold f b m) as [v s']] end.
    { apply (map_fold_weak_ind (λ (r : VulkanUtil * ManagedSHM) _,
               shm_auditor r.2 = shm_auditor (shm_ st))); [done|].
      intros _ ptrlist _ r _. revert r.
      induction ptrlist as [|buffer rest IH]; intros r Hr; [done|].
      cbn [foldl]. apply IH. unfold cleanPool_entry. by destruct (bool_decide _). }
    cbn [snd shm_] in *. rewrite <- Hfold. by destruct k.
  - by destruct k.
Qed.

Lemma destroy_all_auditor (m : gmap Z (list Z)) s :
  shm_auditor
    (map_fold (λ _ ptrlist acc, foldl (λ acc' buffer, destroy_ptr buffer acc') acc ptrlist) s m)
  = shm_auditor s.
Proof.
  apply (map_fold_weak_ind (λ r _, shm_auditor r = shm_auditor s)); [done|].
  intros _ ptrlist _ r _. revert r.
  induction ptrlist as [|buffer rest IH]; intros r Hr; [done|]. cbn [foldl]. by apply IH.
Qed.

Lemma dtor_invalid_kept st : invalid_kept st (MemoryPoolIPCHybrid_dtor st).
Proof.
  unfold invalid_kept, MemoryPoolIPCHybrid_dtor. cbv zeta. intros Hinv.
  cbn [shm_ on_this]. rewrite !cleanPool_auditor. cbn [shm_]. rewrite release_all_auditor.
  destruct (if force_clean_ _ then _ else _) as [|p procs]; cbn [shm_ on_shm this].
  - cbn [shm_auditor set_pool]. by rewrite destroy_all_auditor.
  - cbn [shm_auditor set_auditor invalid shm_ on_this]. by rewrite release_all_auditor.
Qed.

Lemma ctor_invalid_kept alive pid vk shm sz gsz en :
  invalid (shm_auditor shm) = true →
  invalid (shm_auditor (shm_ (MemoryPoolIPCHybrid_ctor alive pid vk shm sz gsz en))) = true.
Proof.
  intros Hinv. unfold MemoryPoolIPCHybrid_ctor, audit, isValid. cbn [shm_]. by rewrite Hinv.
Qed.

Lemma requestSHM_share_auditor off p st :
  shm_auditor (shm_ (requestSHM_share off p st).2) = shm_auditor (shm_ st).
Proof.
  unfold requestSHM_share, sp_construct.
  destruct (ptrs_ (this st) !! p); cbn [snd shm_];
    by rewrite sp_release_auditor, ?sp_copy_auditor.
Qed.

Lemma requestSHM_outcome_auditor FRAC room wrapper n st :
  shm_auditor (shm_ (state_after (requestSHM_outcome FRAC room wrapper n st)))
  = shm_auditor (shm_ st).
Proof.
  assert (Hshare : ∀ off p st0,
    shm_auditor (shm_ (state_after (requestSHM_share_outcome wrapper off p st0)))
    = shm_auditor (shm_ st0)).
  { intros off p st0. unfold requestSHM_share_outcome. destruct wrapper; [|done].
    pose proof (requestSHM_share_auditor off p st0) as Hs.
    by destruct (requestSHM_share off p st0). }
  destruct (requestSHM_outcome_cases FRAC room wrapper n st)
    as [(l' & off & _ & ->)|[(_ & _ & _ & ->)|[(_ & _ & _ & ->)|(_ & _ & ->)]]];
    rewrite ?Hshare; done.
Qed.

(** X2. The [invalid] flag is sticky under the operations of an attached
    pool object (invariant 4 of the spec): the constructor, the requests
    (whether they return or end in [bad_alloc]), the conversions, the drops,
    [cleanPool] and the destructor never clear it.  What clears it is the
    static [nuke]: it destroys the auditor, and the auditor found afterwards
    is a new one with the flag clear.  The liveness thread, which hands the
    segment to [Framework::nuke], is not among these operations. *)
Theorem invalid_flag_sticky_until_nuke :
  (∀ alive pid vkActive shm shmSize shmGPUSize enableAuditor,
     invalid (shm_auditor shm) = true →
     invalid (shm_auditor (shm_ (MemoryPoolIPCHybrid_ctor alive pid vkActive shm shmSize
                                   shmGPUSize enableAuditor))) = true) ∧
  (∀ FRAC n st, invalid_kept st (requestSHM FRAC n st).2) ∧
  (∀ FRAC room wrapper n st,
     invalid_kept st (state_after (requestSHM_outcome FRAC room wrapper n st))) ∧
  (∀ FRAC id n st, invalid_kept st (getBufferFromPool FRAC id n st).2) ∧
  (∀ FRAC n st, invalid_kept st (getBufferFromSharedPoolDirect FRAC n st).2) ∧
  (∀ w st, invalid_kept st (createLocal w st).2) ∧
  (∀ b st, invalid_kept st (CpuBuffer_drop b st)) ∧
  (∀ b st, invalid_kept st (convert b st).2) ∧
  (∀ b st, invalid_kept st (convert_gpu b st).2) ∧
  (∀ buf st, invalid_kept st (isBufferFromPool buf st).2) ∧
  (∀ id active st, invalid_kept st (activateStream id active st)) ∧
  (∀ alloc n deviceLocal st, invalid_kept st (getGpuBufferFromPool alloc n deviceLocal st).2) ∧
  (∀ os w st, invalid_kept st (createLocal_gpu os w st).2) ∧
  (∀ b st, invalid_kept st (GpuBuffer_drop b st)) ∧
  (∀ k clearAllocations st, invalid_kept st (cleanPool k clearAllocations st)) ∧
  (∀ st, invalid_kept st (MemoryPoolIPCHybrid_dtor st)) ∧
  (∀ shm, (nuke shm).1 = true ∧ invalid (shm_auditor (nuke shm).2) = false).
Proof.
  unfold invalid_kept.
  split; [apply ctor_invalid_kept|].
  split; [intros FRAC n st; by rewrite requestSHM_auditor|].
  split; [intros FRAC room wrapper n st; by rewrite requestSHM_outcome_auditor|].
  split; [intros FRAC id n st; by rewrite getBufferFromPool_auditor|].
  split; [intros FRAC n st; by rewrite getBufferFromSharedPoolDirect_auditor|].
  split; [intros w st; by rewrite createLocal_auditor|].
  split; [intros b st; by rewrite CpuBuffer_drop_auditor|].
  split; [intros b st; by rewrite convert_auditor|].
  split; [intros b st; by rewrite convert_gpu_auditor|].
  split; [intros buf st; by rewrite isBufferFromPool_auditor|].
  split; [intros id active st Hinv; exact Hinv|].
  split; [intros alloc n dl st; by rewrite getGpuBufferFromPool_auditor|].
  split; [intros os w st; by rewrite createLocal_gpu_auditor|].
  split; [intros b st; by rewrite GpuBuffer_drop_auditor|].
  split; [intros k c st; by rewrite cleanPool_auditor|].
  split; [apply dtor_invalid_kept|].
  intros shm. done.
Qed.

(** X3. [createLocal(w)] yields a buffer whose [convert] is [w]; in
    particular [createLocal(convert(b))] yields a buffer whose [convert]
    equals [convert(b)] (a round trip of the spec). *)
Theorem createLocal_convert_round_trip :
  (∀ w st, (convert (createLocal w st).1 (createLocal w st).2).1 = w) ∧
  (∀ b st,
     (convert (createLocal (convert b st).1 (convert b st).2).1
              (createLocal (convert b st).1 (convert b st).2).2).1
     = (convert b st).1).
Proof.
  assert (Hround : ∀ w st, (convert (createLocal w st).1 (createLocal w st).2).1 = w).
  { intros w st. unfold convert. by rewrite createLocal_entry. }
  split; [exact Hround|]. intros b st. apply Hround.
Qed.

(** X4. [activateStream(s, x); activateStream(s, x)] is idempotent. *)
Theorem activateStream_idempotent (s : string) (x : bool) (st : State) :
  activateStream s x (activateStream s x st) = activateStream s x st.
Proof.
  unfold activateStream, on_this. cbn [shm_ this activatedStreams_ set_activatedStreams].
  by rewrite insert_insert_eq.
Qed.

(** ** The audit *)

Lemma processesAlive_loop_Forall alive l :
  processesAlive_loop alive l = true ↔ Forall (λ p, alive (proc_pid p) = true) l.
Proof.
  induction l as [|p l IH]; cbn [processesAlive_loop]; [by split|].
  unfold isAlive. destruct (alive (proc_pid p)) eqn:Hp; cbn [negb].
  - rewrite IH. split; [by constructor|by inversion 1].
  - split; [done|]. inversion 1; congruence.
Qed.

Lemma audit_true_iff alive st :
  audit alive st = true ↔
  invalid (shm_auditor (shm_ st)) = false ∧
  Forall (λ p, alive (proc_pid p) = true) (processes (shm_auditor (shm_ st))).
Proof.
  unfold audit, isValid, processesAlive. rewrite andb_true_iff, negb_true_iff.
  by rewrite processesAlive_loop_Forall.
Qed.

Lemma audit_false_iff alive st :
  audit alive st = false ↔
  invalid (shm_auditor (shm_ st)) = true ∨
  Exists (λ p, alive (proc_pid p) = false) (processes (shm_auditor (shm_ st))).
Proof.
  rewrite <- not_true_iff_false, audit_true_iff.
  destruct (invalid _); split.
  - by left.
  - by intros _ [? _].
  - intros H. right.
    assert (Hn : ¬ Forall (λ p, alive (proc_pid p) = true) (processes (shm_auditor (shm_ st))))
      by (intros Hall; by apply H).
    apply not_Forall_Exists in Hn; [|solve_decision].
    eapply Exists_impl; [exact Hn|]. intros p Hp. cbn in Hp. by apply not_true_iff_false.
  - intros [?|H] [_ Hall]; [done|]. apply Exists_exists in H as (p & Hin & Hp).
    rewrite Forall_forall in Hall. specialize (Hall p Hin). congruence.
Qed.

(** ** Folds over the free-lists *)

Lemma fold_lists_inv {B} (P : B → Prop) (f : B → Z → B) (m : gmap Z (list Z)) (b : B) :
  P b →
  (∀ acc n l x, m !! n = Some l → x ∈ l → P acc → P (f acc x)) →
  P (map_fold (λ _ ptrlist acc, foldl f acc ptrlist) b m).
Proof.
  intros Hb Hstep. rewrite map_fold_foldr.
  assert (Hall : ∀ nl, nl ∈ map_to_list m → m !! nl.1 = Some nl.2).
  { intros [n l] Hin. by apply elem_of_map_to_list in Hin. }
  induction (map_to_list m) as [|[n l] rest IH]; cbn [foldr]; [done|].
  cbn [uncurry].
  assert (Hl : m !! n = Some l) by (apply (Hall (n, l)); by left).
  assert (Hrest : P (foldr (uncurry (λ _ ptrlist acc, foldl f acc ptrlist)) b rest)).
  { apply IH. intros nl Hin. apply Hall. by right. }
  assert (Hlist : ∀ l0, (∀ x, x ∈ l0 → x ∈ l) → ∀ acc, P acc → P (foldl f acc l0)).
  { intros l0. induction l0 as [|x l0 IHl]; intros Hsub acc Hacc; [done|].
    cbn [foldl]. apply IHl.
    - intros y Hy. apply Hsub. by right.
    - apply (Hstep acc n l x Hl); [apply Hsub; by left|done]. }
  by apply Hlist.
Qed.

Lemma destroy_ptr_frame off s :
  (∀ k, get_pool k (destroy_ptr off s) = get_pool k s) ∧
  shm_auditor (destroy_ptr off s) = shm_auditor s ∧
  shm_next (destroy_ptr off s) = shm_next s ∧
  shm_ctl (destroy_ptr off s) = shm_ctl s ∧
  shm_gpu (destroy_ptr off s) = delete off (shm_gpu s) ∧
  shm_bytes (destroy_ptr off s) = delete off (shm_bytes s).
Proof. unfold destroy_ptr. by repeat split. Qed.

(** What two states of the segment share when only anonymous objects have
    been destroyed in between. *)
Lemma destroy_fold_frame (m : gmap Z (list Z)) s :
  let s' := map_fold (λ _ ptrlist acc, foldl (λ acc' buffer, destroy_ptr buffer acc') acc ptrlist) s m in
  (∀ k, get_pool k s' = get_pool k s) ∧ shm_auditor s' = shm_auditor s ∧
  shm_next s' = shm_next s ∧ shm_ctl s' = shm_ctl s ∧
  shm_gpu s' ⊆ shm_gpu s ∧ shm_bytes s' ⊆ shm_bytes s.
Proof.
  cbv zeta.
  apply (fold_lists_inv (λ s', (∀ k, get_pool k s' = get_pool k s) ∧ shm_auditor s' = shm_auditor s ∧
    shm_next s' = shm_next s ∧ shm_ctl s' = shm_ctl s ∧
    shm_gpu s' ⊆ shm_gpu s ∧ shm_bytes s' ⊆ shm_bytes s) (λ acc' buffer, destroy_ptr buffer acc')).
  - by repeat split.
  - intros acc n l x _ _ (Hp & Ha & Hn & Hc & Hg & Hb).
    destruct (destroy_ptr_frame x acc) as (Hp' & -> & -> & -> & -> & ->).
    split; [intros k; by rewrite Hp'|]. do 3 (split; [done|]).
    split; (etrans; [apply delete_subseteq|done]).
Qed.

Lemma cleanPool_entry_frame pid acc buffer :
  let acc' := cleanPool_entry pid acc buffer in
  (∀ k, get_pool k acc'.2 = get_pool k acc.2) ∧ shm_auditor acc'.2 = shm_auditor acc.2 ∧
  shm_next acc'.2 = shm_next acc.2 ∧ shm_ctl acc'.2 = shm_ctl acc.2 ∧
  shm_gpu acc'.2 ⊆ shm_gpu acc.2 ∧ shm_bytes acc'.2 ⊆ shm_bytes acc.2.
Proof.
  unfold cleanPool_entry. destruct (bool_decide _); [|done]. cbn [snd].
  destruct (destroy_ptr_frame buffer acc.2) as (Hp' & -> & -> & -> & -> & ->).
  split; [done|]. do 3 (split; [done|]). split; apply delete_subseteq.
Qed.

Lemma cleanPool_shm k c st :
  let pool := get_pool k (shm_ st) in
  ∃ s', shm_ (cleanPool k c st) =
          set_pool k (if c then mkMemoryPoolIPC ∅ ∅ (subtract_sizes pool) else set_buffers ∅ pool) s' ∧
        (∀ k', get_pool k' s' = get_pool k' (shm_ st)) ∧ shm_auditor s' = shm_auditor (shm_ st) ∧
        shm_next s' = shm_next (shm_ st) ∧ shm_ctl s' = shm_ctl (shm_ st) ∧
        shm_gpu s' ⊆ shm_gpu (shm_ st) ∧ shm_bytes s' ⊆ shm_bytes (shm_ st).
Proof.
  cbv zeta. unfold cleanPool.
  destruct (vk_active (vulkanUtil_ (this st))).
  - match goal with |- context [map_fold ?f ?b ?m] =>
      assert (Hfold : (∀ k', get_pool k' (map_fold f b m).2 = get_pool k' (shm_ st)) ∧
                      shm_auditor (map_fold f b m).2 = shm_auditor (shm_ st) ∧
                      shm_next (map_fold f b m).2 = shm_next (shm_ st) ∧
                      shm_ctl (map_fold f b m).2 = shm_ctl (shm_ st) ∧
                      shm_gpu (map_fold f b m).2 ⊆ shm_gpu (shm_ st) ∧
                      shm_bytes (map_fold f b m).2 ⊆ shm_bytes (shm_ st));
      [|destruct (map_fold f b m) as [v s']] end.
    { apply (fold_lists_inv (λ r : VulkanUtil * ManagedSHM,
               (∀ k', get_pool k' r.2 = get_pool k' (shm_ st)) ∧
               shm_auditor r.2 = shm_auditor (shm_ st) ∧ shm_next r.2 = shm_next (shm_ st) ∧
               shm_ctl r.2 = shm_ctl (shm_ st) ∧
               shm_gpu r.2 ⊆ shm_gpu (shm_ st) ∧ shm_bytes r.2 ⊆ shm_bytes (shm_ st))
             (cleanPool_entry (ourPid (this st)))).
      - by repeat split.
      - intros acc n l x _ _ (Hp & Ha & Hn & Hc & Hg & Hb).
        destruct (cleanPool_entry_frame (ourPid (this st)) acc x) as (Hp' & Ha' & Hn' & Hc' & Hg' & Hb').
        split; [intros k'; by rewrite Hp'|]. do 3 (split; [congruence|]).
        split; by etrans. }
    exists s'. cbn [snd shm_] in *. split; [by destruct c|exact Hfold].
  - exists (shm_ st). cbn [shm_]. split; [by destruct c|by repeat split].
Qed.

Lemma get_set_pool k k' p s :
  get_pool k' (set_pool k p s) = if decide (k' = k) then p else get_pool k' s.
Proof. by destruct k, k'. Qed.

Lemma set_pool_frame k p s :
  shm_auditor (set_pool k p s) = shm_auditor s ∧ shm_next (set_pool k p s) = shm_next s ∧
  shm_ctl (set_pool k p s) = shm_ctl s ∧ shm_gpu (set_pool k p s) = shm_gpu s ∧
  shm_bytes (set_pool k p s) = shm_bytes s.
Proof. by destruct k. Qed.

Lemma release_all_frame `{Countable K} (m : gmap K SharedPtr) s :
  let s' := release_all m s in
  (∀ k, allocated (get_pool k s') = allocated (get_pool k s) ∧
        sizes (get_pool k s') = sizes (get_pool k s)) ∧
  shm_auditor s' = shm_auditor s ∧ shm_next s' = shm_next s ∧
  shm_bytes s' = shm_bytes s ∧ shm_gpu s' = shm_gpu s.
Proof.
  cbv zeta. unfold release_all.
  apply (map_fold_weak_ind (λ r _,
    (∀ k, allocated (get_pool k r) = allocated (get_pool k s) ∧
          sizes (get_pool k r) = sizes (get_pool k s)) ∧
    shm_auditor r = shm_auditor s ∧ shm_next r = shm_next s ∧
    shm_bytes r = shm_bytes s ∧ shm_gpu r = shm_gpu s)); [done|].
  intros i w m' r _ (Hp & Ha & Hn & Hb & Hg).
  destruct (sp_release_frame w r) as (Hp' & -> & -> & -> & ->).
  split; [|done]. intros k. destruct (Hp' k) as [-> ->]. apply Hp.
Qed.

(** ** What the destructor leaves in the segment *)

Lemma subtract_sizes_ext p p' :
  sizes p = sizes p' → allocated p = allocated p' → subtract_sizes p = subtract_sizes p'.
Proof. unfold subtract_sizes. by intros -> ->. Qed.

Lemma sp_release_buffers_unregistered w s k :
  sizes (get_pool k s) = ∅ → buffers (get_pool k (sp_release w s)) = buffers (get_pool k s).
Proof.
  intros Hs. destruct w as [|o c]; [done|]. unfold sp_release.
  destruct (shm_ctl s !! c) as [cb|]; [|done].
  assert (Hrec : ∀ s0, sizes (get_pool k s0) = ∅ → buffers (get_pool k s0) = buffers (get_pool k s) →
                       buffers (get_pool k (ReclaimerIPC (rc_pool cb) (rc_offset cb) s0))
                       = buffers (get_pool k s)).
  { intros s0 Hs0 Hb0. destruct (decide (rc_pool cb = k)) as [Hk|Hk].
    - unfold ReclaimerIPC. rewrite Hk, Hs0, lookup_empty. exact Hb0.
    - destruct (ReclaimerIPC_frame (rc_pool cb) (rc_offset cb) s0) as (_ & Hother & _).
      rewrite Hother by done. exact Hb0. }
  destruct (use_count cb) as [|[|m]]; try (by destruct k); apply Hrec; by destruct k.
Qed.

Lemma release_all_buffers_unregistered `{Countable K} (m : gmap K SharedPtr) s k :
  sizes (get_pool k s) = ∅ → buffers (get_pool k (release_all m s)) = buffers (get_pool k s).
Proof.
  intros Hs. unfold release_all.
  apply (map_fold_weak_ind (λ r _, sizes (get_pool k r) = ∅ ∧
                                   buffers (get_pool k r) = buffers (get_pool k s))); [done|].
  intros i w m' r _ [Hsr Hbr]. split.
  - destruct (sp_release_frame w r) as (Hp & _). destruct (Hp k) as [_ ->]. exact Hsr.
  - by rewrite sp_release_buffers_unregistered.
Qed.

Lemma dtor_shm st :
  let pid := ourPid (this st) in
  let procs := if force_clean_ (this st) then []
               else erase_self pid (processes (shm_auditor (shm_ st))) in
  let last := bool_decide (procs = []) in
  let sd := shm_ (MemoryPoolIPCHybrid_dtor st) in
  shm_auditor sd = mkAuditorIPC procs (last || invalid (shm_auditor (shm_ st))) ∧
  (∀ k, sizes (get_pool k sd) = if last then ∅ else sizes (get_pool k (shm_ st))) ∧
  (∀ k, allocated (get_pool k sd) =
        if last then subtract_sizes (get_pool k (shm_ st)) else allocated (get_pool k (shm_ st))) ∧
  (∀ k, k ≠ CpuPool ∨ last = true → buffers (get_pool k sd) = ∅) ∧
  shm_next sd = shm_next (shm_ st) ∧
  shm_gpu sd ⊆ shm_gpu (shm_ st) ∧ shm_bytes sd ⊆ shm_bytes (shm_ st).
Proof.
  cbv zeta. unfold MemoryPoolIPCHybrid_dtor. cbv zeta.
  cbn [on_this this shm_ set_thread set_ptrs ourPid force_clean_ on_shm].
  destruct (release_all_frame (ptrs_ (this st)) (shm_ st)) as (Hp1 & Ha1 & Hn1 & Hb1 & Hg1).
  set (s1 := release_all (ptrs_ (this st)) (shm_ st)) in *.
  rewrite Ha1.
  remember (if force_clean_ (this st) then [] else erase_self _ _) as procs eqn:Hprocs.
  clear Hprocs.
  match goal with |- context [cleanPool GpuPool _ ?xx] => set (st5 := xx) end.
  match goal with |- context [cleanPool GpuPool ?cc st5] => set (c := cc) end.
  assert (H5 : shm_auditor (shm_ st5)
               = mkAuditorIPC procs (bool_decide (procs = []) || invalid (shm_auditor (shm_ st))) ∧
    (∀ k, sizes (get_pool k (shm_ st5)) =
          if bool_decide (procs = []) && bool_decide (k = CpuPool) then ∅
          else sizes (get_pool k (shm_ st))) ∧
    (∀ k, allocated (get_pool k (shm_ st5)) =
          if bool_decide (procs = []) && bool_decide (k = CpuPool)
          then subtract_sizes (get_pool k (shm_ st))
          else allocated (get_pool k (shm_ st))) ∧
    (procs = [] → buffers (shm_pool (shm_ st5)) = ∅) ∧
    shm_next (shm_ st5) = shm_next (shm_ st) ∧
    shm_gpu (shm_ st5) ⊆ shm_gpu (shm_ st) ∧ shm_bytes (shm_ st5) ⊆ shm_bytes (shm_ st)).
  { subst st5. cbn [shm_].
    match goal with |- context [release_all ?m ?s] =>
      destruct (release_all_frame m s) as (Hp5 & Ha5 & Hn5 & Hb5 & Hg5);
      pose proof (release_all_buffers_unregistered m s CpuPool) as Hbuf5 end.
    rewrite Ha5, Hn5, Hb5, Hg5.
    destruct procs as [|p procs].
    - cbn [shm_ invalidate on_shm on_this this set_thread set_ptrs handlesGPU_ shm_auditor
           set_auditor processes invalid] in *.
      match goal with |- context [map_fold ?f ?b ?m] =>
        destruct (destroy_fold_frame m b) as (Hp4 & Ha4 & Hn4 & Hc4 & Hg4 & Hb4) end.
      cbv zeta in Hp4, Ha4, Hn4, Hc4, Hg4, Hb4.
      match type of Ha4 with shm_auditor ?x = _ => set (s4 := x) in * end.
      match goal with |- context [set_pool CpuPool ?p s4] =>
        destruct (set_pool_frame CpuPool p s4) as (-> & -> & _ & -> & ->) end.
      rewrite Ha4, Hn4. cbn [shm_auditor set_auditor shm_next processes].
      rewrite bool_decide_eq_true_2 by done. cbn [orb andb].
      split; [done|]. split; [|split; [|split; [|split; [|split]]]].
      + intros k. destruct (Hp5 k) as [_ ->]. rewrite get_set_pool.
        destruct k; cbn [decide bool_decide]; try done.
        * rewrite decide_False by done. rewrite bool_decide_eq_false_2 by done.
          rewrite Hp4. exact (proj2 (Hp1 GpuPool)).
        * rewrite decide_False by done. rewrite bool_decide_eq_false_2 by done.
          rewrite Hp4. exact (proj2 (Hp1 GpuDeviceLocalPool)).
      + intros k. destruct (Hp5 k) as [-> _]. rewrite get_set_pool.
        destruct k; cbn [decide bool_decide].
        * rewrite decide_True by done. rewrite bool_decide_eq_true_2 by done. cbn [allocated].
          apply subtract_sizes_ext; [exact (proj2 (Hp1 CpuPool))|exact (proj1 (Hp1 CpuPool))].
        * rewrite decide_False by done. rewrite bool_decide_eq_false_2 by done.
          rewrite Hp4. exact (proj1 (Hp1 GpuPool)).
        * rewrite decide_False by done. rewrite bool_decide_eq_false_2 by done.
          rewrite Hp4. exact (proj1 (Hp1 GpuDeviceLocalPool)).
      + intros _. cbn [get_pool] in Hbuf5. rewrite Hbuf5; by destruct s4.
      + done.
      + etrans; [exact Hg4|]. cbn [shm_gpu set_auditor]. by rewrite Hg1.
      + etrans; [exact Hb4|]. cbn [shm_bytes set_auditor]. by rewrite Hb1.
    - cbn [shm_ on_shm on_this this set_thread set_ptrs handlesGPU_
           shm_auditor set_auditor shm_next shm_gpu shm_bytes] in *.
      rewrite bool_decide_eq_false_2 by done. cbn [orb andb].
      split; [by rewrite ?Ha1|]. split; [|split; [|split; [|split; [|split]]]].
      + intros k. destruct (Hp5 k) as [_ ->]. destruct (Hp1 k) as [_ <-]. by destruct k.
      + intros k. destruct (Hp5 k) as [-> _]. destruct (Hp1 k) as [<- _]. by destruct k.
      + done.
      + done.
      + by rewrite Hg1.
      + by rewrite Hb1. }
  destruct H5 as (Ha5 & Hs5 & Hal5 & Hbuf5 & Hn5 & Hg5 & Hb5).
  assert (Hc : c = bool_decide (procs = []))
    by (subst c st5; cbn [shm_] in Ha5 |- *; by rewrite Ha5).
  clearbody c st5. subst c.
  destruct (cleanPool_shm GpuPool (bool_decide (procs = [])) st5)
    as (s6 & E6 & Hp6 & Ha6 & Hn6 & Hc6 & Hg6 & Hb6).
  set (st6 := cleanPool GpuPool _ st5) in *.
  destruct (cleanPool_shm GpuDeviceLocalPool (bool_decide (procs = [])) st6)
    as (s7 & E7 & Hp7 & Ha7 & Hn7 & Hc7 & Hg7 & Hb7).
  rewrite E7. rewrite E6 in Hp7, Ha7, Hn7, Hg7, Hb7 |- *.
  match goal with |- context [set_pool GpuDeviceLocalPool ?p s7] =>
    destruct (set_pool_frame GpuDeviceLocalPool p s7) as (-> & -> & _ & -> & ->) end.
  match type of Ha7 with context [set_pool GpuPool ?p s6] =>
    destruct (set_pool_frame GpuPool p s6) as (Ea & En & _ & Eg & Eb) end.
  rewrite Ea in Ha7. rewrite En in Hn7. rewrite Eg in Hg7. rewrite Eb in Hb7.
  rewrite Ha7, Ha6, Hn7, Hn6.
  assert (Hcpu : get_pool CpuPool s7 = get_pool CpuPool (shm_ st5)).
  { rewrite Hp7, get_set_pool, decide_False by done. apply Hp6. }
  assert (Hgdl : get_pool GpuDeviceLocalPool s6 = get_pool GpuDeviceLocalPool (shm_ st5))
    by apply Hp6.
  assert (Hgpu : ∀ P6, get_pool GpuPool (set_pool GpuPool P6 s6) = P6) by done.
  split; [done|]. split; [|split; [|split]].
  - intros k. rewrite get_set_pool. destruct k.
    + rewrite decide_False by done. rewrite Hcpu, Hs5. by destruct (bool_decide (procs = [])).
    + rewrite decide_False by done. rewrite Hp7, Hgpu.
      destruct (bool_decide (procs = [])); cbn [sizes set_buffers andb]; [done|].
      by rewrite Hs5.
    + rewrite decide_True by done. rewrite get_set_pool, decide_False by done. rewrite Hp6.
      destruct (bool_decide (procs = [])); cbn [sizes set_buffers andb]; [done|].
      by rewrite Hs5.
  - intros k. rewrite get_set_pool. destruct k.
    + rewrite decide_False by done. rewrite Hcpu, Hal5. by destruct (bool_decide (procs = [])).
    + rewrite decide_False by done. rewrite Hp7, Hgpu.
      destruct (bool_decide (procs = [])) eqn:Hl; cbn [allocated set_buffers andb].
      * apply subtract_sizes_ext; [rewrite Hs5|rewrite Hal5]; done.
      * by rewrite Hal5.
    + rewrite decide_True by done. rewrite get_set_pool, decide_False by done. rewrite Hp6.
      destruct (bool_decide (procs = [])) eqn:Hl; cbn [allocated set_buffers andb].
      * apply subtract_sizes_ext; [rewrite Hs5|rewrite Hal5]; done.
      * by rewrite Hal5.
  - intros k Hk. rewrite get_set_pool. destruct k.
    + rewrite decide_False by done. rewrite Hcpu.
      apply Hbuf5. destruct Hk as [?|Hk]; [done|]. by apply bool_decide_eq_true in Hk.
    + rewrite decide_False by done. rewrite Hp7, Hgpu.
      by destruct (bool_decide (procs = [])).
    + rewrite decide_True by done. by destruct (bool_decide (procs = [])).
  - split; [exact Hn5|]. split.
    + etrans; [exact Hg7|]. by etrans.
    + etrans; [exact Hb7|]. by etrans.
Qed.


(** ** Registration at the auditor *)

Lemma erase_self_foreign pid l :
  foreign_records pid (erase_self pid l) = foreign_records pid l.
Proof.
  unfold foreign_records. induction l as [|p l IH]; [done|]. cbn [erase_self]. unfold isSelf.
  case_bool_decide as Hp.
  - by rewrite filter_cons_False by (intros ?; done).
  - rewrite !filter_cons_True by done. by rewrite IH.
Qed.

Lemma erase_self_own pid l :
  length (own_records pid (erase_self pid l)) = pred (length (own_records pid l)).
Proof.
  unfold own_records. induction l as [|p l IH]; [done|]. cbn [erase_self]. unfold isSelf.
  case_bool_decide as Hp.
  - by rewrite filter_cons_True by done.
  - by rewrite !filter_cons_False by done.
Qed.

Lemma erase_self_sublist pid l : sublist (erase_self pid l) l.
Proof.
  induction l as [|p l IH]; [done|]. cbn [erase_self]. destruct (isSelf pid p).
  - by apply sublist_cons.
  - by apply sublist_skip.
Qed.

Lemma erase_self_app_new pid l :
  Forall (λ p, proc_pid p ≠ pid) l → erase_self pid (l ++ [mkProcess pid]) = l.
Proof.
  induction 1 as [|p l Hp _ IH]; cbn [app erase_self]; unfold isSelf; cbn [proc_pid].
  - by rewrite bool_decide_eq_true_2.
  - rewrite bool_decide_eq_false_2 by done. by rewrite IH.
Qed.

Lemma erase_self_app_perm pid l : erase_self pid (l ++ [mkProcess pid]) ≡ₚ l.
Proof.
  induction l as [|p l IH]; cbn [app erase_self]; unfold isSelf; cbn [proc_pid].
  - by rewrite bool_decide_eq_true_2.
  - case_bool_decide as Hp.
    + destruct p as [q]. cbn in Hp. subst q. symmetry. apply Permutation_cons_append.
    + by rewrite IH.
Qed.

Lemma erase_self_nonempty pid l :
  l ≠ [] → erase_self pid (l ++ [mkProcess pid]) ≠ [].
Proof.
  intros Hl Herase. pose proof (erase_self_app_perm pid l) as Hperm.
  rewrite Herase in Hperm. apply Permutation_nil_l in Hperm. done.
Qed.

(** ** Attaching and detaching *)

Lemma ctor_shm alive pid vk shm sz gsz en :
  let st := MemoryPoolIPCHybrid_ctor alive pid vk shm sz gsz en in
  shm_ st = set_auditor (shm_auditor (shm_ st)) shm ∧
  ptrs_ (this st) = ∅ ∧ handlesGPU_ (this st) = ∅ ∧ gpuMappedBuffers_ (this st) = ∅ ∧
  gpuHandleProcMap_ (this st) = ∅ ∧ activatedStreams_ (this st) = ∅ ∧
  ourPid (this st) = pid ∧ force_clean_ (this st) = false ∧
  vulkanUtil_ (this st) = mkVulkanUtil vk [].
Proof.
  cbv zeta. unfold MemoryPoolIPCHybrid_ctor. destruct (audit _ _); [destruct en|]; by repeat split.
Qed.

(** X5. The audit passes exactly when the segment has not been invalidated
    and every registered process is alive; with no process registered it
    passes on a valid segment whatever the operating system answers. *)
Theorem audit_passes_iff_valid_and_all_alive (alive : Z → bool) (st : State) :
  (audit alive st = true ↔
   invalid (shm_auditor (shm_ st)) = false ∧
   ∀ p, p ∈ processes (shm_auditor (shm_ st)) → alive (proc_pid p) = true) ∧
  (audit alive st = false ↔
   invalid (shm_auditor (shm_ st)) = true ∨
   ∃ p, p ∈ processes (shm_auditor (shm_ st)) ∧ alive (proc_pid p) = false) ∧
  (processes (shm_auditor (shm_ st)) = [] → audit alive st = isValid st).
Proof.
  split; [|split].
  - rewrite audit_true_iff. by rewrite Forall_forall.
  - rewrite audit_false_iff. by rewrite Exists_exists.
  - intros Hnil. unfold audit, processesAlive. rewrite Hnil. apply andb_true_r.
Qed.

(** X6. The constructor registers the process exactly when the audit passes:
    on a valid segment whose registered processes are all alive it appends
    one record with the own PID and starts the liveness thread if asked to;
    otherwise it invalidates the segment, registers nothing and starts no
    thread.  In both cases it leaves the pools and the anonymous objects of
    the segment as they are and starts with empty local caches. *)
Theorem ctor_registers_iff_audit_passes
    (alive : Z → bool) (pid : Z) (vkActive : bool) (shm : ManagedSHM)
    (shmSize shmGPUSize : Z) (enableAuditor : bool) :
  let st := MemoryPoolIPCHybrid_ctor alive pid vkActive shm shmSize shmGPUSize enableAuditor in
  let a := shm_auditor shm in
  (invalid a = false ∧ Forall (λ p, alive (proc_pid p) = true) (processes a) →
     shm_auditor (shm_ st) = mkAuditorIPC (processes a ++ [mkProcess pid]) false ∧
     auditorThread_ (this st) = enableAuditor) ∧
  (invalid a = true ∨ Exists (λ p, alive (proc_pid p) = false) (processes a) →
     shm_auditor (shm_ st) = mkAuditorIPC (processes a) true ∧
     auditorThread_ (this st) = false) ∧
  shm_ st = set_auditor (shm_auditor (shm_ st)) shm ∧
  ptrs_ (this st) = ∅ ∧ handlesGPU_ (this st) = ∅ ∧ gpuMappedBuffers_ (this st) = ∅ ∧
  gpuHandleProcMap_ (this st) = ∅ ∧ activatedStreams_ (this st) = ∅ ∧
  stopSignal_ (this st) = false.
Proof.
  cbv zeta. split; [|split].
  - intros Hok. unfold MemoryPoolIPCHybrid_ctor.
    rewrite (proj2 (audit_true_iff alive _)) by exact Hok.
    destruct Hok as [Hv _]. destruct enableAuditor; cbn; by rewrite Hv.
  - intros Hbad. unfold MemoryPoolIPCHybrid_ctor.
    by rewrite (proj2 (audit_false_iff alive _)) by exact Hbad.
  - destruct (ctor_shm alive pid vkActive shm shmSize shmGPUSize enableAuditor)
      as (? & ? & ? & ? & ? & ? & _).
    repeat split; try done.
    unfold MemoryPoolIPCHybrid_ctor. destruct (audit _ _); [destruct enableAuditor|]; done.
Qed.

(** X8. When the destructor leaves no record at the auditor (the process was
    the last one registered, or [force_clean_] is set) the segment ends up
    invalidated with all three pools emptied, and it stays unusable: every
    constructor that attaches to it afterwards finds it invalid, registers
    nothing, starts no thread and changes nothing in the segment. *)
Theorem segment_unusable_after_last_detach (st : State) :
  force_clean_ (this st) = true ∨
  erase_self (ourPid (this st)) (processes (shm_auditor (shm_ st))) = [] →
  let sd := shm_ (MemoryPoolIPCHybrid_dtor st) in
  shm_auditor sd = mkAuditorIPC [] true ∧
  (∀ k, buffers (get_pool k sd) = ∅ ∧ sizes (get_pool k sd) = ∅) ∧
  ∀ alive pid vkActive shmSize shmGPUSize enableAuditor,
    let st' := MemoryPoolIPCHybrid_ctor alive pid vkActive sd shmSize shmGPUSize enableAuditor in
    shm_ st' = sd ∧ isValid st' = false ∧ auditorThread_ (this st') = false.
Proof.
  intros Hlast. cbv zeta.
  pose proof (dtor_shm st) as Hd. cbv zeta in Hd.
  generalize dependent (shm_ (MemoryPoolIPCHybrid_dtor st)). intros sd (Ha & Hs & _ & Hb & _).
  assert (Hprocs : (if force_clean_ (this st) then []
                    else erase_self (ourPid (this st)) (processes (shm_auditor (shm_ st)))) = []).
  { destruct Hlast as [->| ->]; [done|by destruct (force_clean_ _)]. }
  rewrite Hprocs in Ha, Hs, Hb. rewrite bool_decide_eq_true_2 in Ha, Hs, Hb by done.
  cbn [orb] in Ha. split; [exact Ha|]. split.
  - intros k. split; [apply Hb; by right|apply Hs].
  - intros alive pid vk sz gsz en. unfold MemoryPoolIPCHybrid_ctor.
    rewrite (proj2 (audit_false_iff alive _)) by (left; cbn [shm_]; by rewrite Ha).
    unfold isValid. cbn [invalidate on_shm shm_ this auditorThread_ shm_auditor set_auditor invalid].
    split; [|done]. rewrite Ha. cbn [processes]. rewrite <- Ha. by destruct sd.
Qed.

(** The sample process detaches from the segment it attached to alone. *)
Lemma segment_unusable_after_last_detach_witness :
  erase_self (ourPid (this sample_attached)) (processes (shm_auditor (shm_ sample_attached))) = [] ∧
  shm_auditor (shm_ (MemoryPoolIPCHybrid_dtor sample_attached)) = mkAuditorIPC [] true.
Proof.
  assert (H : erase_self (ourPid (this sample_attached))
                (processes (shm_auditor (shm_ sample_attached))) = []) by reflexivity.
  split; [exact H|].
  exact (proj1 (segment_unusable_after_last_detach sample_attached (or_intror H))).
Defined.

(** X9. Without [force_clean_] the destructor removes one record of the own
    PID (the first, if there is one) and no record of any other process,
    alive or dead.  As long as a record remains, the destructor neither
    invalidates the segment nor touches [sizes] and [allocated] of any
    pool. *)
Theorem dtor_deregisters_only_self (st : State) :
  force_clean_ (this st) = false →
  let pid := ourPid (this st) in
  let procs := processes (shm_auditor (shm_ st)) in
  let sd := shm_ (MemoryPoolIPCHybrid_dtor st) in
  foreign_records pid (processes (shm_auditor sd)) = foreign_records pid procs ∧
  length (own_records pid (processes (shm_auditor sd))) = pred (length (own_records pid procs)) ∧
  sublist (processes (shm_auditor sd)) procs ∧
  (processes (shm_auditor sd) ≠ [] →
     invalid (shm_auditor sd) = invalid (shm_auditor (shm_ st)) ∧
     ∀ k, sizes (get_pool k sd) = sizes (get_pool k (shm_ st)) ∧
          allocated (get_pool k sd) = allocated (get_pool k (shm_ st))).
Proof.
  intros Hforce. cbv zeta.
  pose proof (dtor_shm st) as Hd. cbv zeta in Hd.
  generalize dependent (shm_ (MemoryPoolIPCHybrid_dtor st)). intros sd (Ha & Hs & Hal & _).
  rewrite Hforce in Ha, Hs, Hal. rewrite Ha. cbn [processes invalid].
  split; [apply erase_self_foreign|]. split; [apply erase_self_own|].
  split; [apply erase_self_sublist|].
  intros Hne. rewrite bool_decide_eq_false_2 in Hs, Hal |- * by done.
  split; [done|]. intros k. by rewrite Hs, Hal.
Qed.

(** Process 200 detaches while process 100 stays registered. *)
Lemma dtor_deregisters_only_self_witness :
  force_clean_ (this sample_two_attached) = false ∧
  sublist (processes (shm_auditor (shm_ (MemoryPoolIPCHybrid_dtor sample_two_attached))))
          (processes (shm_auditor (shm_ sample_two_attached))).
Proof.
  assert (H : force_clean_ (this sample_two_attached) = false) by reflexivity.
  split; [exact H|].
  exact (proj1 (proj2 (proj2 (dtor_deregisters_only_self sample_two_attached H)))).
Defined.

Lemma ctor_registers_ok alive pid vk shm sz gsz en :
  invalid (shm_auditor shm) = false →
  Forall (λ p, alive (proc_pid p) = true) (processes (shm_auditor shm)) →
  let st := MemoryPoolIPCHybrid_ctor alive pid vk shm sz gsz en in
  shm_ st = set_auditor (mkAuditorIPC (processes (shm_auditor shm) ++ [mkProcess pid]) false) shm ∧
  ptrs_ (this st) = ∅ ∧ handlesGPU_ (this st) = ∅ ∧ ourPid (this st) = pid ∧
  force_clean_ (this st) = false.
Proof.
  intros Hv Hall. cbv zeta. unfold MemoryPoolIPCHybrid_ctor.
  rewrite (proj2 (audit_true_iff alive _)) by done.
  destruct en; cbn; by rewrite Hv.
Qed.

Lemma release_all_empty `{Countable K} s : release_all (∅ : gmap K SharedPtr) s = s.
Proof. unfold release_all. apply map_fold_empty. Qed.

Lemma dtor_idle st :
  ptrs_ (this st) = ∅ → handlesGPU_ (this st) = ∅ →
  (if force_clean_ (this st) then []
   else erase_self (ourPid (this st)) (processes (shm_auditor (shm_ st)))) ≠ [] →
  shm_pool (shm_ (MemoryPoolIPCHybrid_dtor st)) = shm_pool (shm_ st) ∧
  shm_ctl (shm_ (MemoryPoolIPCHybrid_dtor st)) = shm_ctl (shm_ st).
Proof.
  intros Hptrs Hhandles Hprocs. unfold MemoryPoolIPCHybrid_dtor. cbv zeta.
  cbn [on_this this shm_ set_thread set_ptrs ourPid force_clean_ on_shm].
  rewrite Hptrs, release_all_empty.
  remember (if force_clean_ (this st) then [] else erase_self _ _) as procs eqn:Heq.
  clear Heq. destruct procs as [|p procs]; [done|].
  cbn [on_this this shm_ set_thread set_ptrs handlesGPU_ on_shm].
  rewrite Hhandles, release_all_empty.
  match goal with |- context [cleanPool GpuPool ?cc ?xx] => set (c := cc); set (st5 := xx) end.
  destruct (cleanPool_shm GpuPool c st5) as (s6 & E6 & Hp6 & _ & _ & Hc6 & _).
  generalize dependent (cleanPool GpuPool c st5). intros st6 E6.
  destruct (cleanPool_shm GpuDeviceLocalPool c st6) as (s7 & E7 & Hp7 & _ & _ & Hc7 & _).
  generalize dependent (cleanPool GpuDeviceLocalPool c st6). intros st7 E7.
  rewrite E7. rewrite E6 in Hp7, Hc7.
  specialize (Hp7 CpuPool). specialize (Hp6 CpuPool). cbn [get_pool] in Hp6, Hp7.
  split.
  - transitivity (shm_pool s7); [by destruct c|]. rewrite Hp7.
    transitivity (shm_pool s6); [by destruct c|]. rewrite Hp6. done.
  - transitivity (shm_ctl s7); [by destruct c|]. rewrite Hc7.
    transitivity (shm_ctl s6); [by destruct c|]. rewrite Hc6. done.
Qed.

(** X10. A process that attaches to a valid segment on which other live
    processes are registered and detaches again leaves the registry as it
    found it (the same records, in the same order if its PID was not
    registered before), the segment valid, the CPU pool and the control
    blocks untouched and [sizes] and [allocated] of the GPU pools as they
    were; but the free-lists of both GPU pools are emptied, whoever put the
    entries there. *)
Theorem attach_detach_restores_registry
    (alive : Z → bool) (pid : Z) (vkActive : bool) (shm : ManagedSHM)
    (shmSize shmGPUSize : Z) (enableAuditor : bool) :
  invalid (shm_auditor shm) = false →
  Forall (λ p, alive (proc_pid p) = true) (processes (shm_auditor shm)) →
  processes (shm_auditor shm) ≠ [] →
  let sd := shm_ (MemoryPoolIPCHybrid_dtor
                    (MemoryPoolIPCHybrid_ctor alive pid vkActive shm shmSize shmGPUSize
                       enableAuditor)) in
  processes (shm_auditor sd) ≡ₚ processes (shm_auditor shm) ∧
  (Forall (λ p, proc_pid p ≠ pid) (processes (shm_auditor shm)) →
     shm_auditor sd = shm_auditor shm) ∧
  invalid (shm_auditor sd) = false ∧
  shm_pool sd = shm_pool shm ∧ shm_ctl sd = shm_ctl shm ∧
  (∀ k, sizes (get_pool k sd) = sizes (get_pool k shm) ∧
        allocated (get_pool k sd) = allocated (get_pool k shm)) ∧
  buffers (shm_poolGPU sd) = ∅ ∧ buffers (shm_poolGPUDeviceLocal sd) = ∅.
Proof.
  intros Hvalid Halive Hne. cbv zeta.
  destruct (ctor_registers_ok alive pid vkActive shm shmSize shmGPUSize enableAuditor
              Hvalid Halive) as (Hshm & Hptrs & Hhandles & Hpid & Hforce).
  set (st := MemoryPoolIPCHybrid_ctor _ _ _ _ _ _ _) in *.
  assert (Hprocs : (if force_clean_ (this st) then []
                    else erase_self (ourPid (this st)) (processes (shm_auditor (shm_ st)))) ≠ []).
  { rewrite Hforce, Hpid, Hshm. cbn [shm_auditor set_auditor processes].
    by apply erase_self_nonempty. }
  destruct (dtor_idle st Hptrs Hhandles Hprocs) as [Hpool Hctl].
  pose proof (dtor_shm st) as Hd. cbv zeta in Hd.
  generalize dependent (shm_ (MemoryPoolIPCHybrid_dtor st)).
  intros sd Hpool Hctl (Ha & Hs & Hal & Hb & _).
  rewrite bool_decide_eq_false_2 in Ha, Hs, Hal, Hb by done.
  rewrite Hforce, Hpid, Hshm in Ha. cbn [shm_auditor set_auditor processes invalid orb] in Ha.
  rewrite Hshm in Hpool, Hctl, Hs, Hal. rewrite Ha. cbn [processes invalid].
  split; [apply erase_self_app_perm|]. split.
  - intros Hnew. rewrite erase_self_app_new by done. rewrite <- Hvalid.
    by destruct (shm_auditor shm).
  - split; [done|]. split; [by rewrite Hpool; destruct shm|].
    split; [by rewrite Hctl; destruct shm|]. split.
    + intros k. rewrite Hs, Hal. by destruct k.
    + split; [apply (Hb GpuPool)|apply (Hb GpuDeviceLocalPool)]; by left.
Qed.

(** Process 200 attaches to the segment of the sample process and detaches
    again. *)
Lemma attach_detach_restores_registry_witness :
  invalid (shm_auditor (shm_ sample_attached)) = false ∧
  Forall (λ p, (λ _ : Z, true) (proc_pid p) = true) (processes (shm_auditor (shm_ sample_attached))) ∧
  processes (shm_auditor (shm_ sample_attached)) ≠ [] ∧
  processes (shm_auditor (shm_ (MemoryPoolIPCHybrid_dtor sample_two_attached)))
    ≡ₚ processes (shm_auditor (shm_ sample_attached)).
Proof.
  assert (H1 : invalid (shm_auditor (shm_ sample_attached)) = false) by reflexivity.
  assert (H2 : Forall (λ p, (λ _ : Z, true) (proc_pid p) = true)
                 (processes (shm_auditor (shm_ sample_attached))))
    by (apply Forall_forall; reflexivity).
  assert (H3 : processes (shm_auditor (shm_ sample_attached)) ≠ []) by discriminate.
  split; [exact H1|]. split; [exact H2|]. split; [exact H3|].
  exact (proj1 (attach_detach_restores_registry (λ _, true) 200 true (shm_ sample_attached)
                  1048576 16777216 true H1 H2 H3)).
Defined.

Lemma fold_lists_all {B} (I : B → Prop) (D : Z → B → Prop) (f : B → Z → B)
    (m : gmap Z (list Z)) (b : B) :
  I b →
  (∀ acc x, (∃ n l, m !! n = Some l ∧ x ∈ l) → I acc → I (f acc x) ∧ D x (f acc x)) →
  (∀ acc x y, (∃ n l, m !! n = Some l ∧ x ∈ l) → I acc → D y acc → D y (f acc x)) →
  let r := map_fold (λ _ ptrlist acc, foldl f acc ptrlist) b m in
  I r ∧ ∀ x, (∃ n l, m !! n = Some l ∧ x ∈ l) → D x r.
Proof.
  intros Hb Hstep Hkeep. cbv zeta. rewrite map_fold_foldr.
  assert (Hin : ∀ x, (∃ n l, m !! n = Some l ∧ x ∈ l) ↔
                     ∃ nl, nl ∈ map_to_list m ∧ x ∈ nl.2).
  { intros x. split.
    - intros (n & l & Hl & Hx). exists (n, l). split; [by apply elem_of_map_to_list|done].
    - intros ([n l] & Hnl & Hx). exists n, l. split; [by apply elem_of_map_to_list|done]. }
  assert (Hall : ∀ nl, nl ∈ map_to_list m → ∀ x, x ∈ nl.2 → ∃ n l, m !! n = Some l ∧ x ∈ l).
  { intros nl Hnl x Hx. apply Hin. by exists nl. }
  assert (Hgoal : I (foldr (uncurry (λ _ ptrlist acc, foldl f acc ptrlist)) b (map_to_list m)) ∧
                  ∀ nl, nl ∈ map_to_list m → ∀ x, x ∈ nl.2 →
                    D x (foldr (uncurry (λ _ ptrlist acc, foldl f acc ptrlist)) b (map_to_list m))).
  { revert Hall. generalize (map_to_list m). intros ml.
    induction ml as [|[n l] rest IH]; intros Hall; cbn [foldr uncurry].
    - split; [done|]. intros nl Hnl. by apply elem_of_nil in Hnl.
    - destruct IH as [IHI IHD]; [intros nl Hnl; apply Hall; by right|].
      set (r0 := foldr (uncurry (λ _ ptrlist acc, foldl f acc ptrlist)) b rest) in *.
      assert (Hl : ∀ x, x ∈ l → ∃ n l, m !! n = Some l ∧ x ∈ l)
        by (intros x Hx; apply (Hall (n, l)); [by left|done]).
      assert (Hlist : ∀ l0, (∀ x, x ∈ l0 → ∃ n l, m !! n = Some l ∧ x ∈ l) →
                ∀ acc, I acc → I (foldl f acc l0) ∧
                  (∀ y, D y acc → D y (foldl f acc l0)) ∧
                  (∀ x, x ∈ l0 → D x (foldl f acc l0))).
      { intros l0. induction l0 as [|x l0 IHl]; intros Hsub acc Hacc; cbn [foldl].
        - split; [done|]. split; [done|]. intros x Hx. by apply elem_of_nil in Hx.
        - assert (Hx : ∃ n l, m !! n = Some l ∧ x ∈ l) by (apply Hsub; by left).
          destruct (Hstep acc x Hx Hacc) as [HI HD].
          destruct (IHl (λ y Hy, Hsub y (list_elem_of_further _ _ _ Hy)) (f acc x) HI)
            as (HI' & Hk' & HD').
          split; [done|]. split.
          + intros y Hy. apply Hk'. by apply Hkeep.
          + intros y Hy. apply elem_of_cons in Hy as [->|Hy]; [by apply Hk'|by apply HD']. }
      destruct (Hlist l Hl r0 IHI) as (HI & Hk & HD).
      split; [done|]. intros nl Hnl x Hx. apply elem_of_cons in Hnl as [->|Hnl].
      + by apply HD.
      + apply Hk. by apply (IHD nl). }
  destruct Hgoal as [HI HD]. split; [done|].
  intros x Hx. apply Hin in Hx as (nl & Hnl & Hx). by apply (HD nl).
Qed.

(** ** Cleaning a GPU pool *)

Lemma cleanPool_unfold k c st :
  let pool := get_pool k (shm_ st) in
  let r := if vk_active (vulkanUtil_ (this st)) then
             map_fold (λ _ ptrlist acc, foldl (cleanPool_entry (ourPid (this st))) acc ptrlist)
               (vulkanUtil_ (this st), shm_ st) (buffers pool)
           else (vulkanUtil_ (this st), shm_ st) in
  cleanPool k c st =
  mkState (set_pool k (if c then mkMemoryPoolIPC ∅ ∅ (subtract_sizes pool)
                       else mkMemoryPoolIPC ∅ (sizes pool) (allocated pool)) r.2)
          (set_vulkanUtil r.1 (this st)).
Proof.
  cbv zeta. unfold cleanPool.
  destruct (if vk_active _ then _ else _) as [v s]. by destruct c.
Qed.

Lemma cleanPool_fold_own k st :
  ourPid (this st) ≠ 0 →
  let r := map_fold (λ _ ptrlist acc, foldl (cleanPool_entry (ourPid (this st))) acc ptrlist)
             (vulkanUtil_ (this st), shm_ st) (buffers (get_pool k (shm_ st))) in
  ∃ hs, vk_freed r.1 = vk_freed (vulkanUtil_ (this st)) ++ hs ∧
    (∀ h, h ∈ hs ↔ ∃ off d, own_gpu_entry k st off d ∧ handle (first d) = h) ∧
    (∀ off d, own_gpu_entry k st off d → shm_gpu r.2 !! off = None) ∧
    (∀ off, (∀ d, ¬ own_gpu_entry k st off d) → shm_gpu r.2 !! off = shm_gpu (shm_ st) !! off).
Proof.
  intros Hpid. cbv zeta.
  set (pid := ourPid (this st)) in *. set (s0 := shm_ st). set (v0 := vulkanUtil_ (this st)).
  set (I := λ r : VulkanUtil * ManagedSHM,
    ∃ hs, vk_freed r.1 = vk_freed v0 ++ hs ∧
      (∀ h, h ∈ hs → ∃ off d, own_gpu_entry k st off d ∧ handle (first d) = h) ∧
      (∀ off, shm_gpu r.2 !! off = shm_gpu s0 !! off ∨
              (shm_gpu r.2 !! off = None ∧
               ∃ d, own_gpu_entry k st off d ∧ handle (first d) ∈ hs))).
  set (D := λ (x : Z) (r : VulkanUtil * ManagedSHM),
    ∀ d, shm_gpu s0 !! x = Some d → second d = pid → shm_gpu r.2 !! x = None).
  destruct (fold_lists_all I D (cleanPool_entry pid) (buffers (get_pool k s0)) (v0, s0))
    as [(hs & Hfreed & Hown & Hstate) Hdone].
  - exists []. rewrite app_nil_r. split; [done|]. split; [|by left].
    intros h Hh. by apply elem_of_nil in Hh.
  - intros acc x Hx (hs & Hfreed & Hown & Hstate). unfold cleanPool_entry, deref_gpu.
    destruct (shm_gpu acc.2 !! x) as [d'|] eqn:Hlook; cbn [default].
    + assert (Hd' : shm_gpu s0 !! x = Some d').
      { destruct (Hstate x) as [<-|[Hnone _]]; [done|congruence]. }
      case_bool_decide as Hsecond.
      * assert (Hentry : own_gpu_entry k st x d') by done.
        split.
        -- exists (hs ++ [handle (first d')]). cbn [fst snd vk_free vk_freed].
           split; [by rewrite Hfreed, app_assoc|]. split.
           ++ intros h Hh. apply elem_of_app in Hh as [Hh|Hh]; [by apply Hown|].
              apply list_elem_of_singleton in Hh as ->. by exists x, d'.
           ++ intros off. destruct (destroy_ptr_frame x acc.2) as (_ & _ & _ & _ & -> & _).
              destruct (decide (off = x)) as [->|Hne].
              ** right. split; [apply lookup_delete_eq|]. exists d'. split; [done|].
                 apply elem_of_app. right. by apply list_elem_of_singleton.
              ** rewrite lookup_delete_ne by done.
                 destruct (Hstate off) as [?|(? & d & ? & ?)]; [by left|right].
                 split; [done|]. exists d. split; [done|]. apply elem_of_app. by left.
        -- intros d _ _. cbn [snd].
           destruct (destroy_ptr_frame x acc.2) as (_ & _ & _ & _ & -> & _).
           apply lookup_delete_eq.
      * split; [by exists hs|]. intros d Hd Hsec. rewrite Hd' in Hd. injection Hd as <-. done.
    + cbn [second]. rewrite bool_decide_eq_false_2 by done.
      split; [by exists hs|]. by intros d _ _.
  - intros acc x y _ _ Hy d Hd Hsec.
    destruct (cleanPool_entry_frame pid acc x) as (_ & _ & _ & _ & Hsub & _).
    eapply lookup_weaken_None; [|exact Hsub]. exact (Hy d Hd Hsec).
  - exists hs. split; [done|]. split; [|split].
    + intros h. split; [apply Hown|]. intros (off & d & Hentry & <-).
      destruct Hentry as (Hlist & Hd & Hsec).
      destruct (Hstate off) as [Heq|(_ & d2 & (_ & Hd2 & _) & Hin)].
      * rewrite (Hdone off Hlist d Hd Hsec) in Heq. unfold s0 in Heq. rewrite Hd in Heq.
        discriminate Heq.
      * rewrite Hd in Hd2. by injection Hd2 as <-.
    + intros off d (Hlist & Hd & Hsec). by apply (Hdone off Hlist d).
    + intros off Hnone. destruct (Hstate off) as [?|(_ & d & Hentry & _)]; [done|].
      by destruct (Hnone d).
Qed.

(** X11. With Vulkan active, [cleanPool] frees through the graphics utility
    exactly the handles of the free-list entries whose descriptor carries
    the PID of the calling process, and destroys exactly those descriptors:
    a descriptor that originated in another process, or that is not on a
    free-list of the pool, is neither freed nor destroyed. *)
Theorem cleanPool_frees_exactly_own_entries (k : PoolId) (clearAllocations : bool) (st : State) :
  vk_active (vulkanUtil_ (this st)) = true →
  ourPid (this st) ≠ 0 →
  let st' := cleanPool k clearAllocations st in
  ∃ hs, vk_freed (vulkanUtil_ (this st')) = vk_freed (vulkanUtil_ (this st)) ++ hs ∧
    (∀ h, h ∈ hs ↔ ∃ off d, own_gpu_entry k st off d ∧ handle (first d) = h) ∧
    (∀ off d, own_gpu_entry k st off d → shm_gpu (shm_ st') !! off = None) ∧
    (∀ off, (∀ d, ¬ own_gpu_entry k st off d) →
            shm_gpu (shm_ st') !! off = shm_gpu (shm_ st) !! off).
Proof.
  intros Hactive Hpid. cbv zeta. rewrite cleanPool_unfold. cbv zeta. rewrite Hactive.
  destruct (cleanPool_fold_own k st Hpid) as (hs & Hfreed & Hown & Hgone & Hkept).
  cbv zeta in Hfreed, Hgone, Hkept.
  match goal with |- context [set_pool k ?p ?s] =>
    destruct (set_pool_frame k p s) as (_ & _ & _ & Hgpu & _) end.
  cbn [shm_ this vulkanUtil_ set_vulkanUtil]. rewrite Hgpu.
  exists hs. by repeat split; try apply Hown.
Qed.

(** The sample process cleans the pool that holds the descriptor it dropped. *)
Lemma cleanPool_frees_exactly_own_entries_witness :
  vk_active (vulkanUtil_ (this sample_gpu_recycled)) = true ∧
  ourPid (this sample_gpu_recycled) ≠ 0 ∧
  ∃ hs, vk_freed (vulkanUtil_ (this (cleanPool GpuPool false sample_gpu_recycled)))
        = vk_freed (vulkanUtil_ (this sample_gpu_recycled)) ++ hs ∧
    (∀ h, h ∈ hs ↔ ∃ off d, own_gpu_entry GpuPool sample_gpu_recycled off d ∧ handle (first d) = h) ∧
    (∀ off d, own_gpu_entry GpuPool sample_gpu_recycled off d →
              shm_gpu (shm_ (cleanPool GpuPool false sample_gpu_recycled)) !! off = None) ∧
    (∀ off, (∀ d, ¬ own_gpu_entry GpuPool sample_gpu_recycled off d) →
            shm_gpu (shm_ (cleanPool GpuPool false sample_gpu_recycled)) !! off
            = shm_gpu (shm_ sample_gpu_recycled) !! off).
Proof.
  assert (H1 : vk_active (vulkanUtil_ (this sample_gpu_recycled)) = true) by reflexivity.
  assert (H2 : ourPid (this sample_gpu_recycled) ≠ 0) by discriminate.
  split; [exact H1|]. split; [exact H2|].
  exact (cleanPool_frees_exactly_own_entries GpuPool false sample_gpu_recycled H1 H2).
Defined.

Lemma subtract_sizes_empty pool : sizes pool = ∅ → subtract_sizes pool = allocated pool.
Proof. unfold subtract_sizes. intros ->. apply map_fold_empty. Qed.

(** X12. [cleanPool] empties every free-list of the pool, whoever put the
    entries there.  With [clearAllocations] off it keeps [sizes] and
    [allocated] as they are, so the charge of buffers that can no longer be
    recycled stays; with [clearAllocations] on it clears the registry and
    takes every registered size off [allocated].  The other pools, the
    auditor and the control blocks are not touched; without Vulkan nothing
    is freed or destroyed.  A second [cleanPool] changes nothing. *)
Theorem cleanPool_clears_free_lists (k : PoolId) (clearAllocations : bool) (st : State) :
  let st' := cleanPool k clearAllocations st in
  let pool := get_pool k (shm_ st) in
  get_pool k (shm_ st') =
    (if clearAllocations then mkMemoryPoolIPC ∅ ∅ (subtract_sizes pool)
     else mkMemoryPoolIPC ∅ (sizes pool) (allocated pool)) ∧
  (∀ k', k' ≠ k → get_pool k' (shm_ st') = get_pool k' (shm_ st)) ∧
  shm_auditor (shm_ st') = shm_auditor (shm_ st) ∧
  shm_ctl (shm_ st') = shm_ctl (shm_ st) ∧
  shm_next (shm_ st') = shm_next (shm_ st) ∧
  shm_gpu (shm_ st') ⊆ shm_gpu (shm_ st) ∧
  (vk_active (vulkanUtil_ (this st)) = false →
     this st' = this st ∧ shm_gpu (shm_ st') = shm_gpu (shm_ st) ∧
     shm_bytes (shm_ st') = shm_bytes (shm_ st)) ∧
  cleanPool k clearAllocations st' = st'.
Proof.
  cbv zeta.
  pose proof (cleanPool_unfold k clearAllocations st) as Heq. cbv zeta in Heq.
  set (r := if vk_active (vulkanUtil_ (this st)) then _ else _) in Heq.
  assert (Hr : (∀ k', get_pool k' r.2 = get_pool k' (shm_ st)) ∧
               shm_auditor r.2 = shm_auditor (shm_ st) ∧ shm_next r.2 = shm_next (shm_ st) ∧
               shm_ctl r.2 = shm_ctl (shm_ st) ∧ shm_gpu r.2 ⊆ shm_gpu (shm_ st)).
  { subst r. destruct (vk_active _); [|done].
    apply (fold_lists_inv (λ r : VulkanUtil * ManagedSHM,
               (∀ k', get_pool k' r.2 = get_pool k' (shm_ st)) ∧
               shm_auditor r.2 = shm_auditor (shm_ st) ∧ shm_next r.2 = shm_next (shm_ st) ∧
               shm_ctl r.2 = shm_ctl (shm_ st) ∧ shm_gpu r.2 ⊆ shm_gpu (shm_ st))
             (cleanPool_entry (ourPid (this st)))); [done|].
    intros acc n l x _ _ (Hp & Ha & Hn & Hc & Hg).
    destruct (cleanPool_entry_frame (ourPid (this st)) acc x) as (Hp' & Ha' & Hn' & Hc' & Hg' & _).
    split; [intros k'; by rewrite Hp'|]. do 3 (split; [congruence|]). by etrans. }
  destruct Hr as (Hp & Ha & Hn & Hc & Hg).
  set (P := if clearAllocations then _ else _) in Heq.
  assert (HP : buffers P = ∅ ∧ (clearAllocations = true → sizes P = ∅)).
  { subst P. by destruct clearAllocations. }
  rewrite Heq. cbn [shm_ this].
  destruct (set_pool_frame k P r.2) as (Ea & En & Ec & Eg & Eb).
  split; [by rewrite get_set_pool, decide_True|].
  split; [intros k' Hk'; by rewrite get_set_pool, decide_False, Hp|].
  split; [congruence|]. split; [congruence|]. split; [congruence|].
  split; [by rewrite Eg|]. split.
  - intros Hinactive. rewrite Eg, Eb. subst r. rewrite Hinactive. cbn [fst snd].
    split; [by destruct (this st)|done].
  - clearbody P r. rewrite cleanPool_unfold. cbv zeta. cbn [shm_ this vulkanUtil_ set_vulkanUtil].
    rewrite get_set_pool, decide_True by done. destruct HP as [HPb HPs].
    rewrite HPb, map_fold_empty.
    assert (Hpool : (if clearAllocations then mkMemoryPoolIPC ∅ ∅ (subtract_sizes P)
                     else mkMemoryPoolIPC ∅ (sizes P) (allocated P)) = P).
    { destruct clearAllocations.
      - rewrite subtract_sizes_empty by by apply HPs. rewrite <- HPb, <- (HPs eq_refl).
        by destruct P.
      - rewrite <- HPb. by destruct P. }
    rewrite Hpool.
    assert (Hv : (if vk_active r.1 then (r.1, set_pool k P r.2) else (r.1, set_pool k P r.2))
                 = (r.1, set_pool k P r.2)) by by destruct (vk_active r.1).
    rewrite Hv. cbn [fst snd].
    assert (Hs : set_pool k P (set_pool k P r.2) = set_pool k P r.2) by by destruct k.
    by rewrite Hs.
Qed.

(** ** Requests to a GPU pool *)

Lemma findBuffer_scan_None_iff s pid l :
  findBuffer_scan s pid l = None ↔ Forall (λ o, second (deref_gpu s o) ≠ pid) l.
Proof.
  split; [apply findBuffer_scan_None|].
  induction 1 as [|it rest Hit _ IH]; cbn [findBuffer_scan]; [done|].
  by rewrite bool_decide_eq_false_2, IH.
Qed.

Lemma getGpuBufferFromPool_share_data k off dl st :
  gb_data (getGpuBufferFromPool_share k off dl st).1 = Some (first (deref_gpu (shm_ st) off)) ∧
  gb_del (getGpuBufferFromPool_share k off dl st).1 = gpu_destroyLocal.
Proof.
  unfold getGpuBufferFromPool_share. destruct (sp_construct k off (shm_ st)) as [buffer s].
  destruct (handlesGPU_ (this st) !! _); destruct dl;
    try (match goal with |- context [subscript ?x ?y ?m] => destruct (subscript x y m) end); done.
Qed.

Lemma getGpuBufferFromPool_share_frame k off dl st :
  let r := getGpuBufferFromPool_share k off dl st in
  (∀ k', allocated (get_pool k' (shm_ r.2)) = allocated (get_pool k' (shm_ st)) ∧
         sizes (get_pool k' (shm_ r.2)) = sizes (get_pool k' (shm_ st))) ∧
  shm_gpu (shm_ r.2) = shm_gpu (shm_ st) ∧ shm_bytes (shm_ r.2) = shm_bytes (shm_ st) ∧
  ptrs_ (this r.2) = ptrs_ (this st) ∧ gpuHandleProcMap_ (this r.2) = gpuHandleProcMap_ (this st) ∧
  ourPid (this r.2) = ourPid (this st).
Proof.
  cbv zeta. unfold getGpuBufferFromPool_share, sp_construct.
  assert (Hrel : ∀ w s,
    (∀ k', allocated (get_pool k' (sp_release w s)) = allocated (get_pool k' s) ∧
           sizes (get_pool k' (sp_release w s)) = sizes (get_pool k' s)) ∧
    shm_gpu (sp_release w s) = shm_gpu s ∧ shm_bytes (sp_release w s) = shm_bytes s).
  { intros w s. by destruct (sp_release_frame w s) as (? & _ & _ & ? & ?). }
  assert (Hcopy : ∀ w s,
    (∀ k', get_pool k' (sp_copy w s) = get_pool k' s) ∧
    shm_gpu (sp_copy w s) = shm_gpu s ∧ shm_bytes (sp_copy w s) = shm_bytes s).
  { intros w s. by destruct (sp_copy_frame w s) as (? & _ & _ & ? & ?). }
  destruct (handlesGPU_ (this st) !! _); destruct dl;
    try (match goal with |- context [subscript ?x ?y ?m] => destruct (subscript x y m) end);
    cbn [fst snd shm_ this ptrs_ gpuHandleProcMap_ ourPid set_handlesGPU set_gpuMappedBuffers];
    match goal with |- context [sp_release ?w ?s] =>
      destruct (Hrel w s) as (Hp & -> & ->) end;
    try (match goal with |- context [sp_copy ?w ?s] =>
      destruct (Hcopy w s) as (Hp' & -> & ->) end);
    (split; [|by destruct (shm_ st)]); intros k'; destruct (Hp k') as [-> ->];
    rewrite ?Hp'; by destruct k'.
Qed.

(** X13. [getGpuBufferFromPool] returns the empty buffer exactly when
    Vulkan is not active, or no entry of the free-list of the size
    originated in this process and either the budget test
    [allocated + n < shmGPUSize_] (in [size_t], strict) fails or the Vulkan
    allocation answers the handle 0.  A failed call registers nothing,
    charges nothing, maps nothing and creates no descriptor: it leaves the
    state as it was, up to the (empty or foreign) free-list it looked at
    being stored back. *)
Theorem getGpuBufferFromPool_failure
    (vulkanAllocation : Z * Z) (n : Z) (deviceLocal : bool) (st : State) :
  let k := if deviceLocal then GpuDeviceLocalPool else GpuPool in
  let pool := get_pool k (shm_ st) in
  let ptrlist := default [] (buffers pool !! n) in
  let r := getGpuBufferFromPool vulkanAllocation n deviceLocal st in
  (gb_data r.1 = None ↔
     vk_active (vulkanUtil_ (this st)) = false ∨
     (Forall (λ o, second (deref_gpu (shm_ st) o) ≠ ourPid (this st)) ptrlist ∧
      (shmGPUSize_ (this st) ≤ Size.add (allocated pool) n ∨ vulkanAllocation.1 = 0))) ∧
  (gb_data r.1 = None →
     r.1 = GpuBuffer_empty ∧
     (r.2 = st ∨
      r.2 = on_shm (set_pool k (set_buffers (<[n := ptrlist]> (buffers pool)) pool)) st)).
Proof.
  cbv zeta. unfold getGpuBufferFromPool.
  destruct (vk_active (vulkanUtil_ (this st))) eqn:Hactive; cbn [negb].
  2: { split; [split; [by left|done]|]. intros _. split; [done|by left]. }
  set (k := if deviceLocal then GpuDeviceLocalPool else GpuPool).
  unfold findBuffer.
  destruct (findBuffer_scan (shm_ st) (ourPid (this st))
              (default [] (buffers (get_pool k (shm_ st)) !! n))) as [[off l']|] eqn:Hscan.
  - apply findBuffer_scan_Some in Hscan as (l1 & l2 & Hl & _ & _ & Hown).
    destruct (getGpuBufferFromPool_share_data k off deviceLocal
                (on_shm (set_pool k (set_buffers (<[n := l']> (buffers (get_pool k (shm_ st))))
                                       (get_pool k (shm_ st)))) st)) as [Hdata _].
    rewrite Hdata. split; [|done]. split; [done|].
    intros [?|[Hforeign _]]; [done|]. rewrite Hl in Hforeign.
    apply Forall_app in Hforeign as [_ Hforeign]. by inversion Hforeign.
  - apply findBuffer_scan_None_iff in Hscan.
    set (st1 := on_shm _ st).
    assert (Halloc : allocated (get_pool k (shm_ st1)) = allocated (get_pool k (shm_ st)))
      by (subst st1; by destruct k).
    assert (Hsize : shmGPUSize_ (this st1) = shmGPUSize_ (this st)) by done.
    rewrite Halloc, Hsize.
    destruct (Size.add (allocated (get_pool k (shm_ st))) n <? shmGPUSize_ (this st)) eqn:Hbudget.
    + apply Z.ltb_lt in Hbudget.
      destruct (vulkanAllocation.1 =? 0) eqn:Hzero.
      * apply Z.eqb_eq in Hzero. split; [|intros _; split; [done|by right]].
        split; [|done]. intros _. right. split; [done|by right].
      * apply Z.eqb_neq in Hzero.
        destruct (construct_gpu _ (shm_ st1)) as [off s].
        match goal with |- context [getGpuBufferFromPool_share k off deviceLocal ?x] =>
          destruct (getGpuBufferFromPool_share_data k off deviceLocal x) as [Hdata _] end.
        rewrite Hdata. split; [|done]. split; [done|].
        intros [?|[_ [?|?]]]; [done|lia|done].
    + apply Z.ltb_ge in Hbudget. split; [|intros _; split; [done|by right]].
      split; [|done]. intros _. right. split; [done|by left].
Qed.



Lemma GpuBufferDataWithPID_eta x : mkGpuBufferDataWithPID (first x) (second x) = x.
Proof. by destruct x. Qed.

(** X15. The descriptor of every buffer [getGpuBufferFromPool] hands out is
    alive in the segment and recorded there with the PID of the calling
    process.  Either it was recycled: it sat on the free-list of the size,
    recorded with that PID, behind entries recorded with other PIDs only,
    which the call has skipped; or it was allocated by this call, at the
    next free offset, from what the Vulkan allocation answered.  The origin
    is told by the PID alone: a process that runs under the PID of an
    earlier one is handed that one's entries.  The hypothesis is that the
    entries of the free-list are offsets of live descriptors. *)
Theorem getGpuBufferFromPool_only_own_buffers
    (vulkanAllocation : Z * Z) (n : Z) (deviceLocal : bool) (st : State)
    (d : GpuBufferData) :
  let k := if deviceLocal then GpuDeviceLocalPool else GpuPool in
  let ptrlist := default [] (buffers (get_pool k (shm_ st)) !! n) in
  let r := getGpuBufferFromPool vulkanAllocation n deviceLocal st in
  let own := mkGpuBufferDataWithPID d (ourPid (this st)) in
  Forall (λ o, is_Some (shm_gpu (shm_ st) !! o)) ptrlist →
  gb_data r.1 = Some d →
  ourPid (this r.2) = ourPid (this st) ∧
  ∃ off,
    shm_gpu (shm_ r.2) !! off = Some own ∧
    ((∃ l1 l2, ptrlist = l1 ++ off :: l2 ∧
               shm_gpu (shm_ st) !! off = Some own ∧
               Forall (λ o, ∃ x, shm_gpu (shm_ st) !! o = Some x ∧ second x ≠ ourPid (this st)) l1) ∨
     (off = shm_next (shm_ st) ∧
      d = mkGpuBufferData vulkanAllocation.1 n vulkanAllocation.2 ∧
      vulkanAllocation.1 ≠ 0 ∧
      Forall (λ o, ∃ x, shm_gpu (shm_ st) !! o = Some x ∧ second x ≠ ourPid (this st)) ptrlist)).
Proof.
  cbv zeta. intros Hlive. unfold getGpuBufferFromPool.
  destruct (vk_active (vulkanUtil_ (this st))); cbn [negb]; [|discriminate].
  set (k := if deviceLocal then GpuDeviceLocalPool else GpuPool) in *.
  assert (Hforeign : ∀ l,
    Forall (λ o, is_Some (shm_gpu (shm_ st) !! o)) l →
    Forall (λ o, second (deref_gpu (shm_ st) o) ≠ ourPid (this st)) l →
    Forall (λ o, ∃ x, shm_gpu (shm_ st) !! o = Some x ∧ second x ≠ ourPid (this st)) l).
  { intros l Hl Hf. rewrite Forall_forall in Hl, Hf. apply Forall_forall. intros o Ho.
    destruct (Hl o Ho) as [x Hx]. exists x. split; [done|].
    specialize (Hf o Ho). unfold deref_gpu in Hf. by rewrite Hx in Hf. }
  assert (Hshare : ∀ off st0,
    ourPid (this st0) = ourPid (this st) →
    shm_gpu (shm_ st0) !! off = Some (mkGpuBufferDataWithPID
                                         (first (deref_gpu (shm_ st0) off)) (ourPid (this st))) →
    gb_data (getGpuBufferFromPool_share k off deviceLocal st0).1 = Some d →
    d = first (deref_gpu (shm_ st0) off) ∧
    ourPid (this (getGpuBufferFromPool_share k off deviceLocal st0).2) = ourPid (this st) ∧
    shm_gpu (shm_ (getGpuBufferFromPool_share k off deviceLocal st0).2) !! off
      = Some (mkGpuBufferDataWithPID d (ourPid (this st)))).
  { intros off st0 Hpid Hown Hd.
    destruct (getGpuBufferFromPool_share_data k off deviceLocal st0) as [Hdata _].
    rewrite Hdata in Hd. injection Hd as <-.
    destruct (getGpuBufferFromPool_share_frame k off deviceLocal st0) as (_ & Hg & _ & _ & _ & Hp).
    cbv zeta in Hg, Hp. split; [done|]. split; [congruence|]. by rewrite Hg. }
  unfold findBuffer.
  destruct (findBuffer_scan (shm_ st) (ourPid (this st))
              (default [] (buffers (get_pool k (shm_ st)) !! n))) as [[off l']|] eqn:Hscan.
  - apply findBuffer_scan_Some in Hscan as (l1 & l2 & Hl & _ & Hskipped & Hown).
    rewrite Hl in Hlive. apply Forall_app in Hlive as [Hlive1 Hlive2].
    apply Forall_cons in Hlive2 as [[x Hx] _].
    set (st0 := on_shm _ st).
    assert (Hgpu : shm_gpu (shm_ st0) = shm_gpu (shm_ st)) by (subst st0; by destruct k).
    assert (Hderef : deref_gpu (shm_ st0) off = x)
      by (unfold deref_gpu; by rewrite Hgpu, Hx).
    assert (Hsecond : second x = ourPid (this st))
      by (unfold deref_gpu in Hown; by rewrite Hx in Hown).
    intros Hd.
    destruct (Hshare off st0) as (Hdx & Hpid & Hstored); [done| |done|].
    { rewrite Hderef, Hgpu, Hx, <- Hsecond. by destruct x. }
    split; [exact Hpid|]. exists off. split; [exact Hstored|]. left.
    exists l1, l2. split; [done|]. split; [|by apply Hforeign].
    rewrite Hx, Hdx, Hderef, <- Hsecond. by destruct x.
  - apply findBuffer_scan_None_iff in Hscan.
    set (st1 := on_shm _ st).
    destruct (_ <? _); [|discriminate].
    destruct (vulkanAllocation.1 =? 0) eqn:Hzero; [discriminate|]. apply Z.eqb_neq in Hzero.
    assert (Hnext : shm_next (shm_ st1) = shm_next (shm_ st)) by (subst st1; by destruct k).
    unfold construct_gpu. rewrite Hnext.
    match goal with |- context [getGpuBufferFromPool_share k ?o deviceLocal ?x] =>
      set (st2 := x) end.
    assert (Hlook : shm_gpu (shm_ st2) !! shm_next (shm_ st)
                    = Some (mkGpuBufferDataWithPID
                              (mkGpuBufferData vulkanAllocation.1 n vulkanAllocation.2)
                              (ourPid (this st)))).
    { subst st2. cbn [shm_].
      match goal with |- context [set_pool k ?p ?s] =>
        destruct (set_pool_frame k p s) as (_ & _ & _ & -> & _) end.
      cbn [shm_gpu set_gpu]. apply lookup_insert_eq. }
    assert (Hderef : first (deref_gpu (shm_ st2) (shm_next (shm_ st)))
                     = mkGpuBufferData vulkanAllocation.1 n vulkanAllocation.2)
      by (unfold deref_gpu; by rewrite Hlook).
    intros Hd.
    destruct (Hshare (shm_next (shm_ st)) st2) as (Hdx & Hpid & Hstored); [done| |done|].
    { by rewrite Hderef. }
    split; [exact Hpid|]. exists (shm_next (shm_ st)). split; [exact Hstored|]. right.
    split; [done|]. split; [by rewrite Hdx, Hderef|]. split; [done|by apply Hforeign].
Qed.

(** The sample process asks again for a host-visible buffer of 4096 bytes
    after it has dropped the first: the descriptor at offset 1, recorded
    with the PID 100, is handed out again. *)
Lemma getGpuBufferFromPool_only_own_buffers_witness :
  Forall (λ o, is_Some (shm_gpu (shm_ sample_gpu_recycled) !! o))
         (default [] (buffers (get_pool GpuPool (shm_ sample_gpu_recycled)) !! 4096)) ∧
  gb_data (getGpuBufferFromPool (0, 0) 4096 false sample_gpu_recycled).1
    = Some (mkGpuBufferData 33 4096 2) ∧
  ∃ off,
    shm_gpu (shm_ (getGpuBufferFromPool (0, 0) 4096 false sample_gpu_recycled).2) !! off
      = Some (mkGpuBufferDataWithPID (mkGpuBufferData 33 4096 2) 100) ∧
    off ∈ default [] (buffers (get_pool GpuPool (shm_ sample_gpu_recycled)) !! 4096).
Proof.
  assert (Hlive : Forall (λ o, is_Some (shm_gpu (shm_ sample_gpu_recycled) !! o))
                    (default [] (buffers (get_pool GpuPool (shm_ sample_gpu_recycled)) !! 4096))).
  { change (Forall (λ o, is_Some (shm_gpu (shm_ sample_gpu_recycled) !! o)) [1]).
    constructor; [|constructor]. by eexists. }
  assert (Hd : gb_data (getGpuBufferFromPool (0, 0) 4096 false sample_gpu_recycled).1
               = Some (mkGpuBufferData 33 4096 2)) by reflexivity.
  split; [exact Hlive|]. split; [exact Hd|].
  destruct (getGpuBufferFromPool_only_own_buffers (0, 0) 4096 false sample_gpu_recycled _ Hlive Hd)
    as (_ & off & Hstored & [(l1 & l2 & Hl & _)|(_ & _ & Hzero & _)]).
  - exists off. split; [exact Hstored|]. cbv zeta in Hl. rewrite Hl. set_solver.
  - by contradict Hzero.
Defined.

(** ** A GPU buffer received from another process *)

Lemma createLocal_gpu_unfold os w st :
  let pointer := deref_gpu (shm_ st) (get_handle_from_address (sp_get w)) in
  let h := origin_handle w st in
  let dup := match gpuHandleProcMap_ (this st) !! h with
             | Some nh => Some nh
             | None => match os with
                       | DuplicateHandle_result r t => if negb r then None else Some (Size.wrap t)
                       | open_result fd => Some (Size.wrap fd)
                       end
             end in
  createLocal_gpu os w st =
  match dup with
  | None => (GpuBuffer_empty, st)
  | Some nh =>
      let view := default (vk_map nh (size (first pointer)) (memoryTypeIndex (first pointer)))
                          (gpuMappedBuffers_ (this st) !! nh) in
      (mkGpuBuffer (Some (mkGpuBufferData nh (size (first pointer)) (memoryTypeIndex (first pointer))))
         gpu_destroyLocal_delete view,
       mkState (sp_release (default sp_null (handlesGPU_ (this st) !! nh)) (sp_copy w (shm_ st)))
         (set_gpuMappedBuffers (<[nh := view]> (gpuMappedBuffers_ (this st)))
            (set_handlesGPU (<[nh := w]> (handlesGPU_ (this st)))
               (set_gpuHandleProcMap (<[h := nh]> (gpuHandleProcMap_ (this st))) (this st)))))
  end.
Proof.
  cbv zeta. unfold origin_handle, createLocal_gpu.
  destruct (match gpuHandleProcMap_ (this st) !! _ with Some nh => Some nh | None => _ end)
    as [nh|]; [|done].
  cbn [this handlesGPU_ gpuMappedBuffers_ set_gpuHandleProcMap set_handlesGPU].
  destruct (gpuMappedBuffers_ (this st) !! nh) as [v|] eqn:Hmapped; unfold subscript;
    cbn [this gpuMappedBuffers_ set_gpuMappedBuffers set_handlesGPU set_gpuHandleProcMap default].
  - rewrite Hmapped. by rewrite (insert_id _ _ _ Hmapped).
  - by rewrite lookup_insert_eq.
Qed.

Lemma createLocal_gpu_shm_gpu os w st :
  shm_gpu (shm_ (createLocal_gpu os w st).2) = shm_gpu (shm_ st).
Proof.
  rewrite createLocal_gpu_unfold. cbv zeta.
  destruct (match gpuHandleProcMap_ (this st) !! _ with Some nh => Some nh | None => _ end)
    as [nh|]; [|done].
  cbn [snd shm_].
  destruct (sp_release_frame (default sp_null (handlesGPU_ (this st) !! nh)) (sp_copy w (shm_ st)))
    as (_ & _ & _ & _ & ->).
  by destruct (sp_copy_frame w (shm_ st)) as (_ & _ & _ & _ & ->).
Qed.

(** X16. A successful [createLocal] of a GPU wrapper yields a buffer whose
    [convert] is that wrapper. *)
Theorem createLocal_gpu_convert_round_trip
    (os : HandleDup) (w : SharedPtr) (st : State) (d : GpuBufferData) :
  gb_data (createLocal_gpu os w st).1 = Some d →
  (convert_gpu (createLocal_gpu os w st).1 (createLocal_gpu os w st).2).1 = w.
Proof.
  intros Hd. unfold convert_gpu. rewrite Hd.
  by rewrite (createLocal_gpu_entry os w st d Hd).
Qed.

(** The sample process receives the descriptor process 7 exported; [open]
    answers the file descriptor 5. *)
Lemma createLocal_gpu_convert_round_trip_witness :
  gb_data (createLocal_gpu (open_result 5) (sp_ref 1 2) sample_remote_gpu).1
    = Some (mkGpuBufferData 5 4096 2) ∧
  (convert_gpu (createLocal_gpu (open_result 5) (sp_ref 1 2) sample_remote_gpu).1
               (createLocal_gpu (open_result 5) (sp_ref 1 2) sample_remote_gpu).2).1
    = sp_ref 1 2.
Proof.
  assert (H : gb_data (createLocal_gpu (open_result 5) (sp_ref 1 2) sample_remote_gpu).1
              = Some (mkGpuBufferData 5 4096 2)) by reflexivity.
  split; [exact H|].
  exact (createLocal_gpu_convert_round_trip (open_result 5) (sp_ref 1 2) sample_remote_gpu _ H).
Defined.

(** X17. A handle is duplicated into the process once.  A successful
    [createLocal] of a GPU wrapper records the local handle under the origin
    handle and maps it, and hands out a descriptor with the local handle and
    the size and memory type of the origin.  From then on [createLocal] of
    a wrapper with that origin handle does not depend on what the operating
    system would answer: it cannot fail, it hands out the same buffer again
    (the recorded handle, the mapping made the first time) and leaves the
    handle record and the mappings as they are. *)
Theorem createLocal_gpu_duplicates_once
    (os : HandleDup) (w : SharedPtr) (st : State) (d : GpuBufferData) :
  let r := createLocal_gpu os w st in
  let pointer := deref_gpu (shm_ st) (get_handle_from_address (sp_get w)) in
  gb_data r.1 = Some d →
  size d = size (first pointer) ∧ memoryTypeIndex d = memoryTypeIndex (first pointer) ∧
  gpuHandleProcMap_ (this r.2) = <[origin_handle w st := handle d]> (gpuHandleProcMap_ (this st)) ∧
  gpuMappedBuffers_ (this r.2) !! handle d = Some (gb_view r.1) ∧
  ∀ os',
    let r' := createLocal_gpu os' w r.2 in
    r'.1 = r.1 ∧
    gpuHandleProcMap_ (this r'.2) = gpuHandleProcMap_ (this r.2) ∧
    gpuMappedBuffers_ (this r'.2) = gpuMappedBuffers_ (this r.2) ∧
    handlesGPU_ (this r'.2) = handlesGPU_ (this r.2).
Proof.
  cbv zeta. intros Hd.
  assert (Horigin : origin_handle w (createLocal_gpu os w st).2 = origin_handle w st).
  { unfold origin_handle, deref_gpu. by rewrite createLocal_gpu_shm_gpu. }
  assert (Hpointer : deref_gpu (shm_ (createLocal_gpu os w st).2) (get_handle_from_address (sp_get w))
                     = deref_gpu (shm_ st) (get_handle_from_address (sp_get w))).
  { unfold deref_gpu. by rewrite createLocal_gpu_shm_gpu. }
  pose proof (createLocal_gpu_unfold os w st) as Heq. cbv zeta in Heq.
  destruct (match gpuHandleProcMap_ (this st) !! _ with Some nh => Some nh | None => _ end)
    as [nh|]; [|by rewrite Heq in Hd].
  revert Hd Horigin Hpointer. rewrite Heq. cbn [fst snd gb_data]. intros Hd Horigin Hpointer.
  injection Hd as <-. cbn [handle size memoryTypeIndex gb_view this gpuHandleProcMap_
    gpuMappedBuffers_ set_gpuMappedBuffers set_handlesGPU set_gpuHandleProcMap].
  split; [done|]. split; [done|]. split; [done|]. split; [apply lookup_insert_eq|].
  intros os'. rewrite createLocal_gpu_unfold. cbv zeta. rewrite Horigin, Hpointer.
  cbn [fst snd gb_data this shm_ gpuHandleProcMap_ gpuMappedBuffers_ handlesGPU_ gb_view
       set_gpuMappedBuffers set_handlesGPU set_gpuHandleProcMap].
  rewrite !lookup_insert_eq. cbn [default fst snd this gpuHandleProcMap_ gpuMappedBuffers_
    handlesGPU_ set_gpuMappedBuffers set_handlesGPU set_gpuHandleProcMap].
  by rewrite !insert_insert_eq.
Qed.

(** The handle 33 of process 7 is recorded with its duplicate 5. *)
Lemma createLocal_gpu_duplicates_once_witness :
  gb_data (createLocal_gpu (open_result 5) (sp_ref 1 2) sample_remote_gpu).1
    = Some (mkGpuBufferData 5 4096 2) ∧
  gpuHandleProcMap_ (this (createLocal_gpu (open_result 5) (sp_ref 1 2) sample_remote_gpu).2)
    = <[origin_handle (sp_ref 1 2) sample_remote_gpu := 5]>
        (gpuHandleProcMap_ (this sample_remote_gpu)).
Proof.
  assert (H : gb_data (createLocal_gpu (open_result 5) (sp_ref 1 2) sample_remote_gpu).1
              = Some (mkGpuBufferData 5 4096 2)) by reflexivity.
  split; [exact H|].
  exact (proj1 (proj2 (proj2
    (createLocal_gpu_duplicates_once (open_result 5) (sp_ref 1 2) sample_remote_gpu _ H)))).
Defined.

(** ** Queries *)

Lemma sp_copy_release w s : ctl_positive s → sp_release w (sp_copy w s) = s.
Proof.
  intros Hpos. destruct w as [|o c]; [done|]. unfold sp_copy.
  destruct (shm_ctl s !! c) as [cb|] eqn:Hc.
  - unfold sp_release. cbn [shm_ctl set_ctl]. rewrite lookup_insert_eq.
    cbn [use_count rc_pool rc_offset]. specialize (Hpos c cb Hc).
    destruct (use_count cb) as [|m] eqn:Hm; [lia|].
    rewrite insert_insert_eq.
    rewrite (insert_id (shm_ctl s) c (mkControlBlock (S m) (rc_pool cb) (rc_offset cb)))
      by (rewrite Hc, <- Hm; by destruct cb).
    by destruct s.
  - unfold sp_release. by rewrite Hc.
Qed.

Lemma sp_copy_positive w s : ctl_positive s → ctl_positive (sp_copy w s).
Proof.
  intros Hpos. destruct w as [|o c]; [done|]. unfold sp_copy.
  destruct (shm_ctl s !! c) as [cb|] eqn:Hc; [|done].
  intros c' cb'. cbn [shm_ctl set_ctl]. intros Hc'.
  apply lookup_insert_Some in Hc' as [[_ <-]|[_ Hc']]; [cbn; lia|by eapply Hpos].
Qed.

(** X18. [convert] hands out one more owner of the wrapper and nothing
    else; [isBufferFromPool], which tests the wrapper and lets it go again,
    leaves the whole state as it was, the use counts included (no live
    control block has the count zero). *)
Theorem isBufferFromPool_leaves_state (buf : AnyBuffer) (st : State) :
  ctl_positive (shm_ st) →
  (isBufferFromPool buf st).2 = st ∧
  (∀ b, this (convert b st).2 = this st ∧
        shm_ (convert b st).2 = sp_copy (convert b st).1 (shm_ st) ∧
        sp_release (convert b st).1 (shm_ (convert b st).2) = shm_ st) ∧
  (∀ b, this (convert_gpu b st).2 = this st ∧
        shm_ (convert_gpu b st).2 = sp_copy (convert_gpu b st).1 (shm_ st) ∧
        sp_release (convert_gpu b st).1 (shm_ (convert_gpu b st).2) = shm_ st).
Proof.
  intros Hpos.
  assert (Hcpu : ∀ b, this (convert b st).2 = this st ∧
                      shm_ (convert b st).2 = sp_copy (convert b st).1 (shm_ st)).
  { intros b. unfold convert. by destruct (ptrs_ (this st) !! cb_ptr b). }
  assert (Hgpu : ∀ b, this (convert_gpu b st).2 = this st ∧
                      shm_ (convert_gpu b st).2 = sp_copy (convert_gpu b st).1 (shm_ st)).
  { intros b. unfold convert_gpu. destruct (gb_data b) as [d|]; [|done].
    by destruct (handlesGPU_ (this st) !! handle d). }
  split; [|split].
  - unfold isBufferFromPool. destruct buf as [b|b].
    + destruct (Hcpu b) as [Ht Hs]. destruct (convert b st) as [w st1]. cbn [fst snd] in *.
      unfold on_shm. rewrite Ht, Hs, sp_copy_release by done. by destruct st.
    + destruct (Hgpu b) as [Ht Hs]. destruct (convert_gpu b st) as [w st1]. cbn [fst snd] in *.
      unfold on_shm. rewrite Ht, Hs, sp_copy_release by done. by destruct st.
  - intros b. destruct (Hcpu b) as [Ht Hs]. rewrite Hs. by rewrite sp_copy_release.
  - intros b. destruct (Hgpu b) as [Ht Hs]. rewrite Hs. by rewrite sp_copy_release.
Qed.

(** The two control blocks of the sample process holding two buffers have
    one owner each. *)
Lemma sample_two_buffers_positive : ctl_positive (shm_ sample_two_buffers).
Proof.
  assert (Hctl : shm_ctl (shm_ sample_two_buffers)
                 = {[2 := mkControlBlock 1 CpuPool 1; 4 := mkControlBlock 1 CpuPool 3]})
    by (vm_compute; reflexivity).
  intros c cb. rewrite Hctl. intros Hc.
  apply lookup_insert_Some in Hc as [[_ <-]|[_ Hc]]; [cbn; lia|].
  apply lookup_singleton_Some in Hc as [_ <-]. cbn; lia.
Qed.

(** The query on the buffer at offset 1 of the sample process holding two
    buffers. *)
Lemma isBufferFromPool_leaves_state_witness :
  ctl_positive (shm_ sample_two_buffers) ∧
  (isBufferFromPool (any_cpu (mkCpuBuffer (shm_addr 1) del_destroyLocal)) sample_two_buffers).2
    = sample_two_buffers.
Proof.
  split; [exact sample_two_buffers_positive|].
  exact (proj1 (isBufferFromPool_leaves_state
                  (any_cpu (mkCpuBuffer (shm_addr 1) del_destroyLocal)) sample_two_buffers
                  sample_two_buffers_positive)).
Defined.

(** X19. [isBufferFromPool] tells a shared buffer from a local one: for the
    buffer [getBufferFromPool] returns it answers true exactly when the
    buffer came from the shared pool, and false when the buffer is a local
    fallback allocation (the stream is inactive, or the shared request
    failed). *)
Theorem isBufferFromPool_tells_shared_from_local
    (FRAC : spec_float) (id : string) (n : Z) (st : State) :
  ptrs_in_segment st →
  let r := getBufferFromPool FRAC id n st in
  ((isBufferFromPool (any_cpu r.1) r.2).1 = true ↔
   stream_shared id st = true ∧ r.1 = (requestSHM FRAC n st).1 ∧
   cb_is_null (requestSHM FRAC n st).1 = false) ∧
  ((isBufferFromPool (any_cpu r.1) r.2).1 = false ↔ cb_del r.1 = del_localPool).
Proof.
  intros Hst. cbv zeta. rewrite getBufferFromPool_cases.
  assert (Hlocal : ∀ st0, ptrs_in_segment st0 →
            (isBufferFromPool (any_cpu (memoryPool_request n st0).1) (memoryPool_request n st0).2).1
            = false).
  { intros st0 Hst0. unfold isBufferFromPool, convert, memoryPool_request.
    cbn [fst snd cb_ptr this on_this ptrs_ set_memoryPool].
    destruct (ptrs_ (this st0) !! heap_addr (memoryPool_ (this st0))) as [w|] eqn:Hheap; [|done].
    apply Hst0 in Hheap. by destruct w. }
  destruct (stream_shared id st).
  - pose proof (requestSHM_in_segment FRAC n st Hst) as Hst1.
    pose proof (requestSHM_entry FRAC n st) as Hentry.
    pose proof (requestSHM_result FRAC n st) as Hres.
    destruct (requestSHM FRAC n st) as [b st1]. cbn [fst snd] in *.
    destruct Hres as [->|[off ->]]; cbn [cb_is_null CpuBuffer_empty cb_ptr] in *.
    + rewrite Hlocal by done. cbn [memoryPool_request fst cb_del]. split; [split|]; try done.
      by intros (_ & _ & ?).
    + destruct (Hentry eq_refl) as [w Hw]. pose proof (Hst1 _ _ Hw) as Hget.
      unfold isBufferFromPool, convert. cbn [fst snd cb_ptr cb_del]. rewrite Hw.
      destruct w as [|o c]; [done|]. cbn [fst sp_bool]. split; [split|]; try done.
  - rewrite Hlocal by done. cbn [memoryPool_request fst cb_del]. split; [split|]; try done.
    by intros (? & _).
Qed.

(** The stream is marked inactive: the buffer is a local allocation. *)
Lemma isBufferFromPool_tells_shared_from_local_witness :
  ptrs_in_segment sample_gated ∧
  (isBufferFromPool (any_cpu (getBufferFromPool frac_0_9 "A" 64 sample_gated).1)
                    (getBufferFromPool frac_0_9 "A" 64 sample_gated).2).1 = false.
Proof.
  split; [exact sample_gated_in_segment|].
  apply (proj2 (isBufferFromPool_tells_shared_from_local frac_0_9 "A" 64 sample_gated
                  sample_gated_in_segment)).
  reflexivity.
Defined.

(** ** The charge of the CPU pool *)

Lemma sum_sizes_insert m off n :
  m !! off = None → sum_sizes (<[off := n]> m) = sum_sizes m + n.
Proof.
  intros Hoff. unfold sum_sizes. rewrite map_fold_insert_L; [done| |done].
  intros. lia.
Qed.

Lemma wrap_sub_l a b : Size.wrap (Size.wrap a - b) = Size.wrap (a - b).
Proof. unfold Size.wrap. apply Zminus_mod_idemp_l. Qed.

Lemma wrap_add_l a b : Size.wrap (Size.wrap a + b) = Size.wrap (a + b).
Proof. unfold Size.wrap. apply Zplus_mod_idemp_l. Qed.

Lemma wrap_idemp a : Size.wrap (Size.wrap a) = Size.wrap a.
Proof. unfold Size.wrap. apply Zmod_mod. Qed.

Lemma subtract_sizes_sum pool :
  Size.wrap (subtract_sizes pool) = Size.wrap (allocated pool - sum_sizes (sizes pool)).
Proof.
  unfold subtract_sizes, sum_sizes.
  induction (sizes pool) as [|off n m Hoff Hfold IH] using map_first_key_ind.
  - rewrite !map_fold_empty. f_equal. lia.
  - rewrite !map_fold_insert_first_key by done.
    unfold Size.sub in *. rewrite wrap_idemp, <- (wrap_sub_l _ n), IH, wrap_sub_l. f_equal. lia.
Qed.

Lemma subtract_sizes_accounted pool : accounted pool → subtract_sizes pool = 0.
Proof.
  intros Hacc.
  assert (Hwrapped : subtract_sizes pool = Size.wrap (subtract_sizes pool)).
  { unfold subtract_sizes.
    induction (sizes pool) as [|off n m Hoff Hfold IH] using map_first_key_ind.
    - rewrite map_fold_empty. unfold accounted in Hacc. rewrite Hacc. by rewrite wrap_idemp.
    - rewrite map_fold_insert_first_key by done. unfold Size.sub. by rewrite wrap_idemp. }
  rewrite Hwrapped, subtract_sizes_sum. unfold accounted in Hacc. rewrite Hacc, wrap_sub_l.
  by rewrite Z.sub_diag.
Qed.

Lemma requestSHM_this FRAC n st :
  this (requestSHM FRAC n st).2 = set_ptrs (ptrs_ (this (requestSHM FRAC n st).2)) (this st).
Proof.
  destruct (requestSHM_cases FRAC n st) as [(l' & off & _ & ->)|[(_ & _ & ->)|(_ & _ & ->)]].
  - by destruct (requestSHM_share_frame off (get_address_from_handle off) (after_pop n l' st))
      as (_ & _ & ->).
  - by destruct (requestSHM_share_frame (shm_next (shm_ st))
                   (get_address_from_handle (shm_next (shm_ st))) (after_alloc n st))
      as (_ & _ & ->).
  - cbn [snd after_pop on_shm this]. by destruct (this st).
Qed.

Lemma CpuBuffer_drop_this b st :
  this (CpuBuffer_drop b st) = set_ptrs (ptrs_ (this (CpuBuffer_drop b st))) (this st).
Proof.
  unfold CpuBuffer_drop, destroyLocal.
  destruct (cb_del b); try by destruct (this st).
  destruct (ptrs_ (this st) !! cb_ptr b); by destruct (this st).
Qed.

Lemma step_frame FRAC cfg op :
  shm_auditor (shm_ (step FRAC cfg op).1) = shm_auditor (shm_ cfg.1) ∧
  this (step FRAC cfg op).1 = set_ptrs (ptrs_ (this (step FRAC cfg op).1)) (this cfg.1).
Proof.
  destruct cfg as [st held]. destruct op as [n|i]; cbn [step fst snd].
  - pose proof (requestSHM_auditor FRAC n st) as Ha.
    pose proof (requestSHM_this FRAC n st) as Ht.
    by destruct (requestSHM FRAC n st) as [b st'].
  - destruct (held !! i) as [b|]; cbn [fst].
    + split; [apply CpuBuffer_drop_auditor|apply CpuBuffer_drop_this].
    + split; [done|by destruct (this st)].
Qed.

Lemma run_frame FRAC ops cfg :
  shm_auditor (shm_ (run FRAC ops cfg).1) = shm_auditor (shm_ cfg.1) ∧
  this (run FRAC ops cfg).1 = set_ptrs (ptrs_ (this (run FRAC ops cfg).1)) (this cfg.1).
Proof.
  revert cfg. induction ops as [|op ops IH]; intros cfg; cbn [run foldl].
  - split; [done|by destruct (this cfg.1)].
  - destruct (IH (step FRAC cfg op)) as [Ha Ht]. destruct (step_frame FRAC cfg op) as [Ha' Ht'].
    unfold run in *. rewrite Ha, Ha'. split; [done|]. rewrite Ht, Ht'. done.
Qed.

Lemma request_accounted FRAC n st :
  pool_wf st → accounted (shm_pool (shm_ st)) →
  accounted (shm_pool (shm_ (requestSHM FRAC n st).2)).
Proof.
  intros (_ & _ & Hfresh) Hacc. unfold accounted in *.
  destruct (requestSHM_cases FRAC n st) as [(l' & off & _ & ->)|[(_ & _ & ->)|(_ & _ & ->)]].
  - destruct (requestSHM_share_frame off (get_address_from_handle off) (after_pop n l' st))
      as (Hp & _). destruct (Hp CpuPool) as [Ha Hs]. cbn [get_pool] in Ha, Hs.
    by rewrite Ha, Hs.
  - destruct (requestSHM_share_frame (shm_next (shm_ st))
                (get_address_from_handle (shm_next (shm_ st))) (after_alloc n st))
      as (Hp & _). destruct (Hp CpuPool) as [Ha Hs]. cbn [get_pool] in Ha, Hs.
    rewrite Ha, Hs. unfold after_alloc. cbn [shm_ shm_pool set_pool allocated sizes].
    destruct (Hfresh (shm_next (shm_ st))) as [Hnone _]; [lia|].
    unfold emplace. rewrite Hnone, sum_sizes_insert by done.
    unfold Size.add. by rewrite Hacc, wrap_add_l.
  - done.
Qed.

Lemma step_accounted FRAC cfg op :
  pool_inv cfg → accounted (shm_pool (shm_ cfg.1)) →
  accounted (shm_pool (shm_ (step FRAC cfg op).1)).
Proof.
  destruct cfg as [st held]. intros (Hwf & _) Hacc. destruct op as [n|i]; cbn [step fst snd] in *.
  - pose proof (request_accounted FRAC n st Hwf Hacc) as Hacc'.
    by destruct (requestSHM FRAC n st) as [b st'].
  - destruct (held !! i) as [b|]; cbn [fst]; [|done].
    destruct (CpuBuffer_drop_frame b st) as (Hp & _). destruct (Hp CpuPool) as [Ha Hs].
    cbn [get_pool] in Ha, Hs. unfold accounted in *. by rewrite Ha, Hs.
Qed.

Lemma run_accounted FRAC ops cfg :
  pool_inv cfg → accounted (shm_pool (shm_ cfg.1)) →
  accounted (shm_pool (shm_ (run FRAC ops cfg).1)).
Proof.
  revert cfg. induction ops as [|op ops IH]; intros cfg Hinv Hacc; [done|].
  cbn [run foldl]. apply IH; [by apply step_inv|by apply step_accounted].
Qed.

Lemma accounted_new : accounted MemoryPoolIPC_new.
Proof. reflexivity. Qed.

(** X20. Along every run of requests and drops of a process that attached
    to a new segment, [allocated] of the CPU pool is the sum of the sizes
    registered in [sizes] (in [size_t]): a fresh allocation adds its size to
    both, and nothing before the destructor takes anything off either.  So
    when the process, the only one registered, is destroyed, the destructor
    leaves the segment invalidated with a CPU pool as new: no free-list, no
    registered size, [allocated] back at 0. *)
Theorem session_ends_with_pool_as_new
    (FRAC : spec_float) (alive : Z → bool) (pid : Z) (vkActive : bool)
    (shmSize shmGPUSize : Z) (enableAuditor : bool) (ops : list Op) :
  let st := (run FRAC ops
               (MemoryPoolIPCHybrid_ctor alive pid vkActive ManagedSHM_new shmSize shmGPUSize
                  enableAuditor, [])).1 in
  accounted (shm_pool (shm_ st)) ∧
  shm_auditor (shm_ st) = mkAuditorIPC [mkProcess pid] false ∧
  shm_pool (shm_ (MemoryPoolIPCHybrid_dtor st)) = MemoryPoolIPC_new ∧
  shm_auditor (shm_ (MemoryPoolIPCHybrid_dtor st)) = mkAuditorIPC [] true.
Proof.
  cbv zeta.
  set (st0 := MemoryPoolIPCHybrid_ctor alive pid vkActive ManagedSHM_new shmSize shmGPUSize
                enableAuditor).
  assert (Hctor : shm_ st0 = set_auditor (mkAuditorIPC [mkProcess pid] false) ManagedSHM_new ∧
                  ptrs_ (this st0) = ∅ ∧ ourPid (this st0) = pid ∧ force_clean_ (this st0) = false).
  { subst st0.
    destruct (ctor_registers_ok alive pid vkActive ManagedSHM_new shmSize shmGPUSize enableAuditor)
      as (Hs & Hp & _ & Hpid & Hf); [done|constructor|]. by repeat split. }
  destruct Hctor as (Hshm0 & Hptrs0 & Hpid0 & Hforce0).
  assert (Hinv : pool_inv (st0, [])).
  { split; [|split]; cbn [fst snd]; [|constructor|constructor].
    destruct st0 as [s0 t0]. cbn [shm_ this] in *. apply pool_wf_fresh; [by rewrite Hshm0..|done]. }
  assert (Hacc0 : accounted (shm_pool (shm_ (st0, @nil CpuBuffer).1))).
  { cbn [fst]. rewrite Hshm0. exact accounted_new. }
  pose proof (run_accounted FRAC ops (st0, []) Hinv Hacc0) as Hacc.
  destruct (run_frame FRAC ops (st0, [])) as [Ha Ht]. cbn [fst] in Ha, Ht.
  set (st := (run FRAC ops (st0, [])).1) in *.
  assert (Haud : shm_auditor (shm_ st) = mkAuditorIPC [mkProcess pid] false)
    by (by rewrite Ha, Hshm0).
  split; [exact Hacc|]. split; [exact Haud|].
  pose proof (dtor_shm st) as Hd. cbv zeta in Hd.
  assert (Hprocs : (if force_clean_ (this st) then []
                    else erase_self (ourPid (this st)) (processes (shm_auditor (shm_ st)))) = []).
  { rewrite Ht, Haud. cbn [force_clean_ ourPid set_ptrs processes]. rewrite Hforce0, Hpid0.
    cbn [erase_self]. unfold isSelf. cbn [proc_pid]. by rewrite bool_decide_eq_true_2. }
  rewrite Hprocs in Hd. rewrite bool_decide_eq_true_2 in Hd by done.
  generalize dependent (shm_ (MemoryPoolIPCHybrid_dtor st)).
  intros sd (Hda & Hds & Hdal & Hdb & _). split; [|exact Hda].
  specialize (Hds CpuPool). specialize (Hdal CpuPool). specialize (Hdb CpuPool (or_intror eq_refl)).
  cbn [get_pool] in Hds, Hdal, Hdb. rewrite subtract_sizes_accounted in Hdal by done.
  unfold MemoryPoolIPC_new. rewrite <- Hds, <- Hdal, <- Hdb. by destruct (shm_pool sd).
Qed.

(** ** Nuking a segment *)

(** X21. [nuke] always answers true.  It destroys the three pools and the
    auditor and nothing else: the byte blocks, the GPU descriptors and the
    control blocks of the segment stay allocated, and what the segment
    manager hands out next is not reset.  On the nuked segment the named
    objects are found as new, so the next constructor passes the audit
    whatever happened before (an invalidated segment, records of dead
    processes) and registers its process alone.  Nuking twice is nuking
    once. *)
Theorem nuke_resets_named_objects_only (shm : ManagedSHM) :
  let s' := (nuke shm).2 in
  (nuke shm).1 = true ∧
  (∀ k, get_pool k s' = MemoryPoolIPC_new) ∧
  shm_auditor s' = shm_auditor ManagedSHM_new ∧
  shm_bytes s' = shm_bytes shm ∧ shm_gpu s' = shm_gpu shm ∧ shm_ctl s' = shm_ctl shm ∧
  shm_next s' = shm_next shm ∧
  (nuke s').2 = s' ∧
  ∀ alive pid vkActive shmSize shmGPUSize enableAuditor,
    let st := MemoryPoolIPCHybrid_ctor alive pid vkActive s' shmSize shmGPUSize enableAuditor in
    isValid st = true ∧ processes (shm_auditor (shm_ st)) = [mkProcess pid] ∧
    auditorThread_ (this st) = enableAuditor.
Proof.
  cbv zeta. unfold nuke. cbn [fst snd]. split; [done|].
  split; [intros k; by destruct k|]. do 5 (split; [done|]). split; [done|].
  intros alive pid vk sz gsz en.
  destruct (ctor_registers_ok alive pid vk
              (set_auditor (mkAuditorIPC [] false)
                 (set_pool GpuDeviceLocalPool MemoryPoolIPC_new
                    (set_pool GpuPool MemoryPoolIPC_new (set_pool CpuPool MemoryPoolIPC_new shm))))
              sz gsz en) as (Hs & _); [done|constructor|].
  unfold isValid. rewrite Hs. cbn [shm_auditor set_auditor invalid processes negb app].
  split; [done|]. split; [done|].
  unfold MemoryPoolIPCHybrid_ctor, audit, isValid, processesAlive.
  cbn [shm_ shm_auditor set_auditor invalid processes negb processesAlive_loop andb].
  by destruct en.
Qed.

(** ** Nothing is left behind *)











(** ** Recycling a GPU buffer *)

Lemma getGpuBufferFromPool_share_fresh k off dl st :
  handlesGPU_ (this st) !! handle (first (deref_gpu (shm_ st) off)) = None →
  shm_ (getGpuBufferFromPool_share k off dl st).2 =
    set_ctl (<[shm_next (shm_ st) := mkControlBlock 1 k off]> (shm_ctl (shm_ st)))
      (set_next (shm_next (shm_ st) + 1) (shm_ st)) ∧
  handlesGPU_ (this (getGpuBufferFromPool_share k off dl st).2) =
    <[handle (first (deref_gpu (shm_ st) off)) := sp_ref off (shm_next (shm_ st))]>
      (handlesGPU_ (this st)).
Proof.
  intros Hfree. unfold getGpuBufferFromPool_share, sp_construct. rewrite Hfree.
  unfold sp_copy. cbn [shm_ctl set_ctl]. rewrite lookup_insert_eq.
  cbn [use_count rc_pool rc_offset]. unfold sp_release. cbn [shm_ctl set_ctl].
  rewrite lookup_insert_eq. cbn [use_count rc_pool rc_offset].
  destruct dl;
    try (match goal with |- context [subscript ?x ?y ?m] => destruct (subscript x y m) end);
    cbn [snd shm_ this handlesGPU_ set_handlesGPU set_gpuMappedBuffers];
    by rewrite !insert_insert_eq.
Qed.

(** X23. A GPU buffer comes back to its owner.  The process holds the only
    handle of a GPU buffer of size [n] that it allocated, and no entry of the
    free-list of that size is its own.  Dropping the buffer puts its offset
    at the back of the free-list; the next [getGpuBufferFromPool] of that
    size passes over the entries of the other processes, takes this one and
    hands out the same descriptor, without asking Vulkan for memory and
    without charging anything; the entries of the other processes stay on
    the list in their order. *)
Theorem gpu_buffer_returns_to_its_owner
    (vulkanAllocation : Z * Z) (n : Z) (deviceLocal : bool) (st : State)
    (b : GpuBuffer) (d : GpuBufferData) (off c : Z) :
  let k := if deviceLocal then GpuDeviceLocalPool else GpuPool in
  let pool := get_pool k (shm_ st) in
  let l := default [] (buffers pool !! n) in
  vk_active (vulkanUtil_ (this st)) = true →
  gb_data b = Some d → gb_del b ≠ gpu_no_deleter →
  handlesGPU_ (this st) !! handle d = Some (sp_ref off c) →
  shm_ctl (shm_ st) !! c = Some (mkControlBlock 1 k off) →
  sizes pool !! off = Some n →
  shm_gpu (shm_ st) !! off = Some (mkGpuBufferDataWithPID d (ourPid (this st))) →
  Forall (λ o, second (deref_gpu (shm_ st) o) ≠ ourPid (this st)) l →
  let dropped := GpuBuffer_drop b st in
  let r := getGpuBufferFromPool vulkanAllocation n deviceLocal dropped in
  default [] (buffers (get_pool k (shm_ dropped)) !! n) = l ++ [off] ∧
  handlesGPU_ (this dropped) !! handle d = None ∧
  gb_data r.1 = Some d ∧
  (∀ vulkanAllocation', getGpuBufferFromPool vulkanAllocation' n deviceLocal dropped = r) ∧
  default [] (buffers (get_pool k (shm_ r.2)) !! n) = l ∧
  sizes (get_pool k (shm_ r.2)) = sizes pool ∧
  allocated (get_pool k (shm_ r.2)) = allocated pool ∧
  shm_gpu (shm_ r.2) = shm_gpu (shm_ st) ∧
  is_Some (handlesGPU_ (this r.2) !! handle d).
Proof.
  cbv zeta. set (k := if deviceLocal then GpuDeviceLocalPool else GpuPool).
  intros Hactive Hdata Hdel Hhandle Hctl Hsize Hgpu Hforeign.
  assert (Hdrop : GpuBuffer_drop b st =
            mkState (ReclaimerIPC k off (set_ctl (delete c (shm_ctl (shm_ st))) (shm_ st)))
                    (set_handlesGPU (delete (handle d) (handlesGPU_ (this st))) (this st))).
  { unfold GpuBuffer_drop, destroyLocal_gpu. rewrite Hdata, Hhandle.
    rewrite (sp_release_last off c _ _ Hctl) by (cbn; lia). by destruct (gb_del b). }
  set (s0 := set_ctl (delete c (shm_ctl (shm_ st))) (shm_ st)) in *.
  destruct (ReclaimerIPC_frame k off s0) as (Hpools & _ & _ & Hnext & _ & Hrgpu & Hrctl).
  destruct (Hpools k) as [Halloc Hsizes].
  pose proof (ReclaimerIPC_buffers k off n s0) as Hbuf.
  assert (Hs0 : get_pool k s0 = get_pool k (shm_ st)) by (subst s0; by destruct k).
  rewrite Hs0 in Hbuf, Halloc, Hsizes. specialize (Hbuf Hsize).
  set (dropped := GpuBuffer_drop b st) in *.
  assert (Hdgpu : shm_gpu (shm_ dropped) = shm_gpu (shm_ st)) by (by rewrite Hdrop; cbn [shm_]; rewrite Hrgpu).
  assert (Hdlist : default [] (buffers (get_pool k (shm_ dropped)) !! n)
                   = default [] (buffers (get_pool k (shm_ st)) !! n) ++ [off]).
  { rewrite Hdrop. cbn [shm_]. by rewrite Hbuf, lookup_insert_eq. }
  assert (Hdhandle : handlesGPU_ (this dropped) !! handle d = None).
  { rewrite Hdrop. cbn [this handlesGPU_ set_handlesGPU]. apply lookup_delete_eq. }
  assert (Hderef : ∀ o, deref_gpu (shm_ dropped) o = deref_gpu (shm_ st) o)
    by (intros o; unfold deref_gpu; by rewrite Hdgpu).
  assert (Hoff : deref_gpu (shm_ st) off = mkGpuBufferDataWithPID d (ourPid (this st)))
    by (unfold deref_gpu; by rewrite Hgpu).
  assert (Hpid : ourPid (this dropped) = ourPid (this st)) by by rewrite Hdrop.
  assert (Hscan : findBuffer_scan (shm_ dropped) (ourPid (this dropped))
                    (default [] (buffers (get_pool k (shm_ dropped)) !! n))
                  = Some (off, default [] (buffers (get_pool k (shm_ st)) !! n))).
  { rewrite Hdlist, Hpid.
    rewrite <- (app_nil_r (default [] (buffers (get_pool k (shm_ st)) !! n))) at 2.
    apply findBuffer_scan_first.
    - eapply Forall_impl; [exact Hforeign|]. intros o Ho. cbn. by rewrite Hderef.
    - by rewrite Hderef, Hoff. }
  set (stored := on_shm (set_pool k (set_buffers
                   (<[n := default [] (buffers (get_pool k (shm_ st)) !! n)]>
                      (buffers (get_pool k (shm_ dropped)))) (get_pool k (shm_ dropped)))) dropped).
  assert (Hreq : ∀ alloc, getGpuBufferFromPool alloc n deviceLocal dropped
                          = getGpuBufferFromPool_share k off deviceLocal stored).
  { intros alloc. unfold getGpuBufferFromPool.
    assert (Hact : vk_active (vulkanUtil_ (this dropped)) = true) by by rewrite Hdrop.
    rewrite Hact. cbn [negb]. fold k. unfold findBuffer. by rewrite Hscan. }
  assert (Hsgpu : shm_gpu (shm_ stored) = shm_gpu (shm_ st)).
  { subst stored. cbn [shm_ on_shm].
    match goal with |- context [set_pool k ?p ?s] =>
      destruct (set_pool_frame k p s) as (_ & _ & _ & -> & _) end. exact Hdgpu. }
  assert (Hsderef : first (deref_gpu (shm_ stored) off) = d)
    by (unfold deref_gpu; by rewrite Hsgpu, Hgpu).
  assert (Hshandle : handlesGPU_ (this stored) !! handle (first (deref_gpu (shm_ stored) off)) = None)
    by (by rewrite Hsderef).
  destruct (getGpuBufferFromPool_share_fresh k off deviceLocal stored Hshandle) as [Hshm Hhandles].
  destruct (getGpuBufferFromPool_share_data k off deviceLocal stored) as [Hsdata _].
  rewrite Hsderef in Hsdata, Hhandles.
  split; [exact Hdlist|]. split; [exact Hdhandle|]. rewrite !Hreq.
  split; [exact Hsdata|]. split; [intros alloc'; apply Hreq|].
  rewrite Hshm, Hhandles.
  assert (Hspool : get_pool k (shm_ stored) =
            set_buffers (<[n := default [] (buffers (get_pool k (shm_ st)) !! n)]>
                           (buffers (get_pool k (shm_ dropped)))) (get_pool k (shm_ dropped)))
    by (subst stored; cbn [shm_ on_shm]; by rewrite get_set_pool, decide_True).
  assert (Hfinal : ∀ cm nx, get_pool k (set_ctl cm (set_next nx (shm_ stored)))
                            = get_pool k (shm_ stored)) by (intros; by destruct k).
  rewrite Hfinal, Hspool. cbn [buffers sizes allocated set_buffers].
  split; [by rewrite lookup_insert_eq|].
  assert (Hdpool : sizes (get_pool k (shm_ dropped)) = sizes (get_pool k (shm_ st)) ∧
                   allocated (get_pool k (shm_ dropped)) = allocated (get_pool k (shm_ st)))
    by (rewrite Hdrop; cbn [shm_]; by rewrite Hsizes, Halloc).
  destruct Hdpool as [-> ->]. split; [done|]. split; [done|]. split.
  - by destruct (shm_ stored).
  - rewrite lookup_insert_eq. by eexists.
Qed.

(** The sample process drops its GPU buffer and asks for the size again: the
    Vulkan answer passed in, a failure, is never looked at. *)
Lemma gpu_buffer_returns_to_its_owner_witness :
  let st := sample_gpu_held.2 in
  let b := sample_gpu_held.1 in
  let d := mkGpuBufferData 33 4096 2 in
  vk_active (vulkanUtil_ (this st)) = true ∧
  gb_data b = Some d ∧ gb_del b ≠ gpu_no_deleter ∧
  handlesGPU_ (this st) !! handle d = Some (sp_ref 1 2) ∧
  shm_ctl (shm_ st) !! 2 = Some (mkControlBlock 1 GpuPool 1) ∧
  sizes (get_pool GpuPool (shm_ st)) !! 1 = Some 4096 ∧
  shm_gpu (shm_ st) !! 1 = Some (mkGpuBufferDataWithPID d (ourPid (this st))) ∧
  Forall (λ o, second (deref_gpu (shm_ st) o) ≠ ourPid (this st))
         (default [] (buffers (get_pool GpuPool (shm_ st)) !! 4096)) ∧
  gb_data (getGpuBufferFromPool (0, 0) 4096 false (GpuBuffer_drop b st)).1 = Some d.
Proof.
  intros st b d.
  assert (H1 : vk_active (vulkanUtil_ (this st)) = true) by reflexivity.
  assert (H2 : gb_data b = Some d) by reflexivity.
  assert (H3 : gb_del b ≠ gpu_no_deleter) by discriminate.
  assert (H4 : handlesGPU_ (this st) !! handle d = Some (sp_ref 1 2)) by reflexivity.
  assert (H5 : shm_ctl (shm_ st) !! 2 = Some (mkControlBlock 1 GpuPool 1)) by reflexivity.
  assert (H6 : sizes (get_pool GpuPool (shm_ st)) !! 1 = Some 4096) by reflexivity.
  assert (H7 : shm_gpu (shm_ st) !! 1 = Some (mkGpuBufferDataWithPID d (ourPid (this st))))
    by reflexivity.
  assert (H8 : Forall (λ o, second (deref_gpu (shm_ st) o) ≠ ourPid (this st))
                 (default [] (buffers (get_pool GpuPool (shm_ st)) !! 4096)))
    by (vm_compute; constructor).
  do 8 (split; [assumption|]).
  exact (proj1 (proj2 (proj2
    (gpu_buffer_returns_to_its_owner (0, 0) 4096 false st b d 1 2 H1 H2 H3 H4 H5 H6 H7 H8)))).
Defined.

(** ** A buffer in flight between two processes *)

Lemma set_ctl_id s : set_ctl (shm_ctl s) s = s.
Proof. by destruct s. Qed.

(** X24. A buffer sent to another process is recycled by the last owner.
    The sender holds the only wrapper of a registered block; the receiver
    makes a local buffer from it with [createLocal], which adds an owner.
    Whoever lets go first (the sender its wrapper, the receiver its local
    buffer) only takes one from the use count and leaves the block off the
    free-lists; the other one then returns the offset to the back of the
    free-list of its size.  Both orders end in the same segment, with
    [sizes] and [allocated] as they were. *)
Theorem buffer_in_flight_is_recycled_by_last_owner
    (s : ManagedSHM) (receiver : MemoryPoolIPCHybrid) (off c n : Z) :
  let w := sp_ref off c in
  let received := createLocal w (mkState s receiver) in
  let recycled := ReclaimerIPC CpuPool off (set_ctl (delete c (shm_ctl s)) s) in
  shm_ctl s !! c = Some (mkControlBlock 1 CpuPool off) →
  sizes (shm_pool s) !! off = Some n →
  ptrs_ receiver !! shm_addr off = None →
  sp_use_count w (shm_ received.2) = 2%nat ∧
  shm_pool (shm_ received.2) = shm_pool s ∧
  sp_release w (shm_ received.2) = s ∧
  shm_ (CpuBuffer_drop received.1 (mkState (sp_release w (shm_ received.2)) (this received.2)))
    = recycled ∧
  shm_ (CpuBuffer_drop received.1 received.2) = s ∧
  ptrs_ (this (CpuBuffer_drop received.1 received.2)) !! shm_addr off = None ∧
  sp_release w (shm_ (CpuBuffer_drop received.1 received.2)) = recycled ∧
  buffers (shm_pool recycled) =
    <[n := default [] (buffers (shm_pool s) !! n) ++ [off]]> (buffers (shm_pool s)) ∧
  sizes (shm_pool recycled) = sizes (shm_pool s) ∧
  allocated (shm_pool recycled) = allocated (shm_pool s) ∧
  shm_ctl recycled !! c = None.
Proof.
  cbv zeta. intros Hc Hn Hfree.
  assert (Hrecv : createLocal (sp_ref off c) (mkState s receiver) =
            (mkCpuBuffer (shm_addr off) del_destroyLocal,
             mkState (set_ctl (<[c := mkControlBlock 2 CpuPool off]> (shm_ctl s)) s)
                     (set_ptrs (<[shm_addr off := sp_ref off c]> (ptrs_ receiver)) receiver))).
  { unfold createLocal, sp_get, get_address_from_handle. cbn [shm_ this]. rewrite Hfree.
    cbn [default sp_release sp_copy]. by rewrite Hc. }
  rewrite Hrecv. cbn [fst snd shm_ this].
  set (s2 := set_ctl (<[c := mkControlBlock 2 CpuPool off]> (shm_ctl s)) s).
  assert (Hback : sp_release (sp_ref off c) s2 = s).
  { rewrite (sp_release_shared off c (mkControlBlock 2 CpuPool off) 0 s2);
      [|subst s2; cbn [shm_ctl set_ctl]; apply lookup_insert_eq|done].
    subst s2. cbn [shm_ctl set_ctl rc_pool rc_offset].
    rewrite insert_insert_eq, (insert_id _ _ _ Hc). by destruct s. }
  assert (Hlast : sp_release (sp_ref off c) s
                  = ReclaimerIPC CpuPool off (set_ctl (delete c (shm_ctl s)) s)).
  { by rewrite (sp_release_last off c _ s Hc) by (cbn; lia). }
  assert (Hdrop : ∀ s0, CpuBuffer_drop (mkCpuBuffer (shm_addr off) del_destroyLocal)
                    (mkState s0 (set_ptrs (<[shm_addr off := sp_ref off c]> (ptrs_ receiver))
                                   receiver))
                  = mkState (sp_release (sp_ref off c) s0)
                      (set_ptrs (delete (shm_addr off)
                                   (<[shm_addr off := sp_ref off c]> (ptrs_ receiver)))
                         (set_ptrs (<[shm_addr off := sp_ref off c]> (ptrs_ receiver)) receiver))).
  { intros s0. unfold CpuBuffer_drop, destroyLocal.
    cbn [cb_del cb_ptr this shm_ ptrs_ set_ptrs]. by rewrite lookup_insert_eq. }
  rewrite !Hdrop. cbn [shm_ this ptrs_ set_ptrs]. rewrite Hback, Hlast.
  destruct (ReclaimerIPC_frame CpuPool off (set_ctl (delete c (shm_ctl s)) s))
    as (Hpools & _ & _ & _ & _ & _ & Hctl).
  destruct (Hpools CpuPool) as [Halloc Hsizes]. cbn [get_pool] in Halloc, Hsizes.
  pose proof (ReclaimerIPC_buffers CpuPool off n (set_ctl (delete c (shm_ctl s)) s) Hn) as Hbuf.
  cbn [get_pool] in Hbuf.
  split; [subst s2; cbn [sp_use_count shm_ctl set_ctl]; by rewrite lookup_insert_eq|].
  split; [done|]. split; [done|]. split; [done|]. split; [done|].
  split; [apply lookup_delete_eq|]. split; [done|]. split; [exact Hbuf|].
  split; [exact Hsizes|]. split; [exact Halloc|].
  rewrite Hctl. apply lookup_delete_eq.
Qed.

(** The sample process sends the wrapper of a block of 1024 bytes to process
    200. *)
Lemma buffer_in_flight_is_recycled_by_last_owner_witness :
  let s := shm_ sample_sent.2 in
  let receiver := this sample_two_attached in
  shm_ctl s !! 2 = Some (mkControlBlock 1 CpuPool 1) ∧
  sizes (shm_pool s) !! 1 = Some 1024 ∧
  ptrs_ receiver !! shm_addr 1 = None ∧
  sp_use_count (sp_ref 1 2) (shm_ (createLocal (sp_ref 1 2) (mkState s receiver)).2) = 2%nat.
Proof.
  intros s receiver.
  assert (H1 : shm_ctl s !! 2 = Some (mkControlBlock 1 CpuPool 1)) by reflexivity.
  assert (H2 : sizes (shm_pool s) !! 1 = Some 1024) by reflexivity.
  assert (H3 : ptrs_ receiver !! shm_addr 1 = None) by reflexivity.
  do 3 (split; [assumption|]).
  exact (proj1 (buffer_in_flight_is_recycled_by_last_owner s receiver 1 2 1024 H1 H2 H3)).
Defined.
